(** * Bergman / Convnet matrix-recurrence layers: a shallow embedding

    The embedded code is [src/bergman/modeling_convnet.py] (classes
    [ConvnetMatrixEncoder], [ConvnetMatrixLayer], [ConvnetEncoder],
    [ConvnetModel], [ConvnetForMaskedLM]); [modeling_bergman.py] carries the
    same functions (its [calculatte_vectors], [make_orthogonal],
    [predict_matrix] and the preheat gate are textually the same code).

    Conventions of the embedding.
    - Tensor entries are real numbers ([R]): exact arithmetic stands for the
      float arithmetic of torch, whose results agree with it up to rounding
      as long as no intermediate value leaves the range of float32.  Where a
      statement needs that range, it is a hypothesis ([Float32]).  Division
      is total in [R] ([x / 0 = 0]); where torch would produce [nan] or
      [inf] this is said at the definition.
    - The real-valued configuration ([complex_matrix = False]) is embedded.
    - A tensor is a nested list, outermost axis first; an axis of size one
      that only serves broadcasting is dropped (a state of shape
      [B*heads, dim, 1] is a list of [B*heads] lists of [dim] reals).
    - A Python exception is a value of [Py.exn]; a function that can raise
      returns a [Py.result]. *)

From Stdlib Require Import String.
From Stdlib Require Import Reals Lra Lia Arith ZArith Bool List.
Import ListNotations.
Open Scope R_scope.

(* ================================================================== *)
(** * Python results and loops *)
(* ================================================================== *)

Module Py.

Inductive exn : Type :=
| KeyError
| IndexError
| TypeError
| RuntimeError
| ValueError
| UnboundLocalError
| NotImplementedError
| ZeroDivisionError
| AssertionError (msg : string).

Inductive result (A : Type) : Type :=
| Ok (a : A)
| Raise (e : exn).

Arguments Ok {A} a.
Arguments Raise {A} e.

Definition bind {A B : Type} (r : result A) (k : A -> result B) : result B :=
  match r with
  | Ok a => k a
  | Raise e => Raise e
  end.

(** [l[i]] for a non-negative index: out of range raises [IndexError]. *)
Definition index {A : Type} (l : list A) (i : nat) : result A :=
  match nth_error l i with
  | Some a => Ok a
  | None => Raise IndexError
  end.

(** [for i in order: s = body(s, i)], stopping at the first exception. *)
Fixpoint for_loop {S : Type} (order : list nat) (body : S -> nat -> result S)
    (s : S) : result S :=
  match order with
  | [] => Ok s
  | i :: rest => bind (body s i) (for_loop rest body)
  end.

(** A list comprehension whose element expression can raise. *)
Fixpoint map_result {A B : Type} (f : A -> result B) (l : list A)
    : result (list B) :=
  match l with
  | [] => Ok []
  | a :: rest =>
      bind (f a) (fun b => bind (map_result f rest) (fun bs => Ok (b :: bs)))
  end.

(** [range(n)] and [reversed(range(n))]. *)
Definition range (n : nat) : list nat := seq 0 n.
Definition reversed {A : Type} (l : list A) : list A := rev l.

End Py.

Import Py.

Notation "x <- c1 ;; c2" := (Py.bind c1 (fun x => c2))
  (at level 61, c1 at next level, right associativity).

(* ================================================================== *)
(** * Tensors as nested lists *)
(* ================================================================== *)

Module Tensor.

(** shape [dim] (a column [dim, 1] with its unit axis dropped) *)
Definition vector : Type := list R.
(** shape [dim, dim], a list of rows *)
Definition matrix : Type := list (list R).
(** shape [B*heads, dim, 1] *)
Definition bvector : Type := list vector.
(** shape [B*heads, dim, dim] *)
Definition bmatrix : Type := list matrix.

Definition sum_list (l : list R) : R := fold_right Rplus 0 l.

(** [sum_{k < n} f k] *)
Definition sum_n (n : nat) (f : nat -> R) : R := sum_list (map f (seq 0 n)).

Definition dot (a b : vector) : R :=
  sum_list (map (fun p => fst p * snd p) (combine a b)).

(** [M @ v] for one matrix and one column. *)
Definition matvec (M : matrix) (v : vector) : vector :=
  map (fun row => dot row v) M.

(** [torch.bmm(M, v)] for operands of matching sizes ([M] of shape
    [K, dim, dim], [v] of shape [K, dim, 1]): the matrix product item by item
    along the batch axis.  On other sizes torch raises [RuntimeError], which
    this list function does not model (it pairs the items it finds);
    [Scan.matrices_ok] states the matching sizes. *)
Definition bmm (M : bmatrix) (v : bvector) : bvector :=
  map (fun p => matvec (fst p) (snd p)) (combine M v).

(** [torch.norm(x, dim=-2)] of one column: its L2 norm. *)
Definition norm2 (v : vector) : R := sqrt (sum_list (map (fun x => x * x) v)).

(** [a[i][j]], with 0 outside the matrix (never read there by the code). *)
Definition entry (a : matrix) (i j : nat) : R := nth j (nth i a []) 0.

(** The [n] x [n] matrix with entries [f i j]. *)
Definition mk_matrix (n : nat) (f : nat -> nat -> R) : matrix :=
  map (fun i => map (fun j => f i j) (seq 0 n)) (seq 0 n).

(** [a @ b] for two [n] x [n] matrices. *)
Definition matmul (n : nat) (a b : matrix) : matrix :=
  mk_matrix n (fun i j => sum_n n (fun k => entry a i k * entry b k j)).

(** [a.transpose(-1, -2)] *)
Definition transpose (n : nat) (a : matrix) : matrix :=
  mk_matrix n (fun i j => entry a j i).

(** [a.diagonal(dim1=-2, dim2=-1)] *)
Definition diagonal (n : nat) (a : matrix) : vector :=
  map (fun i => entry a i i) (seq 0 n).

(** [torch.diag_embed(v)] *)
Definition diag_embed (n : nat) (v : vector) : matrix :=
  mk_matrix n (fun i j => if Nat.eqb i j then nth i v 0 else 0).

(** [torch.eye(n)] *)
Definition eye (n : nat) : matrix :=
  mk_matrix n (fun i j => if Nat.eqb i j then 1 else 0).

(** [x.sign()]: -1, 0 or 1. *)
Definition sign (x : R) : R :=
  match total_order_T x 0 with
  | inleft (left _) => -1
  | inleft (right _) => 0
  | inright _ => 1
  end.

(** Shape predicates. *)
Definition is_vector (n : nat) (v : vector) : Prop := length v = n.

Definition is_matrix (n : nat) (a : matrix) : Prop :=
  length a = n /\ Forall (fun row => length row = n) a.

Definition is_bvector (k n : nat) (v : bvector) : Prop :=
  length v = k /\ Forall (is_vector n) v.

Definition is_bmatrix (k n : nat) (M : bmatrix) : Prop :=
  length M = k /\ Forall (is_matrix n) M.

End Tensor.

Import Tensor.

(** More tensor shapes, and the primitives of the normalizers. *)
Module Shapes.

(** [hidden_states], shape [B, T, hidden]: the two sizes the code reads with
    [hidden_states.size()] and the hidden vector of batch item [b] at
    position [t]. *)
Record hidden_states : Type := {
  batch_sz : nat;
  context_sz : nat;
  token : nat -> nat -> list R
}.

(** shape [B, T, hidden] *)
Definition tensor3 : Type := list (list (list R)).
(** shape [B, T, heads, features] *)
Definition tensor4 : Type := list (list (list (list R))).
(** shape [T, B, heads, dim, dim], position-major *)
Definition tensor5 : Type := list (list (list matrix)).

(** The [n]-th chunk of width [w] of a flat vector. *)
Definition chunk (w n : nat) (x : list R) : list R := firstn w (skipn (n * w) x).

Definition remove_col (j : nat) (row : list R) : list R :=
  firstn j row ++ skipn (S j) row.

(** [a.det()] of an [n] x [n] matrix, by expansion along the first row. *)
Fixpoint det (n : nat) (a : matrix) : R :=
  match n with
  | O => 1
  | S n' =>
      sum_list
        (map (fun j => (-1) ^ j * entry a 0 j * det n' (map (remove_col j) (tl a)))
             (seq 0 n))
  end.

(** [x ** y] for a base [x >= 0]: [0 ** y] is 0 for [y > 0] and 1 for
    [y = 0]; a positive base is [exp (y * ln x)]. *)
Definition pow (x y : R) : R :=
  if Req_dec_T x 0 then (if Req_dec_T y 0 then 1 else 0) else Rpower x y.

(** Entrywise map over a matrix. *)
Definition map_matrix (f : R -> R) (a : matrix) : matrix := map (map f) a.

(** Column [j] of a matrix. *)
Definition column (a : matrix) (j : nat) : vector := map (fun row => nth j row 0) a.

(** Frobenius norm of a matrix: [torch.norm(m, dim=(-2, -1))]. *)
Definition frobenius (a : matrix) : R :=
  sqrt (sum_list (map (fun x => x * x) (concat a))).

End Shapes.

Import Shapes.

(* ================================================================== *)
(** * [ConvnetMatrixEncoder] (and [BergmanMatrixLayer.predict_matrix]) *)
(* ================================================================== *)

Module ConvnetMatrixEncoder.

(** The matrix axes an integer [matrix_norm_alg] names: -1 and -2. *)
Inductive matrix_axis : Type :=
| AxisLast        (* -1 *)
| AxisSecondLast. (* -2 *)

(** [config.matrix_norm_alg] at its documented values: [None], an integer
    axis (-1 or -2), the pair of the two matrix axes, or a string. *)
Inductive norm_alg : Type :=
| AlgNone
| AlgInt (axis : matrix_axis)
| AlgPair
| AlgStr (s : string).

(** The module's attributes: configuration, learned layers (each a function
    on the last axis) and the QR factorisation of torch. *)
Record self : Type := {
  num_matrix_heads : nat;
  matrix_dim : nat;
  matrix_encoder_two_layers : bool;
  matrix_norm_alg : norm_alg;
  matrix_norm_eps : R;
  fc1 : list R -> list R;
  activation : list R -> list R;
  layer_norm : option (list R -> list R);
  fc_to_mat : list R -> list R;
  linalg_qr : matrix -> matrix * matrix
}.

(** [make_orthogonal] on one matrix of the batch (torch applies every step
    matrix by matrix along the leading axes). *)
Definition make_orthogonal (s : self) (z : matrix) : matrix :=
  let n := matrix_dim s in
  let (q, r) := linalg_qr s z in
  (* make diagonal entries of R to be positive *)
  let sgn := diag_embed n (map sign (diagonal n r)) in
  let r := matmul n sgn r in
  let q := matmul n q sgn in
  let d := diagonal n r in
  (* q *= (d / d.abs())[..., None, :] ; torch gives nan where d is 0 *)
  mk_matrix n (fun i j => entry q i j * (nth j d 0 / Rabs (nth j d 0))).

(** The denominator of the ["det"] branch for one matrix. *)
Definition det_denominator (s : self) (m : matrix) : R :=
  pow (Rabs (det (matrix_dim s) m)) (1 / INR (matrix_dim s)) + matrix_norm_eps s.

(** The dispatch on [matrix_norm_alg]: the map applied to every matrix of the
    batch, or the exception of the branch. *)
Definition normalizer (s : self) : result (matrix -> matrix) :=
  match matrix_norm_alg s with
  | AlgNone => Ok (fun m => m)
  | AlgInt AxisLast =>
      Ok (fun m =>
            map (fun row => map (fun x => x / (norm2 row + matrix_norm_eps s)) row) m)
  | AlgInt AxisSecondLast =>
      Ok (fun m =>
            map (fun row =>
                   map (fun p => snd p / (norm2 (column m (fst p)) + matrix_norm_eps s))
                       (combine (seq 0 (length row)) row)) m)
  | AlgPair =>
      Ok (fun m =>
            map_matrix
              (fun x => x / (frobenius m + matrix_norm_eps s) * sqrt (INR (matrix_dim s)))
              m)
  | AlgStr alg =>
      if String.eqb alg "det" then
        if Nat.eqb (matrix_dim s) 0 then Raise ZeroDivisionError
        else Ok (fun m => map_matrix (fun x => x / det_denominator s m) m)
      else if String.eqb alg "ortho" then Ok (make_orthogonal s)
      else Raise KeyError
  end.

(** [forward]: the normalized matrices [m_norm] and the raw ones [m], both
    of shape [T, B, heads, dim, dim]. *)
Definition forward (s : self) (hs : hidden_states) : result (tensor5 * tensor5) :=
  let x := fun b t =>
    let x := token hs b t in
    if matrix_encoder_two_layers s then
      let x := fc1 s x in
      let x := activation s x in
      match layer_norm s with
      | Some ln => ln x
      | None => x
      end
    else x in
  let D := matrix_dim s in
  (* m.view(B, T, heads, dim, dim).transpose(0, 1) *)
  let m : tensor5 :=
    map (fun t =>
      map (fun b =>
        map (fun h =>
          mk_matrix D (fun i j => nth (h * D * D + i * D + j) (fc_to_mat s (x b t)) 0))
          (seq 0 (num_matrix_heads s)))
        (seq 0 (batch_sz hs)))
      (seq 0 (context_sz hs)) in
  f <- normalizer s ;;
  Ok (map (map (map f)) m, m).

End ConvnetMatrixEncoder.

Module ConvnetMatrixEncoderV2.

Record self : Type := {
  num_matrix_heads : nat;
  matrix_dim : nat;
  matrix_encodder_hidden_size : nat;
  matrix_norm_alg : ConvnetMatrixEncoder.norm_alg;
  fc1 : list R -> list R;
  activation : list R -> list R;
  fc2 : list R -> list R
}.

Definition forward (s : self) (hs : hidden_states) : result (tensor5 * tensor5) :=
  let D := matrix_dim s in
  let m : tensor5 :=
    map (fun t =>
      map (fun b =>
        map (fun h =>
          let x := chunk (matrix_encodder_hidden_size s) h (fc1 s (token hs b t)) in
          let x := activation s x in
          mk_matrix D (fun i j => nth (i * D + j) (fc2 s x) 0))
          (seq 0 (num_matrix_heads s)))
        (seq 0 (batch_sz hs)))
      (seq 0 (context_sz hs)) in
  match matrix_norm_alg s with
  | ConvnetMatrixEncoder.AlgNone => Ok (m, m)
  | _ => Raise (AssertionError "Not implemented")
  end.

End ConvnetMatrixEncoderV2.

(* ================================================================== *)
(** * [ConvnetMatrixLayer] (and [BergmanMatrixLayer]) *)
(* ================================================================== *)

Module ConvnetMatrixLayer.

(** [{1: ConvnetMatrixEncoder, 2: ConvnetMatrixEncoderV2}[version](config)] *)
Inductive matrix_encoder : Type :=
| EncoderV1 (e : ConvnetMatrixEncoder.self)
| EncoderV2 (e : ConvnetMatrixEncoderV2.self).

Definition matrix_encoder_forward (e : matrix_encoder) (hs : hidden_states)
    : result (tensor5 * tensor5) :=
  match e with
  | EncoderV1 e => ConvnetMatrixEncoder.forward e hs
  | EncoderV2 e => ConvnetMatrixEncoderV2.forward e hs
  end.

(** [config.networks_for_heads]; the constructor raises [KeyError] on any
    other value. *)
Inductive head_policy : Type :=
| HeadsNone
| HeadsSeparate
| HeadsSeparateSum
| HeadsCommon.

Record self : Type := {
  num_matrix_heads : nat;
  matrix_dim : nat;
  use_for_context : list string;
  networks_for_heads : head_policy;
  norm_vectors : bool;
  vector_norm_eps : R;
  rl_lr_matrix_different : bool;
  is_decoder : bool;
  vector_init_direction : string;
  matrix_encoder_lr : matrix_encoder;
  matrix_encoder_rl : matrix_encoder;
  (* [v_to_hidden[i]] of the "separate" policies, [v_to_hidden] of "common" *)
  v_to_hidden : nat -> list R -> list R;
  v_to_hidden_common : list R -> list R;
  act_fn : list R -> list R
}.

(** The attention mask that reaches the layer has shape [B, 1, 1, T]
    ([attention_mask[:, None, None, :]]); it is kept as its [B] rows. *)
Definition mask : Type := list (list R).

(** [attention_mask[..., i]], shape [B, 1, 1]. *)
Definition mask_at (am : mask) (i : nat) : result (list R) :=
  map_result (fun row => index row i) am.

(** The initial state of [calculate_vectors]. *)
Definition initial_vector (s : self) (batch_sz : nat) (init_type : string)
    : result bvector :=
  let D := matrix_dim s in
  if String.eqb init_type "one" then
    (* v = zeros(B*heads, dim, 1); v[..., 0, :] = 1 *)
    if Nat.eqb D 0 then Raise IndexError
    else Ok (repeat (1 :: repeat 0 (D - 1)) (batch_sz * num_matrix_heads s))
  else if String.eqb init_type "all" then
    Ok (repeat (repeat (1 / sqrt (INR D)) D) (batch_sz * num_matrix_heads s))
  else Raise KeyError.

(** [new_v / (norm + eps)] with [norm = torch.norm(new_v, dim=-2, keepdim=True)]
    (for a zero column and [eps = 0] torch gives [nan], the division here 0). *)
Definition renormalize (s : self) (new_v : bvector) : bvector :=
  map (fun col => map (fun x => x / (norm2 col + vector_norm_eps s)) col) new_v.

(** [(new_v.view(B, 1, heads*dim) * mask_i + v.view(B, 1, heads*dim) * (1 - mask_i))
    .view(v.size())]: item [k] of the [B*heads] axis belongs to batch row
    [k / heads]; a mask of one row broadcasts. *)
Definition blend (s : self) (mask_i : list R) (new_v v : bvector) : bvector :=
  map (fun p =>
         let a := if Nat.eqb (length mask_i) 1 then nth 0 mask_i 0
                  else nth (fst p / num_matrix_heads s) mask_i 0 in
         map (fun q => fst q * a + snd q * (1 - a)) (combine (fst (snd p)) (snd (snd p))))
      (combine (seq 0 (length new_v)) (combine new_v v)).

(** The body of the loop of [calculate_vectors]; the loop state is
    [(v, history)]. *)
Definition calculate_vectors_step (s : self) (batch_sz : nat) (m : list bmatrix)
    (attention_mask : option mask) (accumulate : bool)
    (st : bvector * list bvector) (i : nat) : result (bvector * list bvector) :=
  let (v, history) := st in
  m_i <- index m i ;;
  let new_v := bmm m_i v in
  let new_v := if norm_vectors s then renormalize s new_v else new_v in
  history <-
    match attention_mask with
    | Some am =>
        mask_i <- mask_at am i ;;
        if Nat.eqb (length mask_i) batch_sz || Nat.eqb (length mask_i) 1
        then Ok (history ++ [blend s mask_i new_v v])
        else Raise RuntimeError
    | None => Ok (history ++ [new_v])
    end ;;
  let v := if accumulate then last history v else v in
  Ok (v, history).

Definition calculate_vectors (s : self) (hs : hidden_states) (m : list bmatrix)
    (attention_mask : option mask) (accumulate : bool) (init_type : string)
    (reverse_direction : bool) : result (list bvector) :=
  v <- initial_vector s (batch_sz hs) init_type ;;
  let history := [v] in
  let order := if negb reverse_direction then range (context_sz hs)
               else reversed (range (context_sz hs)) in
  st <- for_loop order
          (calculate_vectors_step s (batch_sz hs) m attention_mask accumulate)
          (v, history) ;;
  Ok (snd st).

(** [torch.stack(history).view(T, B, heads, dim).transpose(0, 1)]: entry
    [b][t][h] of the result is item [b*heads + h] of [history[t]]. *)
Definition prepare_history_tensor (s : self) (history : list bvector)
    (context_sz batch_sz : nat) : result tensor4 :=
  let H := num_matrix_heads s in
  let numel := (batch_sz * H * matrix_dim s)%nat in
  match history with
  | [] => Raise RuntimeError
  | _ =>
      if Nat.eqb (length history * numel) (context_sz * numel) then
        Ok (map (fun b =>
              map (fun t =>
                map (fun h => nth (b * H + h) (nth t history []) []) (seq 0 H))
                (seq 0 context_sz))
              (seq 0 batch_sz))
      else Raise RuntimeError
  end.

(** A value stored in the [available_vectors] dict: a tensor, or a Python
    tuple of tensors. *)
Inductive pyval : Type :=
| PTensor (t : tensor4)
| PTuple (items : list tensor4).

(** The dict [available_vectors], in insertion order (every key is assigned
    at most once by [forward]). *)
Definition dict : Type := list (string * pyval).

(** [d[k]] *)
Definition dict_get (d : dict) (k : string) : result pyval :=
  match find (fun kv => String.eqb (fst kv) k) d with
  | Some kv => Ok (snd kv)
  | None => Raise KeyError
  end.

(** [{names} & set(use_for_context)] is non-empty. *)
Definition intersects (names l : list string) : bool :=
  existsb (fun n => existsb (String.eqb n) l) names.

(** The block [if {"global", "lr", "lr_excl"} & set(self.use_for_context)]:
    its dict entries and [v_global]. *)
Definition lr_views (s : self) (hs : hidden_states) (m_norm_lr : list bmatrix)
    (attention_mask : option mask) : result (dict * tensor4) :=
  let B := batch_sz hs in
  let T := context_sz hs in
  let H := num_matrix_heads s in
  v_lr <- calculate_vectors s hs m_norm_lr attention_mask true
            (vector_init_direction s) false ;;
  v_global <- index v_lr (length v_lr - 1) ;;
  let v_lr_excl := removelast v_lr in
  let v_lr := tl v_lr in
  v_lr_excl <- prepare_history_tensor s v_lr_excl T B ;;
  v_lr <- prepare_history_tensor s v_lr T B ;;
  (* v_global.view(B, 1, heads, dim).repeat(1, T, 1, 1) *)
  let v_global : tensor4 :=
    map (fun b => map (fun _ => map (fun h => nth (b * H + h) v_global []) (seq 0 H))
                      (seq 0 T)) (seq 0 B) in
  Ok ([("lr_excl"%string, PTensor v_lr_excl); ("lr"%string, PTensor v_lr);
       ("global"%string, PTensor v_global)], v_global).

(** The block [if {"rl", "rl_excl"} & set(self.use_for_context)]. *)
Definition rl_views (s : self) (hs : hidden_states) (m_norm_rl : list bmatrix)
    (attention_mask : option mask) : result dict :=
  let B := batch_sz hs in
  let T := context_sz hs in
  v_rl <- calculate_vectors s hs m_norm_rl attention_mask true
            (vector_init_direction s) true ;;
  let v_rl_excl := removelast v_rl in
  let v_rl := tl v_rl in
  let v_rl := reversed v_rl in
  let v_rl_excl := reversed v_rl_excl in
  v_rl <- prepare_history_tensor s v_rl T B ;;
  v_rl_excl <- prepare_history_tensor s v_rl_excl T B ;;
  Ok [("rl"%string, PTensor v_rl); ("rl_excl"%string, PTensor v_rl_excl)].

(** The three Python lists of the block
    [if {"local", "local_l", "local_r"} & set(self.use_for_context)], before
    they are stacked: [(v_local, v_local_shift_l, v_local_shift_r)]. *)
Definition local_lists (s : self) (hs : hidden_states) (m_norm_lr : list bmatrix)
    (attention_mask : option mask)
    : result (list bvector * list bvector * list bvector) :=
  v_local <- calculate_vectors s hs m_norm_lr attention_mask false
               (vector_init_direction s) false ;;
  let v_local_shift_r := removelast v_local in
  v_local_0 <- index v_local 0 ;;
  let v_local_shift_l := skipn 2 v_local ++ [v_local_0] in
  let v_local := tl v_local in
  Ok (v_local, v_local_shift_l, v_local_shift_r).

(** The same block, with its dict entries. *)
Definition local_views (s : self) (hs : hidden_states) (m_norm_lr : list bmatrix)
    (attention_mask : option mask) : result dict :=
  let B := batch_sz hs in
  let T := context_sz hs in
  lists <- local_lists s hs m_norm_lr attention_mask ;;
  let '(v_local, v_local_shift_l, v_local_shift_r) := lists in
  v_local <- prepare_history_tensor s v_local T B ;;
  v_local_shift_l <- prepare_history_tensor s v_local_shift_l T B ;;
  v_local_shift_r <- prepare_history_tensor s v_local_shift_r T B ;;
  (* available_vectors["local"] = (v_local,) *)
  Ok [("local"%string, PTuple [v_local]); ("local_r"%string, PTensor v_local_shift_r);
      ("local_l"%string, PTensor v_local_shift_l)].

(** [torch.concatenate(context, axis=-1)]: every element must be a tensor
    ([TypeError] otherwise) and the list must not be empty ([ValueError]). *)
Definition concatenate_last (s : self) (hs : hidden_states) (context : list pyval)
    : result tensor4 :=
  tensors <- map_result (fun v => match v with
                                  | PTensor t => Ok t
                                  | PTuple _ => Raise TypeError
                                  end) context ;;
  match tensors with
  | [] => Raise ValueError
  | _ =>
      Ok (map (fun b =>
            map (fun t =>
              map (fun h => concat (map (fun x => nth h (nth t (nth b x []) []) []) tensors))
                  (seq 0 (num_matrix_heads s)))
              (seq 0 (context_sz hs)))
            (seq 0 (batch_sz hs)))
  end.

(** Elementwise sum of a stack of vectors ([torch.sum(x, dim=0)]). *)
Definition stack_sum (xs : list (list R)) : list R :=
  fold_left (fun acc x => map (fun p => fst p + snd p) (combine acc x)) (tl xs) (hd [] xs).

(** The head-mixing policy applied to the concatenated context. *)
Definition mix_heads (s : self) (x : tensor4) : result tensor3 :=
  let H := num_matrix_heads s in
  let per_head := fun xh : list (list R) =>
    map (fun i => v_to_hidden s i (nth i xh [])) (seq 0 H) in
  match networks_for_heads s with
  | HeadsSeparate =>
      (* torch.concatenate of an empty list *)
      if Nat.eqb H 0 then Raise ValueError
      else Ok (map (map (fun xh => act_fn s (concat (per_head xh)))) x)
  | HeadsSeparateSum =>
      (* torch.stack of an empty list *)
      if Nat.eqb H 0 then Raise RuntimeError
      else Ok (map (map (fun xh => stack_sum (map (act_fn s) (per_head xh)))) x)
  | HeadsCommon =>
      Ok (map (map (fun xh => act_fn s (v_to_hidden_common s (concat xh)))) x)
  | HeadsNone => Ok (map (map (fun xh => concat xh)) x)
  end.

(** An element of the tuple [forward] returns. *)
Inductive output : Type :=
| OutHidden (x : tensor3)
| OutMatrices (m : tensor5)
| OutGlobal (v_global : tensor4).

(** An argument that is only tested against [None]. *)
Definition unsupported : Type := option (list R).

Definition assert_none (a : unsupported) (msg : string) : result unit :=
  match a with
  | None => Ok tt
  | Some _ => Raise (AssertionError msg)
  end.

Definition forward (s : self) (hs : hidden_states) (attention_mask : option mask)
    (head_mask encoder_hidden_states encoder_attention_mask past_vector : unsupported)
    (output_matrices : bool) : result (list output) :=
  _ <- assert_none encoder_hidden_states "Not implemented" ;;
  _ <- assert_none encoder_attention_mask "Not implemented" ;;
  _ <- assert_none head_mask "Not implemented" ;;
  _ <- assert_none past_vector "Not implemented" ;;
  enc_lr <- matrix_encoder_forward (matrix_encoder_lr s) hs ;;
  (* m_norm_lr.reshape(T, B * heads, dim, dim) *)
  let m_norm_lr : list bmatrix := map (@concat matrix) (fst enc_lr) in
  let m := snd enc_lr in
  rl <- (if rl_lr_matrix_different s then
           enc_rl <- matrix_encoder_forward (matrix_encoder_rl s) hs ;;
           (* m = torch.concatenate([m, m_rl], dim=0) *)
           Ok (map (@concat matrix) (fst enc_rl), m ++ snd enc_rl)
         else Ok (m_norm_lr, m)) ;;
  let m_norm_rl : list bmatrix := fst rl in
  let m : tensor5 := snd rl in
  let available_vectors : dict := [] in
  lr <- (if intersects ["global"; "lr"; "lr_excl"]%string (use_for_context s) then
           r <- lr_views s hs m_norm_lr attention_mask ;;
           Ok (available_vectors ++ fst r, Some (snd r))
         else Ok (available_vectors, None)) ;;
  let available_vectors := fst lr in
  let v_global : option tensor4 := snd lr in
  available_vectors <-
    (if intersects ["rl"; "rl_excl"]%string (use_for_context s) then
       r <- rl_views s hs m_norm_rl attention_mask ;;
       Ok (available_vectors ++ r)
     else Ok available_vectors) ;;
  available_vectors <-
    (if intersects ["local"; "local_l"; "local_r"]%string (use_for_context s) then
       r <- local_views s hs m_norm_lr attention_mask ;;
       Ok (available_vectors ++ r)
     else Ok available_vectors) ;;
  context <- map_result (dict_get available_vectors) (use_for_context s) ;;
  x <- concatenate_last s hs context ;;
  x <- mix_heads s x ;;
  let outputs := [OutHidden x] in
  let outputs := if output_matrices then outputs ++ [OutMatrices m] else outputs in
  if is_decoder s then
    match v_global with
    | Some v => Ok (outputs ++ [OutGlobal v])
    | None => Raise UnboundLocalError
    end
  else Ok outputs.

End ConvnetMatrixLayer.

(* ================================================================== *)
(** * [ConvnetLayer] and [ConvnetEncoder] *)
(* ================================================================== *)

Module ConvnetLayer.

Import ConvnetMatrixLayer.

(** [matrix_blk.mm] is the matrix layer; [matrix_output] is
    [ConvnetMatrixOutput.forward] (dense, dropout, add-and-normalize) and
    [feed_forward_chunk] the feed-forward sublayer, both learned maps. *)
Record self : Type := {
  mm : ConvnetMatrixLayer.self;
  matrix_output : tensor3 -> hidden_states -> tensor3;
  feed_forward_chunk : tensor3 -> tensor3
}.

(** [ConvnetMatrixBlock.forward] *)
Definition matrix_blk (s : self) (hs : hidden_states) (attention_mask : option mask)
    (head_mask encoder_hidden_states encoder_attention_mask past_vector : unsupported)
    (output_matrices : bool) : result (list output) :=
  mm_outputs <- ConvnetMatrixLayer.forward (mm s) hs attention_mask head_mask
                  encoder_hidden_states encoder_attention_mask past_vector
                  output_matrices ;;
  mm_0 <- index mm_outputs 0 ;;
  match mm_0 with
  | OutHidden x => Ok (OutHidden (matrix_output s x hs) :: tl mm_outputs)
  | _ => Raise TypeError
  end.

Definition forward (s : self) (hs : hidden_states) (attention_mask : option mask)
    (head_mask encoder_hidden_states encoder_attention_mask past_vector : unsupported)
    (output_matrices : bool) : result (list output) :=
  _ <- assert_none encoder_hidden_states "Not implemented" ;;
  _ <- assert_none encoder_attention_mask "Not implemented" ;;
  matrix_blk_output <- matrix_blk s hs attention_mask head_mask None None
                         past_vector output_matrices ;;
  (* if decoder, the last output is pre-calculated vector *)
  let outputs := if is_decoder (mm s) then removelast (tl matrix_blk_output)
                 else tl matrix_blk_output in
  blk_0 <- index matrix_blk_output 0 ;;
  match blk_0 with
  | OutHidden x =>
      let outputs := OutHidden (feed_forward_chunk s x) :: outputs in
      if is_decoder (mm s) then
        present_state <- index matrix_blk_output (length matrix_blk_output - 1) ;;
        Ok (outputs ++ [present_state])
      else Ok outputs
  | _ => Raise TypeError
  end.

End ConvnetLayer.

Module ConvnetEncoder.

Import ConvnetMatrixLayer.

Record self : Type := {
  layer : list ConvnetLayer.self;
  gradient_checkpointing : bool;
  training : bool;
  add_cross_attention : bool;
  (* the two convolutions with their normalizations, when configured *)
  input_convnet : option (hidden_states -> hidden_states)
}.

(** [ConvnetOutputWithPast] *)
Record ConvnetOutputWithPast : Type := {
  last_hidden_state : hidden_states;
  all_hidden_states : option (list hidden_states);
  matrices : option (list output)
}.

(** The loop state of [forward]. *)
Record loop_state : Type := {
  ls_hidden_states : hidden_states;
  ls_use_cache : bool;
  ls_all_hidden_states : list hidden_states;
  ls_all_matrices : list output
}.

(** [x[i] if x is not None else None] *)
Definition index_opt (x : option (list unsupported)) (i : nat) : result unsupported :=
  match x with
  | Some l => index l i
  | None => Ok None
  end.

(** A layer output of shape [B, T, hidden] read as the next hidden states. *)
Definition as_hidden_states (hs : hidden_states) (x : tensor3) : hidden_states :=
  {| batch_sz := batch_sz hs;
     context_sz := context_sz hs;
     token := fun b t => nth t (nth b x []) [] |}.

(** The body of [for i, layer_module in enumerate(self.layer)]. *)
Definition forward_step (s : self) (attention_mask : option mask)
    (head_mask : option (list unsupported))
    (encoder_hidden_states encoder_attention_mask : unsupported)
    (past_vectors : option (list unsupported))
    (output_matrices output_hidden_states : bool)
    (st : loop_state) (i : nat) : result loop_state :=
  layer_module <- index (layer s) i ;;
  let hidden_states := ls_hidden_states st in
  let all_hidden_states :=
    if output_hidden_states then ls_all_hidden_states st ++ [hidden_states]
    else ls_all_hidden_states st in
  layer_head_mask <- index_opt head_mask i ;;
  past_vector <- index_opt past_vectors i ;;
  let use_cache :=
    if gradient_checkpointing s && training s then
      (* `use_cache=True` is incompatible with gradient checkpointing *)
      if ls_use_cache st then false else ls_use_cache st
    else ls_use_cache st in
  (* both branches call the layer with the same seven arguments *)
  layer_outputs <- ConvnetLayer.forward layer_module hidden_states attention_mask
                     layer_head_mask encoder_hidden_states encoder_attention_mask
                     past_vector output_matrices ;;
  out_0 <- index layer_outputs 0 ;;
  match out_0 with
  | OutHidden x =>
      let hidden_states := as_hidden_states hidden_states x in
      if use_cache then
        (* raise NotImplemented(): the constant [NotImplemented] is not
           callable, so the call itself raises [TypeError] *)
        Raise TypeError
      else
        all_matrices <-
          (if output_matrices then
             out_1 <- index layer_outputs 1 ;;
             if add_cross_attention s then Raise NotImplementedError
             else Ok (ls_all_matrices st ++ [out_1])
           else Ok (ls_all_matrices st)) ;;
        Ok {| ls_hidden_states := hidden_states;
              ls_use_cache := use_cache;
              ls_all_hidden_states := all_hidden_states;
              ls_all_matrices := all_matrices |}
  | _ => Raise TypeError
  end.

Definition forward (s : self) (hs : hidden_states) (attention_mask : option mask)
    (head_mask : option (list unsupported))
    (encoder_hidden_states encoder_attention_mask : unsupported)
    (past_vectors : option (list unsupported)) (use_cache : bool)
    (output_matrices output_hidden_states : bool) : result ConvnetOutputWithPast :=
  let hidden_states :=
    match input_convnet s with
    | Some conv => conv hs
    | None => hs
    end in
  st <- for_loop (range (length (layer s)))
          (forward_step s attention_mask head_mask encoder_hidden_states
             encoder_attention_mask past_vectors output_matrices output_hidden_states)
          {| ls_hidden_states := hidden_states;
             ls_use_cache := use_cache;
             ls_all_hidden_states := [];
             ls_all_matrices := [] |} ;;
  let all_hidden_states :=
    if output_hidden_states then Some (ls_all_hidden_states st ++ [ls_hidden_states st])
    else None in
  Ok {| last_hidden_state := ls_hidden_states st;
        all_hidden_states := all_hidden_states;
        matrices := if output_matrices then Some (ls_all_matrices st) else None |}.

End ConvnetEncoder.

Module ConvnetModel.

(** The resolution of [use_cache] at the head of [ConvnetModel.forward]:
    [use_cache if use_cache is not None else self.config.use_cache] in decoder
    configuration, [False] otherwise. *)
Definition resolve_use_cache (config_is_decoder config_use_cache : bool)
    (use_cache : option bool) : bool :=
  if config_is_decoder then
    match use_cache with
    | Some u => u
    | None => config_use_cache
    end
  else false.

End ConvnetModel.

(* ================================================================== *)
(** * The scan of [calculate_vectors] as a pure unrolling *)
(* ================================================================== *)

Module Scan.

Import ConvnetMatrixLayer.

(** What one iteration reads: [m[i]] and, under a mask, [attention_mask[..., i]]. *)
Definition fetch (batch_sz : nat) (m : list bmatrix) (attention_mask : option mask)
    (i : nat) : result (bmatrix * option (list R)) :=
  m_i <- index m i ;;
  match attention_mask with
  | Some am =>
      mask_i <- mask_at am i ;;
      if Nat.eqb (length mask_i) batch_sz || Nat.eqb (length mask_i) 1
      then Ok (m_i, Some mask_i)
      else Raise RuntimeError
  | None => Ok (m_i, None)
  end.

(** [new_v] of one iteration, before the mask. *)
Definition new_state (s : self) (m_i : bmatrix) (v : bvector) : bvector :=
  if norm_vectors s then renormalize s (bmm m_i v) else bmm m_i v.

(** The element one iteration appends to [history]. *)
Definition produced (s : self) (f : bmatrix * option (list R)) (v : bvector) : bvector :=
  match snd f with
  | Some mask_i => blend s mask_i (new_state s (fst f) v) v
  | None => new_state s (fst f) v
  end.

(** The elements appended over a list of iterations, from state [v]. *)
Fixpoint unroll (s : self) (accumulate : bool) (v : bvector)
    (steps : list (bmatrix * option (list R))) : list bvector :=
  match steps with
  | [] => []
  | f :: rest =>
      produced s f v :: unroll s accumulate (if accumulate then produced s f v else v) rest
  end.

(** The state [v] after the same iterations. *)
Fixpoint final_state (s : self) (accumulate : bool) (v : bvector)
    (steps : list (bmatrix * option (list R))) : bvector :=
  match steps with
  | [] => v
  | f :: rest => final_state s accumulate (if accumulate then produced s f v else v) rest
  end.

(** The order of the scan. *)
Definition scan_order (T : nat) (reverse_direction : bool) : list nat :=
  if negb reverse_direction then range T else reversed (range T).

(** The mask is usable for a batch of [B] rows and [T] positions. *)
Definition mask_ok (B T : nat) (attention_mask : option mask) : Prop :=
  match attention_mask with
  | Some am => (length am = B \/ length am = 1%nat) /\ Forall (fun row => (T <= length row)%nat) am
  | None => True
  end.

(** The initial vector is defined for this [init_type]. *)
Definition init_ok (s : self) (init_type : string) : Prop :=
  (init_type = "one"%string /\ matrix_dim s <> 0%nat) \/ init_type = "all"%string.

(** Every matrix block has the shape [B*heads, dim, dim]. *)
Definition matrices_ok (s : self) (B : nat) (m : list bmatrix) : Prop :=
  Forall (is_bmatrix (B * num_matrix_heads s) (matrix_dim s)) m.

(** The column of the mask at position [i], when there is a mask. *)
Definition mask_column (am : option mask) (i : nat) : option (list R) :=
  option_map (map (fun row => nth i row 0)) am.

(** The position consumed by iteration [j] of the scan. *)
Definition position (T : nat) (rev_dir : bool) (j : nat) : nat :=
  if rev_dir then (T - 1 - j)%nat else j.

(** Two batched states with the same shape, item by item. *)
Definition same_shape (a b : bvector) : Prop :=
  Forall2 (fun x y => length x = length y) a b.

(** A small layer: one head, matrices of size 1, the context view "lr". *)
Definition tiny_encoder : ConvnetMatrixEncoder.self :=
  {| ConvnetMatrixEncoder.num_matrix_heads := 1;
     ConvnetMatrixEncoder.matrix_dim := 1;
     ConvnetMatrixEncoder.matrix_encoder_two_layers := false;
     ConvnetMatrixEncoder.matrix_norm_alg := ConvnetMatrixEncoder.AlgNone;
     ConvnetMatrixEncoder.matrix_norm_eps := 1 / 1000000;
     ConvnetMatrixEncoder.fc1 := fun x => x;
     ConvnetMatrixEncoder.activation := fun x => x;
     ConvnetMatrixEncoder.layer_norm := None;
     ConvnetMatrixEncoder.fc_to_mat := fun x => x;
     ConvnetMatrixEncoder.linalg_qr := fun z => (eye 1, z) |}.

Definition tiny_layer (views : list string) : self :=
  {| num_matrix_heads := 1;
     matrix_dim := 1;
     use_for_context := views;
     networks_for_heads := HeadsNone;
     norm_vectors := false;
     vector_norm_eps := 1 / 1000000;
     rl_lr_matrix_different := false;
     is_decoder := false;
     vector_init_direction := "one";
     matrix_encoder_lr := EncoderV1 tiny_encoder;
     matrix_encoder_rl := EncoderV1 tiny_encoder;
     v_to_hidden := fun _ x => x;
     v_to_hidden_common := fun x => x;
     act_fn := fun x => x |}.

(** Hidden states of batch size 1 and [T] positions; the token at position
    [t] is the one-entry vector [t + 2]. *)
Definition tiny_hidden (T : nat) : hidden_states :=
  {| batch_sz := 1; context_sz := T; token := fun _ t => [INR t + 2] |}.

(** The small layer with a second encoder for the right-to-left pass. *)
Definition tiny_layer_two_encoders : self :=
  {| num_matrix_heads := 1;
     matrix_dim := 1;
     use_for_context := ["lr"%string];
     networks_for_heads := HeadsNone;
     norm_vectors := false;
     vector_norm_eps := 1 / 1000000;
     rl_lr_matrix_different := true;
     is_decoder := false;
     vector_init_direction := "one";
     matrix_encoder_lr := EncoderV1 tiny_encoder;
     matrix_encoder_rl := EncoderV1 tiny_encoder;
     v_to_hidden := fun _ x => x;
     v_to_hidden_common := fun x => x;
     act_fn := fun x => x |}.

(** Entry [b][t][h] of a context view of shape [B, T, heads, dim]. *)
Definition view_at (x : tensor4) (b t h : nat) : list R :=
  nth h (nth t (nth b x []) []) [].

(** The 1 x 1 matrices 2, 3, 5, one per position. *)
Definition tiny_matrices : list bmatrix := [ [[[2]]]; [[[3]]]; [[[5]]] ].

End Scan.

(* ================================================================== *)
(** * A one-layer encoder *)
(* ================================================================== *)

Module Cache.

Definition tiny_convnet_layer : ConvnetLayer.self :=
  {| ConvnetLayer.mm := Scan.tiny_layer ["lr"%string];
     ConvnetLayer.matrix_output := fun x _ => x;
     ConvnetLayer.feed_forward_chunk := fun x => x |}.

Definition tiny_encoder_stack (layers : list ConvnetLayer.self) : ConvnetEncoder.self :=
  {| ConvnetEncoder.layer := layers;
     ConvnetEncoder.gradient_checkpointing := false;
     ConvnetEncoder.training := false;
     ConvnetEncoder.add_cross_attention := false;
     ConvnetEncoder.input_convnet := None |}.

End Cache.

(* ================================================================== *)
(** * Orthogonality and the contract of the QR factorisation *)
(* ================================================================== *)

Module LinAlg.

(** [a @ a^T = I] and [a^T @ a = I], entry by entry. *)
Definition rows_orthonormal (n : nat) (a : matrix) : Prop :=
  forall i k, (i < n)%nat -> (k < n)%nat ->
    sum_n n (fun j => entry a i j * entry a k j) = if Nat.eqb i k then 1 else 0.

Definition cols_orthonormal (n : nat) (a : matrix) : Prop :=
  forall j l, (j < n)%nat -> (l < n)%nat ->
    sum_n n (fun i => entry a i j * entry a i l) = if Nat.eqb j l then 1 else 0.

Definition orthogonal (n : nat) (a : matrix) : Prop :=
  rows_orthonormal n a /\ cols_orthonormal n a.

Definition upper_triangular (n : nat) (r : matrix) : Prop :=
  forall i j, (j < i)%nat -> (i < n)%nat -> entry r i j = 0.

(** [z = q @ r], entry by entry. *)
Definition is_product (n : nat) (z q r : matrix) : Prop :=
  forall i j, (i < n)%nat -> (j < n)%nat ->
    entry z i j = sum_n n (fun k => entry q i k * entry r k j).

(** What [torch.linalg.qr(z)] guarantees of its result [(q, r)]. *)
Definition qr_contract (n : nat) (z q r : matrix) : Prop :=
  orthogonal n q /\ upper_triangular n r /\ is_product n z q r.

(** An encoder with the ["ortho"] normalizer on 2 x 2 matrices whose QR
    step answers [q = [[0, -1], [-1, 0]]], [r = -I]: a factorisation of the
    orthogonal matrix [[0, 1], [1, 0]] with a negative diagonal of [r]. *)
Definition ortho_encoder : ConvnetMatrixEncoder.self :=
  {| ConvnetMatrixEncoder.num_matrix_heads := 1;
     ConvnetMatrixEncoder.matrix_dim := 2;
     ConvnetMatrixEncoder.matrix_encoder_two_layers := false;
     ConvnetMatrixEncoder.matrix_norm_alg := ConvnetMatrixEncoder.AlgStr "ortho";
     ConvnetMatrixEncoder.matrix_norm_eps := 1 / 1000000;
     ConvnetMatrixEncoder.fc1 := fun x => x;
     ConvnetMatrixEncoder.activation := fun x => x;
     ConvnetMatrixEncoder.layer_norm := None;
     ConvnetMatrixEncoder.fc_to_mat := fun x => x;
     ConvnetMatrixEncoder.linalg_qr :=
       fun _ => ([[0; -1]; [-1; 0]], [[-1; 0]; [0; -1]]) |}.

(** An encoder with the ["det"] normalizer on 2 x 2 matrices. *)
Definition det_encoder : ConvnetMatrixEncoder.self :=
  {| ConvnetMatrixEncoder.num_matrix_heads := 1;
     ConvnetMatrixEncoder.matrix_dim := 2;
     ConvnetMatrixEncoder.matrix_encoder_two_layers := false;
     ConvnetMatrixEncoder.matrix_norm_alg := ConvnetMatrixEncoder.AlgStr "det";
     ConvnetMatrixEncoder.matrix_norm_eps := 1 / 1000000;
     ConvnetMatrixEncoder.fc1 := fun x => x;
     ConvnetMatrixEncoder.activation := fun x => x;
     ConvnetMatrixEncoder.layer_norm := None;
     ConvnetMatrixEncoder.fc_to_mat := fun x => x;
     ConvnetMatrixEncoder.linalg_qr := fun z => (eye 2, z) |}.

End LinAlg.

(* ================================================================== *)
(** * Position ids: [create_position_ids_from_input_ids] *)
(* ================================================================== *)

Module PositionIds.

(** The value a [bits]-wide signed integer tensor holds for [z]. *)
Definition wrap (bits z : Z) : Z :=
  ((z + 2 ^ (bits - 1)) mod 2 ^ bits - 2 ^ (bits - 1))%Z.

(** [input_ids.ne(padding_idx).int()] on one row. *)
Definition ne_mask (padding_idx : Z) (row : list Z) : list Z :=
  map (fun x => if (x =? padding_idx)%Z then 0%Z else 1%Z) row.

(** [torch.cumsum(mask, dim=1)] on one row (an int64 tensor), from the
    running sum [acc]. *)
Fixpoint cumsum (acc : Z) (l : list Z) : list Z :=
  match l with
  | [] => []
  | x :: rest => wrap 64 (acc + x) :: cumsum (wrap 64 (acc + x)) rest
  end.

(** One row of [create_position_ids_from_input_ids]: the mask and the
    incremental indices are int32 tensors, the result is int64. *)
Definition position_row (padding_idx past_vectors_length : Z) (row : list Z) : list Z :=
  let mask := ne_mask padding_idx row in
  let incremental_indices :=
    map (fun p => wrap 32 (wrap 32 (wrap 32 (fst p) + past_vectors_length) * snd p))
        (combine (cumsum 0 mask) mask) in
  map (fun x => wrap 64 (x + padding_idx)) incremental_indices.

Definition create_position_ids_from_input_ids (input_ids : list (list Z))
    (padding_idx past_vectors_length : Z) : list (list Z) :=
  map (position_row padding_idx past_vectors_length) input_ids.

(** [create_position_ids_from_inputs_embeds] for embeddings of shape
    [B, T, hidden]: [arange(padding_idx + 1, T + padding_idx + 1)] in every row. *)
Definition create_position_ids_from_inputs_embeds (B T : nat) (padding_idx : Z)
    : list (list Z) :=
  repeat (map (fun i => wrap 64 (padding_idx + 1 + Z.of_nat i)) (seq 0 T)) B.

(** The number of non-padding tokens of a row. *)
Definition count_tokens (padding_idx : Z) (row : list Z) : nat :=
  length (filter (fun x => negb (x =? padding_idx)%Z) row).

(** The position ids stay inside the integer ranges of the tensors. *)
Definition in_range (padding_idx past_vectors_length : Z) (T : nat) : Prop :=
  (0 <= past_vectors_length /\ past_vectors_length + Z.of_nat T < 2 ^ 31 /\
   - 2 ^ 63 <= padding_idx /\ padding_idx + past_vectors_length + Z.of_nat T < 2 ^ 63)%Z.

End PositionIds.

(* ================================================================== *)
(** * Masks of zeros and ones, and a few more configurations *)
(* ================================================================== *)

Module Configs.

Import ConvnetMatrixLayer.

(** Every entry of the attention mask is 0 or 1. *)
Definition mask_binary (am : option mask) : Prop :=
  match am with
  | Some rows => Forall (Forall (fun x => x = 0 \/ x = 1)) rows
  | None => True
  end.

(** What an iteration reads is a mask column of zeros and ones (or none). *)
Definition step_binary (f : bmatrix * option (list R)) : Prop :=
  match snd f with
  | Some mask_i => Forall (fun x => x = 0 \/ x = 1) mask_i
  | None => True
  end.

(** Every item of a batched state has an L2 norm of at most 1. *)
Definition bounded_state (v : bvector) : Prop :=
  Forall (fun item => norm2 item <= 1) v.

(** An encoder on [n] x [n] matrices with the given normalizer,
    [matrix_norm_eps = 1e-6] and identity layers. *)
Definition encoder_with (alg : ConvnetMatrixEncoder.norm_alg) (n : nat)
    : ConvnetMatrixEncoder.self :=
  {| ConvnetMatrixEncoder.num_matrix_heads := 1;
     ConvnetMatrixEncoder.matrix_dim := n;
     ConvnetMatrixEncoder.matrix_encoder_two_layers := false;
     ConvnetMatrixEncoder.matrix_norm_alg := alg;
     ConvnetMatrixEncoder.matrix_norm_eps := 1 / 1000000;
     ConvnetMatrixEncoder.fc1 := fun x => x;
     ConvnetMatrixEncoder.activation := fun x => x;
     ConvnetMatrixEncoder.layer_norm := None;
     ConvnetMatrixEncoder.fc_to_mat := fun x => x;
     ConvnetMatrixEncoder.linalg_qr := fun z => (eye n, z) |}.

(** The small layer with the given views, [norm_vectors], and the decoder
    flag. *)
Definition layer_with (views : list string) (norm decoder : bool) : self :=
  {| num_matrix_heads := 1;
     matrix_dim := 1;
     use_for_context := views;
     networks_for_heads := HeadsNone;
     norm_vectors := norm;
     vector_norm_eps := 1 / 1000000;
     rl_lr_matrix_different := false;
     is_decoder := decoder;
     vector_init_direction := "one";
     matrix_encoder_lr := EncoderV1 Scan.tiny_encoder;
     matrix_encoder_rl := EncoderV1 Scan.tiny_encoder;
     v_to_hidden := fun _ x => x;
     v_to_hidden_common := fun x => x;
     act_fn := fun x => x |}.

End Configs.

(* ================================================================== *)
(** * The context views as tensors *)
(* ================================================================== *)

Module Views.

Import ConvnetMatrixLayer.

(** What [prepare_history_tensor] returns when it returns: entry [b][t][h]
    is item [b*heads + h] of [history[t]]. *)
Definition stacked (H T B : nat) (history : list bvector) : tensor4 :=
  map (fun b =>
         map (fun t => map (fun h => nth (b * H + h) (nth t history []) []) (seq 0 H))
             (seq 0 T))
      (seq 0 B).

(** [v.view(B, 1, heads, dim).repeat(1, T, 1, 1)] *)
Definition repeated (H T B : nat) (v : bvector) : tensor4 :=
  map (fun b => map (fun _ => map (fun h => nth (b * H + h) v []) (seq 0 H)) (seq 0 T))
      (seq 0 B).

(** One iteration of [calculate_vectors] without a mask, on one item of the
    [B*heads] axis: [M @ v], divided by (its L2 norm + [vector_norm_eps])
    when [norm_vectors] is set. *)
Definition step_item (s : self) (M : matrix) (v : vector) : vector :=
  let p := matvec M v in
  if norm_vectors s then map (fun x => x / (norm2 p + vector_norm_eps s)) p else p.


End Views.

(* ================================================================== *)
(** * The context views [forward] can assemble *)
(* ================================================================== *)

Module Supported.

Import ConvnetMatrixLayer.

(** The values of [use_for_context] whose dict entry is a tensor. *)
Definition supported_views : list string :=
  ["global"; "lr"; "lr_excl"; "rl"; "rl_excl"; "local_l"; "local_r"]%string.

(** The values of [use_for_context] the configuration documents. *)
Definition documented_views : list string :=
  ["global"; "lr"; "lr_excl"; "rl"; "rl_excl"; "local"; "local_l"; "local_r"]%string.

(** The tuple [forward] builds once the context is mixed. *)
Definition outputs_of (s : self) (y : tensor3) (m : tensor5) (v_global : option tensor4)
    (output_matrices : bool) : result (list output) :=
  let outputs := [OutHidden y] in
  let outputs := if output_matrices then outputs ++ [OutMatrices m] else outputs in
  if is_decoder s then
    match v_global with
    | Some v => Ok (outputs ++ [OutGlobal v])
    | None => Raise UnboundLocalError
    end
  else Ok outputs.

(** A layer output [x] has the shape [B, T, .]. *)
Definition hidden_shape (hs : hidden_states) (x : tensor3) : Prop :=
  length x = batch_sz hs /\ Forall (fun row => length row = context_sz hs) x.

End Supported.

(* ================================================================== *)
(** * A stack of layers *)
(* ================================================================== *)

Module Stack.

Import ConvnetMatrixLayer.

(** The hidden states the first layer receives. *)
Definition stack_input (s : ConvnetEncoder.self) (hs : hidden_states) : hidden_states :=
  match ConvnetEncoder.input_convnet s with
  | Some conv => conv hs
  | None => hs
  end.

(** The outputs of a matrix layer after the first. *)
Definition tail_outputs (s : self) (m : tensor5) (v_global : tensor4)
    (output_matrices : bool) : list output :=
  (if output_matrices then [OutMatrices m] else [])
  ++ (if is_decoder s then [OutGlobal v_global] else []).

(** A decoder layer with the views "lr" and "rl". *)
Definition decoder_layer : ConvnetLayer.self :=
  {| ConvnetLayer.mm := Configs.layer_with ["lr"; "rl"]%string false true;
     ConvnetLayer.matrix_output := fun x _ => x;
     ConvnetLayer.feed_forward_chunk := fun x => x |}.

(** A stack in training with gradient checkpointing. *)
Definition checkpointed_stack (layers : list ConvnetLayer.self) : ConvnetEncoder.self :=
  {| ConvnetEncoder.layer := layers;
     ConvnetEncoder.gradient_checkpointing := true;
     ConvnetEncoder.training := true;
     ConvnetEncoder.add_cross_attention := false;
     ConvnetEncoder.input_convnet := None |}.

End Stack.

(* ================================================================== *)
(** * Layers whose encoders share the layer's sizes *)
(* ================================================================== *)

Module Sizes.

Import ConvnetMatrixLayer.



End Sizes.

(* ================================================================== *)
(** * [ConvnetForMaskedLM.mask_matrix] *)
(* ================================================================== *)

Module MaskMatrix.

Import ConvnetMatrixLayer.

(** [mask_matrix(m, attention_mask)] for [m] of shape
    [context_sz, batch_size, heads, n, n] and a mask of shape [B, T].

    [attention_mask.transpose(0, 1)] has shape [T, B] and is not contiguous
    when both sizes exceed 1; [.view(context_sz, batch_size, 1, 1, 1)] raises
    [RuntimeError] when the numbers of elements differ, and also when they
    agree but the sizes do not while the transposed mask is not contiguous.
    Otherwise element [t][b] of the view is element [t * batch_size + b] of
    the transposed mask in row-major order, that is
    [attention_mask[k mod B][k / B]] for that index [k], and [m * mask]
    scales the matrices at [t][b] by it. *)
Definition mask_matrix (m : tensor5) (attention_mask : option mask) : result tensor5 :=
  match attention_mask with
  | None => Ok m
  | Some am =>
      let context_sz := length m in
      let batch_size := length (hd [] m) in
      let B := length am in
      let T := length (hd [] am) in
      if negb (Nat.eqb (context_sz * batch_size) (B * T)) then Raise RuntimeError
      else if Nat.eqb (B * T) 0 || Nat.eqb T 1 || Nat.eqb B 1
              || (Nat.eqb context_sz T && Nat.eqb batch_size B) then
        Ok (map (fun t =>
              map (fun b =>
                let k := (t * batch_size + b)%nat in
                let x := nth (k / B) (nth (k mod B) am []) 0 in
                map (map_matrix (fun y => y * x)) (nth b (nth t m []) []))
                (seq 0 batch_size))
              (seq 0 context_sz))
      else Raise RuntimeError
  end.

(** [m] has the shape [T, B, ., ., .]. *)
Definition position_major (T B : nat) (m : tensor5) : Prop :=
  length m = T /\ Forall (fun mt => length mt = B) m.

(** The mask has the shape [B, T]. *)
Definition mask_shape (B T : nat) (am : mask) : Prop :=
  length am = B /\ Forall (fun row => length row = T) am.

End MaskMatrix.

(* ================================================================== *)
(** * Two QR conventions for one matrix *)
(* ================================================================== *)

Module Canonical.

(** The encoder [LinAlg.ortho_encoder] with the other sign convention of the
    QR step: on [[0, 1], [1, 0]] it answers [q = [[0, 1], [1, 0]]],
    [r = I]. *)
Definition ortho_encoder_positive : ConvnetMatrixEncoder.self :=
  {| ConvnetMatrixEncoder.num_matrix_heads := 1;
     ConvnetMatrixEncoder.matrix_dim := 2;
     ConvnetMatrixEncoder.matrix_encoder_two_layers := false;
     ConvnetMatrixEncoder.matrix_norm_alg := ConvnetMatrixEncoder.AlgStr "ortho";
     ConvnetMatrixEncoder.matrix_norm_eps := 1 / 1000000;
     ConvnetMatrixEncoder.fc1 := fun x => x;
     ConvnetMatrixEncoder.activation := fun x => x;
     ConvnetMatrixEncoder.layer_norm := None;
     ConvnetMatrixEncoder.fc_to_mat := fun x => x;
     ConvnetMatrixEncoder.linalg_qr :=
       fun _ => ([[0; 1]; [1; 0]], [[1; 0]; [0; 1]]) |}.

(** Two factorisations that differ by the signs [sigma] of the columns of
    [q] (and of the rows of [r]), as far as [make_orthogonal] reads them. *)
Definition same_up_to_signs (n : nat) (sigma : nat -> R) (q r q' r' : matrix) : Prop :=
  forall j, (j < n)%nat ->
    (sigma j = 1 \/ sigma j = -1) /\
    entry r' j j = sigma j * entry r j j /\
    forall i, (i < n)%nat -> entry q' i j = entry q i j * sigma j.

End Canonical.

(* ================================================================== *)
(** * The unitary loss term of [ConvnetForMaskedLM.forward] *)
(* ================================================================== *)

Module UnitaryLoss.

Import ConvnetMatrixLayer.

(** [torch.nn.MSELoss()(x, y)] for two tensors of shape [N, n, n]: the mean
    of the squared differences over all [N * n * n] entries. *)
Definition mse_loss (n : nat) (x y : list matrix) : R :=
  sum_list
    (map (fun p =>
            sum_n n (fun i =>
              sum_n n (fun j =>
                (entry (fst p) i j - entry (snd p) i j)
                * (entry (fst p) i j - entry (snd p) i j))))
         (combine x y))
  / INR (length x * n * n).

(** The body of [for m in all_matrices] with
    [matrix_unitary_loss_type == "MSE"]: the value added to
    [matrix_unitary_loss] for one tensor [m] of shape [T, B, heads, n, n].
    [torch.stack] of the empty list of targets raises [RuntimeError]. *)
Definition unitary_mse_term (m : tensor5) (attention_mask : option mask) : result R :=
  m <- MaskMatrix.mask_matrix m attention_mask ;;
  (* m.reshape(context_sz * batch_size * n_heads, n, n) *)
  let m := concat (concat m) in
  match m with
  | [] => Raise RuntimeError
  | m_0 :: _ =>
      let n := length m_0 in
      (* torch.bmm(m, m.transpose(-1, -2)) *)
      let product := map (fun a => matmul n a (transpose n a)) m in
      let unitary_target := map (fun _ => eye n) m in
      Ok (mse_loss n product unitary_target)
  end.

(** A tensor of shape [T, B, H, n, n]. *)
Definition tensor5_shape (T B H n : nat) (m : tensor5) : Prop :=
  MaskMatrix.position_major T B m /\
  Forall (Forall (fun mh => length mh = H /\ Forall (is_matrix n) mh)) m.

End UnitaryLoss.

(* ================================================================== *)
(** * [ConvnetForMaskedLM] (and [BergmanForMaskedLM]): the loss *)
(* ================================================================== *)

Module ConvnetForMaskedLM.

Import ConvnetMatrixLayer.

(** The attributes the loss block reads.  [matrix_norm_loss_axis] holds
    matrix axes (-1 or -2, the default is [(-1,)]).  [cross_entropy_loss] is
    [torch.nn.CrossEntropyLoss()] on logits of shape [N, C] and a target of
    shape [N]: its value, or the exception it raises. *)
Record self : Type := {
  matrix_norm_loss_type : option string;
  matrix_norm_loss_k : R;
  matrix_norm_loss_axis : list ConvnetMatrixEncoder.matrix_axis;
  matrix_unitary_loss_type : option string;
  matrix_unitary_loss_k : R;
  preheat_counter : Z;
  cross_entropy_loss : list (list R) -> list nat -> result R
}.

(** What one call of [forward] hands to the loss block, once
    [self.convnet(...)] and [self.lm_head(...)] have returned:
    [labels is not None], [all_matrices = outputs[-1]] (one tensor of shape
    [T, B, heads, n, n] per layer), the [attention_mask] of shape [B, T], and
    the outcome of
    [CrossEntropyLoss()(prediction_scores.view(-1, vocab_size), labels.view(-1))]. *)
Record call : Type := {
  labels_present : bool;
  all_matrices : list tensor5;
  attention_mask : option mask;
  masked_lm : result R
}.

(** The scalars of the returned output: [loss] and the [metrics] dict. *)
Record report : Type := {
  loss : R;
  masked_lm_loss : R;
  matrix_norm_loss : R;
  matrix_unitary_loss : R
}.

Definition with_preheat_counter (s : self) (c : Z) : self :=
  {| matrix_norm_loss_type := matrix_norm_loss_type s;
     matrix_norm_loss_k := matrix_norm_loss_k s;
     matrix_norm_loss_axis := matrix_norm_loss_axis s;
     matrix_unitary_loss_type := matrix_unitary_loss_type s;
     matrix_unitary_loss_k := matrix_unitary_loss_k s;
     preheat_counter := c;
     cross_entropy_loss := cross_entropy_loss s |}.

(** [torch.norm(a, dim=dim)] on one matrix: the L2 norms of its rows
    ([dim = -1]) or of its columns ([dim = -2]). *)
Definition norm_along (dim : ConvnetMatrixEncoder.matrix_axis) (a : matrix) : list R :=
  match dim with
  | ConvnetMatrixEncoder.AxisLast => map norm2 a
  | ConvnetMatrixEncoder.AxisSecondLast =>
      map (fun j => norm2 (column a j)) (seq 0 (length (hd [] a)))
  end.

(** The body of [for m in all_matrices] of the norm loss: the tensors
    appended to [norms], each of shape [T, B, heads, n]. *)
Definition norms_of (s : self) (attention_mask : option mask) (m : tensor5)
    : result (list tensor4) :=
  m <- MaskMatrix.mask_matrix m attention_mask ;;
  Ok (map (fun dim => map (map (map (norm_along dim))) m) (matrix_norm_loss_axis s)).

(** The sizes of the three leading axes, read off the first elements (a
    nested list does not record the inner sizes of an empty tensor). *)
Definition leading_sizes (x : tensor4) : nat * nat * nat :=
  (length x, length (hd [] x), length (hd [] (hd [] x))).

Definition same_sizes (a b : nat * nat * nat) : bool :=
  let '(a1, a2, a3) := a in
  let '(b1, b2, b3) := b in
  Nat.eqb a1 b1 && Nat.eqb a2 b2 && Nat.eqb a3 b3.

(** [torch.concatenate(norms, axis=-1)]: [ValueError] on an empty list,
    [RuntimeError] when the leading sizes differ. *)
Definition concatenate_norms (norms : list tensor4) : result tensor4 :=
  match norms with
  | [] => Raise ValueError
  | x0 :: rest =>
      if forallb (fun x => same_sizes (leading_sizes x) (leading_sizes x0)) rest then
        let '(T, B, H) := leading_sizes x0 in
        Ok (map (fun t =>
              map (fun b =>
                map (fun h => concat (map (fun x => nth h (nth b (nth t x []) []) []) norms))
                    (seq 0 H))
                (seq 0 B))
              (seq 0 T))
      else Raise RuntimeError
  end.

(** [torch.nn.MSELoss()(norms, torch.ones(norms.size()))]: the mean of
    [(x - 1)^2] over all entries (torch gives [nan] for a tensor without
    entries, the division here 0). *)
Definition mse_to_ones (norms : tensor4) : R :=
  let xs := concat (concat (concat norms)) in
  sum_list (map (fun x => (x - 1) * (x - 1)) xs) / INR (length xs).

(** The block [if self.matrix_norm_loss_type is not None]: the value of
    [matrix_norm_loss] (0.0 without the block). *)
Definition matrix_norm_loss_of (s : self) (c : call) : result R :=
  match matrix_norm_loss_type s with
  | None => Ok 0
  | Some t =>
      norms <- map_result (norms_of s (attention_mask c)) (all_matrices c) ;;
      norms <- concatenate_norms (concat norms) ;;
      if String.eqb t "MSE" then Ok (mse_to_ones norms) else Raise KeyError
  end.

(** The body of [for m in all_matrices] of the unitary loss: the new value
    of [matrix_unitary_loss].  In the "CrossEntropy" branch the target
    [list(range(n))] per matrix is flattened; for a tensor without matrices
    [torch.tensor([]).flatten(-2)] raises [IndexError]. *)
Definition unitary_step (s : self) (t : string) (attention_mask : option mask)
    (matrix_unitary_loss : R) (m : tensor5) : result R :=
  if String.eqb t "CrossEntropy" then
    m <- MaskMatrix.mask_matrix m attention_mask ;;
    (* m.reshape(context_sz * batch_size * n_heads, n, n) *)
    let m := concat (concat m) in
    match m with
    | [] => Raise IndexError
    | m_0 :: _ =>
        let n := length m_0 in
        (* torch.bmm(m, m.transpose(-1, -2)) *)
        let product := map (fun a => matmul n a (transpose n a)) m in
        let target := concat (map (fun _ => seq 0 n) m) in
        let logits1 := concat product in
        let logits2 := concat (map (transpose n) product) in
        l1 <- cross_entropy_loss s logits1 target ;;
        l2 <- cross_entropy_loss s logits2 target ;;
        Ok (matrix_unitary_loss + l1 + l2)
    end
  else if String.eqb t "MSE" then
    v <- UnitaryLoss.unitary_mse_term m attention_mask ;;
    Ok (matrix_unitary_loss + v)
  else
    _ <- MaskMatrix.mask_matrix m attention_mask ;;
    Raise KeyError.

(** The block [if self.matrix_unitary_loss_type is not None]. *)
Definition matrix_unitary_loss_of (s : self) (c : call) : result R :=
  match matrix_unitary_loss_type s with
  | None => Ok 0
  | Some t =>
      fold_left
        (fun acc m => a <- acc ;; unitary_step s t (attention_mask c) a m)
        (all_matrices c) (Ok 0)
  end.

(** The loss block of [forward]: the module after the call, and the report
    ([None] when no labels are given). *)
Definition forward (s : self) (c : call) : result (self * option report) :=
  if labels_present c then
    matrix_norm_loss <- matrix_norm_loss_of s c ;;
    matrix_unitary_loss <- matrix_unitary_loss_of s c ;;
    masked_lm_loss <- masked_lm c ;;
    let (counter, masked_lm_loss) :=
      if (preheat_counter s >? 0)%Z then ((preheat_counter s - 1)%Z, 0)
      else (preheat_counter s, masked_lm_loss) in
    let loss :=
      masked_lm_loss
      + matrix_norm_loss * matrix_norm_loss_k s
      + matrix_unitary_loss * matrix_unitary_loss_k s in
    Ok (with_preheat_counter s counter,
        Some {| loss := loss;
                masked_lm_loss := masked_lm_loss;
                matrix_norm_loss := matrix_norm_loss;
                matrix_unitary_loss := matrix_unitary_loss |})
  else Ok (s, None).


End ConvnetForMaskedLM.

(* ================================================================== *)
(** * The preheat schedule, call by call *)
(* ================================================================== *)

Module Preheat.

Import ConvnetMatrixLayer ConvnetForMaskedLM.
















End Preheat.

(* ================================================================== *)
(** * The range of [torch.float32] *)
(* ================================================================== *)

Module Float32.

(** The largest finite value of [torch.float32], the dtype of the tensors
    the [nn.Linear] layers return: [(2 - 2^-23) * 2^127].  A result whose
    exact value lies beyond it in magnitude has no finite float32 value
    (torch returns [inf]). *)
Definition float32_max : R := 340282346638528859811704183484516925440.

(** The exact value lies within the finite range of float32. *)
Definition finite32 (x : R) : Prop := Rabs x <= float32_max.

(** Every entry of the matrices of all positions is at most [b] in
    magnitude. *)
Definition entries_within (b : R) (m : list bmatrix) : Prop :=
  Forall (Forall (Forall (Forall (fun x => Rabs x <= b)))) m.

(** [2^116] (about 8.3e34), a float32 value. *)
Definition two_pow_116 : R := 83076749736557242056487941267521536.

(** Hidden states of one batch row and one position whose token makes
    [fc_to_mat] of [LinAlg.det_encoder] (the identity) return the singular
    matrix [[2^116, 0], [0, 0]]. *)
Definition large_singular_hidden : hidden_states :=
  {| batch_sz := 1; context_sz := 1; token := fun _ _ => [two_pow_116; 0; 0; 0] |}.

End Float32.

(* ================================================================== *)
(** * Facts: results, loops and lists *)
(* ================================================================== *)

Module PyFacts.

Lemma bind_ok {A B : Type} (r : result A) (k : A -> result B) (b : B) :
  Py.bind r k = Ok b -> exists a, r = Ok a /\ k a = Ok b.
Proof.
  destruct r as [a|e]; simpl; intros H; [eauto | discriminate].
Qed.

Lemma for_loop_app {S : Type} (l1 l2 : list nat) (body : S -> nat -> result S) (s : S) :
  for_loop (l1 ++ l2) body s = Py.bind (for_loop l1 body s) (for_loop l2 body).
Proof.
  revert s; induction l1 as [|i l1 IH]; intros s; simpl; [reflexivity|].
  destruct (body s i) as [s'|e]; simpl; [apply IH | reflexivity].
Qed.

Lemma map_result_length {A B : Type} (f : A -> result B) (l : list A) (r : list B) :
  map_result f l = Ok r -> length r = length l.
Proof.
  revert r; induction l as [|a l IH]; simpl; intros r H.
  - injection H as <-; reflexivity.
  - destruct (f a) as [b|e]; simpl in H; [|discriminate].
    destruct (map_result f l) as [bs|e]; simpl in H; [|discriminate].
    injection H as <-; simpl; f_equal; apply IH; reflexivity.
Qed.

Lemma map_result_nth_error {A B : Type} (f : A -> result B) (l : list A) (r : list B) :
  map_result f l = Ok r ->
  forall i a, nth_error l i = Some a -> exists b, nth_error r i = Some b /\ f a = Ok b.
Proof.
  revert r; induction l as [|x l IH]; simpl; intros r H i a Hi.
  - destruct i; discriminate.
  - destruct (f x) as [b|e] eqn:Hx; simpl in H; [|discriminate].
    destruct (map_result f l) as [bs|e]; simpl in H; [|discriminate].
    injection H as <-. destruct i as [|i]; simpl in *.
    + injection Hi as <-; eauto.
    + eapply IH; eauto.
Qed.

Lemma map_result_total {A B : Type} (f : A -> result B) (l : list A) :
  (forall a, In a l -> exists b, f a = Ok b) -> exists r, map_result f l = Ok r.
Proof.
  induction l as [|x l IH]; simpl; intros H; [eauto|].
  destruct (H x (or_introl eq_refl)) as [b ->]; simpl.
  destruct IH as [bs ->]; [intros a Ha; apply H; right; exact Ha|].
  simpl; eauto.
Qed.

Lemma map_result_ext_in {A B : Type} (f g : A -> result B) (l : list A) :
  (forall a, In a l -> f a = g a) -> map_result f l = map_result g l.
Proof.
  induction l as [|x l IH]; simpl; intros H; [reflexivity|].
  rewrite (H x (or_introl eq_refl)), IH; [reflexivity|].
  intros a Ha; apply H; right; exact Ha.
Qed.

Lemma map_result_map {A B C : Type} (f : B -> result C) (g : A -> B) (l : list A) :
  map_result f (map g l) = map_result (fun a => f (g a)) l.
Proof.
  induction l as [|x l IH]; simpl; [reflexivity|]. rewrite IH; reflexivity.
Qed.

Lemma rev_seq (n : nat) : rev (seq 0 n) = map (fun j => (n - 1 - j)%nat) (seq 0 n).
Proof.
  apply nth_error_ext; intros i. rewrite nth_error_rev, length_seq, nth_error_map.
  destruct (Nat.ltb_spec i n) as [Hi|Hi].
  - rewrite !nth_error_seq. destruct (Nat.ltb_spec (n - S i) n); [|lia].
    destruct (Nat.ltb_spec i n); [|lia]. simpl; f_equal; lia.
  - rewrite nth_error_seq. destruct (Nat.ltb_spec i n); [lia|reflexivity].
Qed.

(** [map] and [nth] inside the list. *)
Lemma nth_map_in {A B : Type} (g : A -> B) (l : list A) (i : nat) (da : A) (db : B) :
  (i < length l)%nat -> nth i (map g l) db = g (nth i l da).
Proof.
  intros Hi. rewrite (nth_indep _ db (g da)) by (rewrite length_map; exact Hi).
  apply map_nth.
Qed.

End PyFacts.

(* ================================================================== *)
(** * Facts: [calculate_vectors] *)
(* ================================================================== *)

Module ScanFacts.

Import ConvnetMatrixLayer Scan PyFacts.

Lemma step_fetch (s : self) (B : nat) (m : list bmatrix) (am : option mask)
    (acc : bool) (v : bvector) (h : list bvector) (i : nat) :
  calculate_vectors_step s B m am acc (v, h) i =
  (f <- fetch B m am i ;;
   Ok (if acc then produced s f v else v, h ++ [produced s f v])).
Proof.
  unfold calculate_vectors_step, fetch, produced, new_state.
  destruct (index m i) as [m_i|e]; simpl; [|reflexivity].
  destruct am as [am|]; simpl.
  - destruct (mask_at am i) as [mask_i|e]; simpl; [|reflexivity].
    destruct (Nat.eqb (length mask_i) B || Nat.eqb (length mask_i) 1); simpl;
      [|reflexivity].
    rewrite last_last; reflexivity.
  - rewrite last_last; reflexivity.
Qed.

Lemma loop_unroll (s : self) (B : nat) (m : list bmatrix) (am : option mask)
    (acc : bool) (order : list nat) :
  forall (v : bvector) (h : list bvector),
  for_loop order (calculate_vectors_step s B m am acc) (v, h) =
  (steps <- map_result (fetch B m am) order ;;
   Ok (final_state s acc v steps, h ++ unroll s acc v steps)).
Proof.
  induction order as [|i order IH]; intros v h; cbn [for_loop map_result].
  - simpl; rewrite app_nil_r; reflexivity.
  - rewrite step_fetch.
    destruct (fetch B m am i) as [f|e]; simpl; [|reflexivity].
    rewrite IH.
    destruct (map_result (fetch B m am) order) as [steps|e]; simpl; [|reflexivity].
    rewrite <- app_assoc; reflexivity.
Qed.

(** The loop of [calculate_vectors] is the unrolling of its iterations. *)
Lemma calculate_vectors_unroll (s : self) (hs : hidden_states) (m : list bmatrix)
    (am : option mask) (acc : bool) (init_type : string) (rev_dir : bool) :
  calculate_vectors s hs m am acc init_type rev_dir =
  (v <- initial_vector s (batch_sz hs) init_type ;;
   steps <- map_result (fetch (batch_sz hs) m am) (scan_order (context_sz hs) rev_dir) ;;
   Ok (v :: unroll s acc v steps)).
Proof.
  unfold calculate_vectors, scan_order.
  destruct (initial_vector s (batch_sz hs) init_type) as [v|e]; simpl; [|reflexivity].
  rewrite loop_unroll.
  destruct (map_result _ _) as [steps|e]; reflexivity.
Qed.

Lemma initial_vector_ok (s : self) (B : nat) (init_type : string) :
  init_ok s init_type -> exists v, initial_vector s B init_type = Ok v.
Proof.
  unfold init_ok, initial_vector; intros [[-> HD] | ->]; simpl.
  - destruct (Nat.eqb_spec (matrix_dim s) 0) as [E|_]; [contradiction|eauto].
  - eauto.
Qed.

Lemma mask_at_ok (T : nat) (am : mask) (i : nat) :
  Forall (fun row => (T <= length row)%nat) am -> (i < T)%nat ->
  mask_at am i = Ok (map (fun row => nth i row 0) am).
Proof.
  unfold mask_at; induction 1 as [|row am Hrow _ IH]; intros Hi; simpl; [reflexivity|].
  unfold index at 1. rewrite (nth_error_nth' row 0) by lia. simpl.
  rewrite IH by exact Hi. reflexivity.
Qed.

Lemma fetch_ok (B T : nat) (m : list bmatrix) (am : option mask) (i : nat) (m_i : bmatrix) :
  mask_ok B T am -> (i < T)%nat -> nth_error m i = Some m_i ->
  fetch B m am i = Ok (m_i, mask_column am i).
Proof.
  unfold fetch, index, mask_ok; intros Hm Hi ->; simpl.
  destruct am as [am|]; simpl; [|reflexivity].
  destruct Hm as [Hlen Hrows]. rewrite (mask_at_ok T) by assumption. simpl.
  rewrite length_map.
  destruct Hlen as [->| ->]; [rewrite Nat.eqb_refl | rewrite orb_true_r]; reflexivity.
Qed.

Lemma fetch_all_ok (B T : nat) (m : list bmatrix) (am : option mask) (order : list nat) :
  mask_ok B T am -> (T <= length m)%nat -> Forall (fun i => (i < T)%nat) order ->
  exists steps, map_result (fetch B m am) order = Ok steps.
Proof.
  intros Hm Hlen Hord. apply map_result_total. intros i Hi.
  rewrite Forall_forall in Hord. specialize (Hord i Hi).
  destruct (nth_error m i) as [m_i|] eqn:E.
  - exists (m_i, mask_column am i). eapply fetch_ok; eauto.
  - apply nth_error_None in E. lia.
Qed.

Lemma scan_order_bound (T : nat) (rev_dir : bool) :
  Forall (fun i => (i < T)%nat) (scan_order T rev_dir).
Proof.
  apply Forall_forall; intros i Hi. unfold scan_order, range, reversed in Hi.
  destruct rev_dir; simpl in Hi; [apply in_rev in Hi|]; apply in_seq in Hi; lia.
Qed.

Lemma scan_order_length (T : nat) (rev_dir : bool) : length (scan_order T rev_dir) = T.
Proof.
  unfold scan_order, range, reversed; destruct rev_dir; simpl;
    rewrite ?length_rev, length_seq; reflexivity.
Qed.

Lemma scan_order_nth (T : nat) (rev_dir : bool) (j : nat) :
  (j < T)%nat -> nth_error (scan_order T rev_dir) j = Some (position T rev_dir j).
Proof.
  intros Hj. unfold scan_order, range, reversed, position. destruct rev_dir; simpl.
  - rewrite rev_seq, nth_error_map, nth_error_seq.
    destruct (Nat.ltb_spec j T); [reflexivity|lia].
  - rewrite nth_error_seq. destruct (Nat.ltb_spec j T); [reflexivity|lia].
Qed.

Lemma unroll_length (s : self) (acc : bool) (steps : list (bmatrix * option (list R))) :
  forall v, length (unroll s acc v steps) = length steps.
Proof.
  induction steps as [|f steps IH]; intros v; simpl; [reflexivity|]. rewrite IH; reflexivity.
Qed.

(** Element [j+1] of the history is produced from element [j] when the scan
    accumulates. *)
Lemma unroll_accumulate_nth (s : self) (steps : list (bmatrix * option (list R))) :
  forall (v : bvector) (j : nat) (f : bmatrix * option (list R)),
  nth_error steps j = Some f ->
  exists h_j, nth_error (v :: unroll s true v steps) j = Some h_j /\
              nth_error (v :: unroll s true v steps) (S j) = Some (produced s f h_j).
Proof.
  induction steps as [|f0 steps IH]; intros v j f Hj.
  - destruct j; discriminate.
  - destruct j as [|j]; simpl in Hj.
    + injection Hj as <-. exists v; split; reflexivity.
    + destruct (IH (produced s f0 v) j f Hj) as [h_j [H1 H2]].
      exists h_j; split; [exact H1 | exact H2].
Qed.

(** Without accumulation every element is produced from the initial state. *)
Lemma unroll_local_nth (s : self) (steps : list (bmatrix * option (list R))) :
  forall (v : bvector) (j : nat) (f : bmatrix * option (list R)),
  nth_error steps j = Some f ->
  nth_error (unroll s false v steps) j = Some (produced s f v).
Proof.
  induction steps as [|f0 steps IH]; intros v j f Hj.
  - destruct j; discriminate.
  - destruct j as [|j]; simpl in Hj; simpl.
    + injection Hj as <-; reflexivity.
    + apply IH; exact Hj.
Qed.

(** ** Shapes along the scan *)

Lemma same_shape_of (K D : nat) (a b : bvector) :
  is_bvector K D a -> is_bvector K D b -> same_shape a b.
Proof.
  unfold is_bvector, is_vector, same_shape. intros [La Fa] [Lb Fb].
  revert K b La Lb Fb. induction Fa as [|x a Hx Fa IH]; intros K b La Lb Fb.
  - destruct b; [constructor | simpl in *; lia].
  - destruct b as [|y b]; [simpl in *; lia|].
    inversion Fb; subst. constructor; [congruence|].
    apply (IH (length a)); simpl in *; auto; lia.
Qed.

Lemma bmm_shape (K D : nat) (M : bmatrix) (v : bvector) :
  is_bmatrix K D M -> is_bvector K D v -> is_bvector K D (bmm M v).
Proof.
  unfold is_bmatrix, is_bvector, bmm. intros [LM FM] [Lv Fv]. split.
  - rewrite length_map, length_combine; lia.
  - apply Forall_forall. intros x Hx. apply in_map_iff in Hx.
    destruct Hx as [[M0 v0] [<- Hin]]. apply in_combine_l in Hin.
    rewrite Forall_forall in FM. destruct (FM M0 Hin) as [Hrows _].
    unfold is_vector, matvec; simpl. rewrite length_map; exact Hrows.
Qed.

Lemma renormalize_shape (s : self) (K D : nat) (v : bvector) :
  is_bvector K D v -> is_bvector K D (renormalize s v).
Proof.
  unfold is_bvector, renormalize. intros [Lv Fv]. split.
  - rewrite length_map; exact Lv.
  - apply Forall_map. revert Fv. apply Forall_impl. intros col Hc.
    unfold is_vector in *. rewrite length_map; exact Hc.
Qed.

Lemma new_state_shape (s : self) (K D : nat) (M : bmatrix) (v : bvector) :
  is_bmatrix K D M -> is_bvector K D v -> is_bvector K D (new_state s M v).
Proof.
  intros HM Hv. unfold new_state. destruct (norm_vectors s).
  - apply renormalize_shape, bmm_shape; assumption.
  - apply bmm_shape; assumption.
Qed.







Lemma blend_shape (s : self) (K D : nat) (mask_i : list R) (new_v v : bvector) :
  is_bvector K D new_v -> is_bvector K D v -> is_bvector K D (blend s mask_i new_v v).
Proof.
  intros Hn Hv. pose proof (same_shape_of K D new_v v Hn Hv) as Hshape.
  destruct Hn as [Ln Fn]. destruct Hv as [Lv Fv]. unfold blend.
  assert (Hgen : forall (g : nat -> R) start,
    is_bvector (length new_v) D
      (map (fun p => map (fun q => fst q * g (fst p) + snd q * (1 - g (fst p)))
                         (combine (fst (snd p)) (snd (snd p))))
           (combine (seq start (length new_v)) (combine new_v v)))).
  { intros g. clear Ln Lv. induction Hshape as [|x y new_v v Hxy _ IH]; intros start.
    - split; [reflexivity | constructor].
    - inversion Fn; subst. inversion Fv; subst.
      destruct (IH H2 H4 (S start)) as [L F]. split.
      + simpl. simpl in L. rewrite L. reflexivity.
      + simpl. constructor; [|exact F].
        unfold is_vector in *. rewrite length_map, length_combine. simpl. lia. }
  rewrite <- Ln.
  apply (Hgen (fun i => if Nat.eqb (length mask_i) 1 then nth 0 mask_i 0
                        else nth (i / num_matrix_heads s) mask_i 0)).
Qed.

Lemma produced_shape (s : self) (K D : nat) (f : bmatrix * option (list R)) (v : bvector) :
  is_bmatrix K D (fst f) -> is_bvector K D v -> is_bvector K D (produced s f v).
Proof.
  intros HM Hv. unfold produced. destruct (snd f).
  - apply blend_shape; [apply new_state_shape|]; assumption.
  - apply new_state_shape; assumption.
Qed.

Lemma unroll_shape (s : self) (K D : nat) (acc : bool)
    (steps : list (bmatrix * option (list R))) :
  Forall (fun f => is_bmatrix K D (fst f)) steps ->
  forall v, is_bvector K D v -> Forall (is_bvector K D) (unroll s acc v steps).
Proof.
  induction 1 as [|f steps Hf _ IH]; intros v Hv; simpl; constructor.
  - apply produced_shape; assumption.
  - apply IH. destruct acc; [apply produced_shape|]; assumption.
Qed.

Lemma initial_vector_shape (s : self) (B : nat) (init_type : string) (v : bvector) :
  initial_vector s B init_type = Ok v ->
  is_bvector (B * num_matrix_heads s) (matrix_dim s) v.
Proof.
  unfold initial_vector.
  destruct (String.eqb init_type "one").
  - destruct (Nat.eqb_spec (matrix_dim s) 0) as [E|E]; [discriminate|].
    intros H; injection H as <-. split; [apply repeat_length|].
    apply Forall_forall. intros x Hx. apply repeat_spec in Hx. subst x.
    unfold is_vector. simpl. rewrite repeat_length. lia.
  - destruct (String.eqb init_type "all"); [|discriminate].
    intros H; injection H as <-. split; [apply repeat_length|].
    apply Forall_forall. intros x Hx. apply repeat_spec in Hx. subst x.
    unfold is_vector. apply repeat_length.
Qed.

Lemma fetch_matrix_in (B : nat) (m : list bmatrix) (am : option mask) (order : list nat)
    (steps : list (bmatrix * option (list R))) (P : bmatrix -> Prop) :
  Forall P m -> map_result (fetch B m am) order = Ok steps ->
  Forall (fun f => P (fst f)) steps.
Proof.
  intros HP. revert steps. induction order as [|i order IH]; simpl; intros steps H.
  - injection H as <-; constructor.
  - destruct (fetch B m am i) as [f|e] eqn:Hf; simpl in H; [|discriminate].
    destruct (map_result (fetch B m am) order) as [fs|e]; simpl in H; [|discriminate].
    injection H as <-. constructor; [|apply IH; reflexivity].
    unfold fetch, index in Hf. destruct (nth_error m i) as [m_i|] eqn:E; simpl in Hf;
      [|discriminate].
    assert (HPm : P m_i) by (rewrite Forall_forall in HP; eapply HP, nth_error_In, E).
    destruct am as [am|]; simpl in Hf.
    + destruct (mask_at am i); simpl in Hf; [|discriminate].
      destruct (_ || _); [|discriminate]. injection Hf as <-; exact HPm.
    + injection Hf as <-; exact HPm.
Qed.

Lemma position_involutive (T : nat) (rev_dir : bool) (k : nat) :
  (k < T)%nat -> position T rev_dir (position T rev_dir k) = k /\
                 (position T rev_dir k < T)%nat.
Proof. unfold position; destruct rev_dir; lia. Qed.

(** ** The entries of one step *)

(** [i < n] from [i < k] and [n = k]. *)
Ltac within Hi L :=
  eapply Nat.lt_le_trans; [exact Hi | apply Nat.eq_le_incl; symmetry; exact L].

Lemma sum_list_nth (l : list R) :
  sum_list l = sum_n (length l) (fun i => nth i l 0).
Proof.
  unfold sum_n. induction l as [|x l IH]; [reflexivity|].
  cbn [length seq map]. rewrite <- seq_shift, map_map.
  unfold sum_list in *. cbn [fold_right nth]. f_equal. exact IH.
Qed.

(** [dot a b] is the sum of the products of the entries. *)
Lemma dot_entries (D : nat) (a b : vector) :
  length a = D -> length b = D ->
  dot a b = sum_n D (fun c => nth c a 0 * nth c b 0).
Proof.
  intros La Lb. unfold dot. rewrite sum_list_nth.
  assert (Lc : length (combine a b) = D)
    by (rewrite length_combine, La, Lb; apply Nat.min_id).
  rewrite length_map, Lc. unfold sum_n. f_equal.
  apply map_ext_in. intros c Hc. apply in_seq in Hc.
  rewrite (nth_map_in (fun p : R * R => fst p * snd p) (combine a b) c (0, 0) 0)
    by (rewrite Lc; lia).
  rewrite combine_nth by (transitivity D; [exact La | symmetry; exact Lb]).
  reflexivity.
Qed.

(** Item [k] of [bmm M v]. *)
Lemma bmm_item (K D : nat) (M : bmatrix) (v : bvector) (k : nat) :
  is_bmatrix K D M -> is_bvector K D v -> (k < K)%nat ->
  nth k (bmm M v) [] = matvec (nth k M []) (nth k v []).
Proof.
  intros [LM _] [Lv _] Hk.
  assert (Hc : (k < length (combine M v))%nat)
    by (rewrite length_combine, LM, Lv, Nat.min_id; exact Hk).
  unfold bmm.
  rewrite (nth_map_in (fun p : matrix * vector => matvec (fst p) (snd p))
             (combine M v) k ([], []) []) by exact Hc.
  rewrite combine_nth by (transitivity K; [exact LM | symmetry; exact Lv]).
  reflexivity.
Qed.

(** Entry [r] of item [k] of [bmm M v], for operands of matching sizes. *)
Lemma bmm_entries (K D : nat) (M : bmatrix) (v : bvector) (k r : nat) :
  is_bmatrix K D M -> is_bvector K D v -> (k < K)%nat -> (r < D)%nat ->
  nth r (nth k (bmm M v) []) 0
  = sum_n D (fun c => entry (nth k M []) r c * nth c (nth k v []) 0).
Proof.
  intros HM Hv Hk Hr.
  assert (E : nth k (bmm M v) [] = matvec (nth k M []) (nth k v []))
    by (apply (bmm_item K D); assumption).
  rewrite E. clear E.
  destruct HM as [LM FM]. destruct Hv as [Lv Fv].
  assert (HMk : is_matrix D (nth k M [])).
  { rewrite Forall_forall in FM. apply FM, nth_In. within Hk LM. }
  assert (Hvk : length (nth k v []) = D).
  { rewrite Forall_forall in Fv. apply Fv, nth_In. within Hk Lv. }
  destruct HMk as [Lrows Frows].
  assert (Hrow : length (nth r (nth k M []) []) = D).
  { rewrite Forall_forall in Frows. apply Frows, nth_In. within Hr Lrows. }
  unfold matvec.
  assert (E : nth r (map (fun row : vector => dot row (nth k v [])) (nth k M [])) 0
              = dot (nth r (nth k M []) []) (nth k v []))
    by (apply (nth_map_in (fun row : vector => dot row (nth k v [])) (nth k M []) r [] 0);
        within Hr Lrows).
  rewrite E. apply (dot_entries D); assumption.
Qed.

(** The sum of the squares of a column whose entries are known. *)
Lemma sum_squares_entries (D : nat) (col : list R) (g : nat -> R) :
  length col = D -> (forall r, (r < D)%nat -> nth r col 0 = g r) ->
  sum_list (map (fun x => x * x) col) = sum_n D (fun r => g r * g r).
Proof.
  intros <- Hg. rewrite sum_list_nth, length_map. unfold sum_n. f_equal.
  apply map_ext_in. intros r Hr. apply in_seq in Hr.
  rewrite (nth_map_in (fun x => x * x) col r 0 0) by lia.
  rewrite Hg by lia. reflexivity.
Qed.

(** Entry [r] of item [k] of a re-normalized state. *)
Lemma renormalize_entry (s : self) (w : bvector) (k r : nat) :
  (k < length w)%nat -> (r < length (nth k w []))%nat ->
  nth r (nth k (renormalize s w) []) 0
  = nth r (nth k w []) 0 / (norm2 (nth k w []) + vector_norm_eps s).
Proof.
  intros Hk Hr. unfold renormalize.
  assert (E : nth k (map (fun col : list R =>
                            map (fun x => x / (norm2 col + vector_norm_eps s)) col) w) []
              = map (fun x => x / (norm2 (nth k w []) + vector_norm_eps s)) (nth k w []))
    by (apply (nth_map_in (fun col : list R =>
                             map (fun x => x / (norm2 col + vector_norm_eps s)) col)
                 w k [] []); exact Hk).
  etransitivity; [apply (f_equal (fun l : list R => nth r l 0)); exact E|].
  apply (nth_map_in (fun x => x / (norm2 (nth k w []) + vector_norm_eps s))
           (nth k w []) r 0 0).
  exact Hr.
Qed.

(** The same entry after the re-normalization of the step. *)
Lemma new_state_entries (s : self) (K D : nat) (M : bmatrix) (v : bvector) (k r : nat) :
  is_bmatrix K D M -> is_bvector K D v -> (k < K)%nat -> (r < D)%nat ->
  nth r (nth k (new_state s M v) []) 0
  = let product := fun r' : nat =>
          sum_n D (fun c => entry (nth k M []) r' c * nth c (nth k v []) 0) in
    if norm_vectors s
    then product r / (sqrt (sum_n D (fun r' => product r' * product r'))
                      + vector_norm_eps s)
    else product r.
Proof.
  intros HM Hv Hk Hr. cbv zeta. unfold new_state.
  destruct (bmm_shape K D M v HM Hv) as [Lb Fb].
  destruct (norm_vectors s); [|apply (bmm_entries K D); assumption].
  assert (Lcol : length (nth k (bmm M v) []) = D).
  { rewrite Forall_forall in Fb. apply Fb, nth_In. within Hk Lb. }
  etransitivity.
  { apply renormalize_entry; [within Hk Lb | within Hr Lcol]. }
  unfold norm2. f_equal; [apply (bmm_entries K D); assumption|].
  f_equal. f_equal.
  apply (sum_squares_entries D); [exact Lcol|].
  intros r' Hr'. apply (bmm_entries K D); assumption.
Qed.

End ScanFacts.

(* ================================================================== *)
(** * The history of the vector propagation *)
(* ================================================================== *)

Module Propagation.

Import ConvnetMatrixLayer Scan PyFacts ScanFacts.

(** C1.  For hidden states of batch size [B] and sequence length [T], a
    supported [init_type], matrices of shape [B*heads, dim, dim] for the [T]
    positions (the sizes [torch.bmm] accepts for a state of shape
    [B*heads, dim, 1]) and a usable mask (or none), [calculate_vectors]
    returns a history of exactly [T + 1] states of shape [B*heads, dim],
    whose element 0 is the initial vector.  With accumulation, no mask and
    the forward order, element [i + 1] is [m[i] @ history[i]]: entry [r] of
    item [k] is [sum_c m[i][k][r][c] * history[i][k][c]], and when
    [norm_vectors] is set that entry is divided by (the L2 norm of the
    product along the state axis + [vector_norm_eps]). *)
Theorem calculate_vectors_history (s : self) (hs : hidden_states) (m : list bmatrix)
    (am : option mask) (acc : bool) (init_type : string) (rev_dir : bool) :
  init_ok s init_type ->
  (context_sz hs <= length m)%nat ->
  matrices_ok s (batch_sz hs) m ->
  mask_ok (batch_sz hs) (context_sz hs) am ->
  exists (v0 : bvector) (history : list bvector),
    initial_vector s (batch_sz hs) init_type = Ok v0 /\
    calculate_vectors s hs m am acc init_type rev_dir = Ok history /\
    length history = (context_sz hs + 1)%nat /\
    nth_error history 0 = Some v0 /\
    Forall (is_bvector (batch_sz hs * num_matrix_heads s) (matrix_dim s)) history /\
    (acc = true -> am = None -> rev_dir = false ->
     forall (i : nat) (m_i : bmatrix),
       (i < context_sz hs)%nat -> nth_error m i = Some m_i ->
       exists h_i h_next : bvector,
         nth_error history i = Some h_i /\
         nth_error history (i + 1) = Some h_next /\
         h_next = (if norm_vectors s
                   then map (fun col =>
                               map (fun x => x / (sqrt (sum_list (map (fun y => y * y) col))
                                                  + vector_norm_eps s)) col)
                            (bmm m_i h_i)
                   else bmm m_i h_i) /\
         forall k r : nat,
           (k < batch_sz hs * num_matrix_heads s)%nat -> (r < matrix_dim s)%nat ->
           nth r (nth k h_next []) 0
           = let product := fun r' : nat =>
                   sum_n (matrix_dim s)
                     (fun c => entry (nth k m_i []) r' c * nth c (nth k h_i []) 0) in
             if norm_vectors s
             then product r /
                  (sqrt (sum_n (matrix_dim s) (fun r' => product r' * product r'))
                   + vector_norm_eps s)
             else product r).
Proof.
  intros Hinit Hlen Hmat Hmask.
  destruct (initial_vector_ok s (batch_sz hs) init_type Hinit) as [v0 Hv0].
  destruct (fetch_all_ok (batch_sz hs) (context_sz hs) m am
              (scan_order (context_sz hs) rev_dir) Hmask Hlen
              (scan_order_bound _ _)) as [steps Hsteps].
  pose proof (initial_vector_shape s (batch_sz hs) init_type v0 Hv0) as Sv0.
  assert (Sall : Forall (is_bvector (batch_sz hs * num_matrix_heads s) (matrix_dim s))
                   (v0 :: unroll s acc v0 steps)).
  { constructor; [exact Sv0|]. apply unroll_shape; [|exact Sv0].
    eapply fetch_matrix_in; [exact Hmat | exact Hsteps]. }
  exists v0, (v0 :: unroll s acc v0 steps).
  split; [exact Hv0|]. split.
  { rewrite calculate_vectors_unroll, Hv0; simpl. rewrite Hsteps; reflexivity. }
  split.
  { simpl. rewrite unroll_length, (map_result_length _ _ _ Hsteps), scan_order_length.
    lia. }
  split; [reflexivity|].
  split; [exact Sall|].
  intros -> -> -> i m_i Hi Hm_i.
  destruct (map_result_nth_error _ _ _ Hsteps i i) as [f [Hf Hfetch]].
  { rewrite (scan_order_nth _ false i Hi); reflexivity. }
  rewrite (fetch_ok _ _ _ _ _ m_i Hmask Hi Hm_i) in Hfetch.
  injection Hfetch as <-.
  destruct (unroll_accumulate_nth s steps v0 i _ Hf) as [h_i [H1 H2]].
  exists h_i, (new_state s m_i h_i). split; [exact H1|].
  split; [replace (i + 1)%nat with (S i) by lia; exact H2|].
  split; [reflexivity|].
  intros k r Hk Hr.
  apply (new_state_entries s (batch_sz hs * num_matrix_heads s) (matrix_dim s));
    [ | | exact Hk | exact Hr].
  - unfold matrices_ok in Hmat. rewrite Forall_forall in Hmat.
    eapply Hmat, nth_error_In, Hm_i.
  - rewrite Forall_forall in Sall. eapply Sall, nth_error_In, H1.
Qed.

Lemma calculate_vectors_history_witness :
  exists (v0 : bvector) (history : list bvector),
    initial_vector (tiny_layer ["lr"%string]) 1 "one" = Ok v0 /\
    calculate_vectors (tiny_layer ["lr"%string]) (tiny_hidden 3) tiny_matrices None
      true "one" false = Ok history /\
    length history = 4%nat /\
    nth_error history 0 = Some v0.
Proof.
  destruct (calculate_vectors_history (tiny_layer ["lr"%string]) (tiny_hidden 3)
              tiny_matrices None true "one" false)
    as [v0 [history [H1 [H2 [H3 [H4 _]]]]]].
  - left; split; [reflexivity | simpl; discriminate].
  - simpl; lia.
  - repeat constructor.
  - exact I.
  - exists v0, history. repeat split; assumption.
Defined.

(** C3 as stated fails: on the matrices 2, 3 (size 1, [T = 2]) the forward
    history is 1, 2, 6; the backward scan over the reversed sequence 3, 2
    gives 1, 2, 6 as well, and its reversal 6, 2, 1 differs. *)
Lemma direction_symmetry_counterexample :
  exists hf hb : list bvector,
    calculate_vectors (tiny_layer ["lr"%string]) (tiny_hidden 2)
      [ [[[2]]]; [[[3]]] ] None true "one" false = Ok hf /\
    calculate_vectors (tiny_layer ["lr"%string]) (tiny_hidden 2)
      (rev [ [[[2]]]; [[[3]]] ]) None true "one" true = Ok hb /\
    rev hb <> hf.
Proof.
  eexists; eexists. split; [cbn; reflexivity|]. split; [cbn; reflexivity|].
  cbn. intros H. injection H as H _. lra.
Qed.

(** C3, amended.  Without a mask and for the same initial vector, the
    backward scan over the reversed matrix sequence returns the very history
    of the forward scan over the original sequence (no reversal of the
    result): the history is kept in the order of the iterations. *)
Theorem backward_on_reversed_is_forward (s : self) (hs : hidden_states)
    (m : list bmatrix) (acc : bool) (init_type : string) :
  length m = context_sz hs ->
  calculate_vectors s hs (rev m) None acc init_type true =
  calculate_vectors s hs m None acc init_type false.
Proof.
  intros Hlen. rewrite !calculate_vectors_unroll.
  destruct (initial_vector s (batch_sz hs) init_type) as [v|e]; simpl; [|reflexivity].
  unfold scan_order, range, reversed; simpl.
  rewrite rev_seq, map_result_map.
  rewrite (map_result_ext_in _ (fetch (batch_sz hs) m None)); [reflexivity|].
  intros j Hj. apply in_seq in Hj. unfold fetch, index.
  rewrite nth_error_rev, Hlen.
  destruct (Nat.ltb_spec (context_sz hs - 1 - j) (context_sz hs)) as [_|H]; [|lia].
  replace (context_sz hs - S (context_sz hs - 1 - j))%nat with j by lia.
  reflexivity.
Qed.

Lemma backward_on_reversed_is_forward_witness :
  calculate_vectors (tiny_layer ["lr"%string]) (tiny_hidden 3) (rev tiny_matrices)
    None true "one" true =
  calculate_vectors (tiny_layer ["lr"%string]) (tiny_hidden 3) tiny_matrices
    None true "one" false.
Proof.
  apply (backward_on_reversed_is_forward (tiny_layer ["lr"%string]) (tiny_hidden 3)
           tiny_matrices true "one").
  reflexivity.
Defined.




End Propagation.

(* ================================================================== *)
(** * The context views assembled by [forward] *)
(* ================================================================== *)

Module ContextViews.

Import ConvnetMatrixLayer Scan PyFacts ScanFacts.

Ltac bind_inv H :=
  let a := fresh "a" in
  let Ha := fresh "Ha" in
  apply bind_ok in H; destruct H as [a [Ha H]]; cbv beta in H.

Tactic Notation "bind_named" hyp(H) "as" ident(a) ident(Ha) :=
  apply bind_ok in H; destruct H as [a [Ha H]]; cbv beta in H.

Lemma nth_of_nth_error {A : Type} (l : list A) (i : nat) (d : A) :
  nth i l d = match nth_error l i with Some x => x | None => d end.
Proof.
  revert i; induction l as [|x l IH]; intros [|i]; simpl; auto.
Qed.

Lemma nth_map_seq {A : Type} (f : nat -> A) (n i : nat) (d : A) :
  (i < n)%nat -> nth i (map f (seq 0 n)) d = f i.
Proof.
  intros Hi. rewrite nth_of_nth_error, nth_error_map, nth_error_seq.
  destruct (Nat.ltb_spec i n); [reflexivity | lia].
Qed.

(** The three lists of the "local" block, from the unrolled scan. *)
Lemma local_lists_spec (s : self) (hs : hidden_states) (m : list bmatrix)
    (am : option mask) :
  init_ok s (vector_init_direction s) ->
  (context_sz hs <= length m)%nat ->
  mask_ok (batch_sz hs) (context_sz hs) am ->
  (1 <= context_sz hs)%nat ->
  exists (v0 : bvector) (loc l r : list bvector),
    initial_vector s (batch_sz hs) (vector_init_direction s) = Ok v0 /\
    local_lists s hs m am = Ok (loc, l, r) /\
    length loc = context_sz hs /\ length l = context_sz hs /\
    length r = context_sz hs /\
    (forall i, (i + 1 < context_sz hs)%nat -> nth_error l i = nth_error loc (i + 1)) /\
    (forall i, (i + 1 < context_sz hs)%nat -> nth_error r (i + 1) = nth_error loc i) /\
    nth_error r 0 = Some v0 /\
    nth_error l (context_sz hs - 1) = Some v0 /\
    (forall i m_i, (i < context_sz hs)%nat -> nth_error m i = Some m_i ->
       nth_error loc i = Some (produced s (m_i, mask_column am i) v0)).
Proof.
  intros Hinit Hlen Hmask HT.
  set (B := batch_sz hs) in *. set (T := context_sz hs) in *.
  destruct (initial_vector_ok s B _ Hinit) as [v0 Hv0].
  destruct (fetch_all_ok B T m am (scan_order T false) Hmask Hlen
              (scan_order_bound _ _)) as [steps Hsteps].
  set (u := unroll s false v0 steps).
  assert (Hu : length u = T).
  { unfold u. rewrite unroll_length, (map_result_length _ _ _ Hsteps).
    apply scan_order_length. }
  exists v0, u, (skipn 2 (v0 :: u) ++ [v0]), (removelast (v0 :: u)).
  split; [exact Hv0|]. split.
  { unfold local_lists. rewrite calculate_vectors_unroll. fold B T.
    rewrite Hv0; simpl. rewrite Hsteps; reflexivity. }
  split; [exact Hu|].
  assert (Hsk : length (skipn 1 u) = (T - 1)%nat) by (rewrite length_skipn; lia).
  assert (Hr : removelast (v0 :: u) = firstn T (v0 :: u)).
  { rewrite removelast_firstn_len. simpl length. rewrite Hu. reflexivity. }
  split; [change (skipn 2 (v0 :: u)) with (skipn 1 u); rewrite length_app, Hsk; simpl; lia|].
  split; [rewrite Hr, length_firstn; simpl length; lia|].
  split.
  { intros i Hi. change (skipn 2 (v0 :: u)) with (skipn 1 u).
    rewrite nth_error_app1 by lia. rewrite nth_error_skipn. f_equal; lia. }
  split.
  { intros i Hi. rewrite Hr, nth_error_firstn.
    destruct (Nat.ltb_spec (i + 1) T); [|lia].
    replace (i + 1)%nat with (S i) by lia. reflexivity. }
  split.
  { rewrite Hr, nth_error_firstn. destruct (Nat.ltb_spec 0 T); [reflexivity|lia]. }
  split.
  { change (skipn 2 (v0 :: u)) with (skipn 1 u).
    rewrite nth_error_app2 by lia. rewrite Hsk, Nat.sub_diag. reflexivity. }
  intros i m_i Hi Hm_i.
  destruct (map_result_nth_error _ _ _ Hsteps i i) as [f [Hf Hfetch]].
  { rewrite (scan_order_nth T false i Hi). reflexivity. }
  rewrite (fetch_ok B T m am i m_i Hmask Hi Hm_i) in Hfetch. injection Hfetch as <-.
  apply unroll_local_nth. exact Hf.
Qed.

Lemma prepare_history_tensor_ok (s : self) (history : list bvector) (T B : nat) :
  length history = T -> (1 <= T)%nat ->
  prepare_history_tensor s history T B =
  Ok (map (fun b =>
        map (fun t =>
          map (fun h => nth (b * num_matrix_heads s + h) (nth t history []) [])
              (seq 0 (num_matrix_heads s)))
          (seq 0 T))
        (seq 0 B)).
Proof.
  intros HL HT. unfold prepare_history_tensor.
  destruct history as [|x history]; [simpl in HL; lia|].
  rewrite HL, Nat.eqb_refl. reflexivity.
Qed.

Lemma view_at_prepared (H T B : nat) (history : list bvector) (b t h : nat) :
  (b < B)%nat -> (t < T)%nat -> (h < H)%nat ->
  view_at (map (fun b =>
             map (fun t => map (fun h => nth (b * H + h) (nth t history []) []) (seq 0 H))
                 (seq 0 T))
             (seq 0 B)) b t h =
  nth (b * H + h) (nth t history []) [].
Proof.
  intros Hb Ht Hh. unfold view_at.
  rewrite (nth_map_seq _ B b) by exact Hb.
  rewrite (nth_map_seq _ T t) by exact Ht.
  rewrite (nth_map_seq _ H h) by exact Hh. reflexivity.
Qed.

Lemma nth_error_eq_nth {A : Type} (l l' : list A) (i j : nat) (d : A) :
  nth_error l i = nth_error l' j -> nth i l d = nth j l' d.
Proof. intros E. rewrite !nth_of_nth_error, E. reflexivity. Qed.

(** C6 as stated fails: with the matrices 2, 3 (size 1, [T = 2]) the local
    view is 2, 3; [local_r] at the first position is the initial vector 1,
    not the local value 3 of the last position, and [local_l] at the last
    position is 1, not the local value 2 of the first position. *)
Lemma local_shift_wrap_counterexample :
  exists loc tl tr : tensor4,
    local_views (tiny_layer ["local_l"; "local_r"]%string) (tiny_hidden 2)
      [ [[[2]]]; [[[3]]] ] None =
    Ok [("local"%string, PTuple [loc]); ("local_r"%string, PTensor tr);
        ("local_l"%string, PTensor tl)] /\
    view_at tr 0 0 0 <> view_at loc 0 1 0 /\
    view_at tl 0 1 0 <> view_at loc 0 0 0.
Proof.
  eexists; eexists; eexists. split; [cbn; reflexivity|].
  split; cbn; intros H; injection H as H; lra.
Qed.

(** C6, amended.  For a sequence of at least one position, [local_l] and
    [local_r] are the local view shifted by one position to the left and to
    the right; at the boundary neither wraps around: [local_r] at the first
    position and [local_l] at the last position both hold the initial state
    vector.  The local view at position [t] is the state produced from the
    initial vector by the matrix of position [t] alone. *)
Theorem local_shift_views (s : self) (hs : hidden_states) (m : list bmatrix)
    (am : option mask) :
  init_ok s (vector_init_direction s) ->
  (context_sz hs <= length m)%nat ->
  mask_ok (batch_sz hs) (context_sz hs) am ->
  (1 <= context_sz hs)%nat ->
  exists (v0 : bvector) (loc tl tr : tensor4),
    initial_vector s (batch_sz hs) (vector_init_direction s) = Ok v0 /\
    local_views s hs m am =
      Ok [("local"%string, PTuple [loc]); ("local_r"%string, PTensor tr);
          ("local_l"%string, PTensor tl)] /\
    forall b h, (b < batch_sz hs)%nat -> (h < num_matrix_heads s)%nat ->
      (forall t, (t + 1 < context_sz hs)%nat ->
         view_at tl b t h = view_at loc b (t + 1) h) /\
      (forall t, (t + 1 < context_sz hs)%nat ->
         view_at tr b (t + 1) h = view_at loc b t h) /\
      view_at tr b 0 h = nth (b * num_matrix_heads s + h) v0 [] /\
      view_at tl b (context_sz hs - 1) h = nth (b * num_matrix_heads s + h) v0 [] /\
      (forall t m_t, (t < context_sz hs)%nat -> nth_error m t = Some m_t ->
         view_at loc b t h =
         nth (b * num_matrix_heads s + h) (produced s (m_t, mask_column am t) v0) []).
Proof.
  intros Hinit Hlen Hmask HT.
  destruct (local_lists_spec s hs m am Hinit Hlen Hmask HT)
    as [v0 [loc [l [r [Hv0 [Hll [Lloc [Ll [Lr [Hl [Hr [Hr0 [HlT Hloc]]]]]]]]]]]]].
  set (B := batch_sz hs) in *. set (T := context_sz hs) in *.
  eexists v0, _, _, _. split; [exact Hv0|]. split.
  { unfold local_views. rewrite Hll. cbn [Py.bind]. fold B T.
    rewrite !prepare_history_tensor_ok by assumption. reflexivity. }
  intros b h Hb Hh. repeat split.
  - intros t Ht. rewrite !view_at_prepared by (assumption || lia).
    f_equal. apply nth_error_eq_nth, Hl, Ht.
  - intros t Ht. rewrite !view_at_prepared by (assumption || lia).
    f_equal. apply nth_error_eq_nth, Hr, Ht.
  - rewrite view_at_prepared by (assumption || lia).
    f_equal. rewrite nth_of_nth_error, Hr0. reflexivity.
  - rewrite view_at_prepared by (assumption || lia).
    f_equal. rewrite nth_of_nth_error, HlT. reflexivity.
  - intros t m_t Ht Hm_t. rewrite view_at_prepared by (assumption || lia).
    f_equal. rewrite nth_of_nth_error, (Hloc t m_t Ht Hm_t). reflexivity.
Qed.

Lemma local_shift_views_witness :
  exists (v0 : bvector) (loc tl tr : tensor4),
    initial_vector (tiny_layer ["local_l"; "local_r"]%string) 1 "one" = Ok v0 /\
    local_views (tiny_layer ["local_l"; "local_r"]%string) (tiny_hidden 3)
      tiny_matrices None =
      Ok [("local"%string, PTuple [loc]); ("local_r"%string, PTensor tr);
          ("local_l"%string, PTensor tl)] /\
    view_at tr 0 0 0 = nth 0 v0 [] /\ view_at tl 0 2 0 = nth 0 v0 [].
Proof.
  destruct (local_shift_views (tiny_layer ["local_l"; "local_r"]%string) (tiny_hidden 3)
              tiny_matrices None) as [v0 [loc [tl [tr [H1 [H2 H3]]]]]].
  - left; split; [reflexivity | simpl; discriminate].
  - simpl; lia.
  - exact I.
  - simpl; lia.
  - exists v0, loc, tl, tr. split; [exact H1|]. split; [exact H2|].
    destruct (H3 0%nat 0%nat) as [_ [_ [H4 [H5 _]]]]; [simpl; lia | simpl; lia |].
    split; [exact H4 | exact H5].
Defined.

(** ** The tuple stored under "local" *)

Lemma lr_views_form (s : self) (hs : hidden_states) (m : list bmatrix)
    (am : option mask) (r : dict * tensor4) :
  lr_views s hs m am = Ok r ->
  exists a b c, fst r = [("lr_excl"%string, PTensor a); ("lr"%string, PTensor b);
                         ("global"%string, PTensor c)].
Proof.
  unfold lr_views. intros H. do 4 bind_inv H. injection H as <-. simpl. eauto.
Qed.

Lemma rl_views_form (s : self) (hs : hidden_states) (m : list bmatrix)
    (am : option mask) (r : dict) :
  rl_views s hs m am = Ok r ->
  exists a b, r = [("rl"%string, PTensor a); ("rl_excl"%string, PTensor b)].
Proof.
  unfold rl_views. intros H. do 3 bind_inv H. injection H as <-. eauto.
Qed.

Lemma local_views_form (s : self) (hs : hidden_states) (m : list bmatrix)
    (am : option mask) (r : dict) :
  local_views s hs m am = Ok r ->
  exists a b c, r = [("local"%string, PTuple [a]); ("local_r"%string, PTensor b);
                     ("local_l"%string, PTensor c)].
Proof.
  unfold local_views. intros H. bind_inv H. destruct a as [[loc l] r0].
  do 3 bind_inv H. injection H as <-. eauto.
Qed.

Lemma map_result_in {A B : Type} (f : A -> result B) (l : list A) (r : list B) (a : A) :
  map_result f l = Ok r -> In a l -> exists b, In b r /\ f a = Ok b.
Proof.
  intros H Hin. apply In_nth_error in Hin. destruct Hin as [i Hi].
  destruct (map_result_nth_error f l r H i a Hi) as [b [Hb Hf]].
  exists b. split; [eapply nth_error_In, Hb | exact Hf].
Qed.

Lemma concatenate_last_tuple (s : self) (hs : hidden_states) (context : list pyval)
    (items : list tensor4) :
  In (PTuple items) context -> concatenate_last s hs context = Raise TypeError.
Proof.
  unfold concatenate_last. intros Hin.
  assert (E : map_result (fun v => match v with
                                   | PTensor t => Ok t
                                   | PTuple _ => Raise TypeError
                                   end) context = Raise TypeError).
  { induction context as [|v context IH]; [destruct Hin|].
    destruct Hin as [->|Hin]; simpl; [reflexivity|].
    destruct v; simpl; [|reflexivity]. rewrite (IH Hin). reflexivity. }
  rewrite E. reflexivity.
Qed.

(** C7: the code does not do what the claim says.  Whenever "local" is
    among [use_for_context], [forward] returns nothing: the dict entry of
    "local" is the one-element tuple [(v_local,)], which
    [torch.concatenate] refuses with a [TypeError] (the entries of
    "local_r" and "local_l" are tensors). *)
Theorem forward_with_local_never_returns (s : self) (hs : hidden_states)
    (am : option mask) (head_mask ehs eam past_vector : unsupported) (om : bool) :
  In "local"%string (use_for_context s) ->
  ~ exists outputs, forward s hs am head_mask ehs eam past_vector om = Ok outputs.
Proof.
  intros Hin [outputs H]. unfold forward in H.
  do 4 bind_inv H.
  bind_named H as enc_lr Henc. bind_named H as rl Hrl.
  bind_named H as lr Hlr. bind_named H as av2 Hav2. bind_named H as av3 Hav3.
  bind_named H as context Hctx. bind_named H as x Hx.
  assert (Hi : intersects ["local"; "local_l"; "local_r"]%string (use_for_context s) = true).
  { unfold intersects. simpl. apply orb_true_iff. left.
    apply existsb_exists. exists "local"%string. split; [exact Hin | reflexivity]. }
  rewrite Hi in Hav3. bind_named Hav3 as r Hr. injection Hav3 as <-.
  apply local_views_form in Hr. destruct Hr as [loc [tr [tl ->]]].
  assert (Hget : dict_get (av2 ++ [("local"%string, PTuple [loc]);
                                   ("local_r"%string, PTensor tr);
                                   ("local_l"%string, PTensor tl)]) "local"
                 = Ok (PTuple [loc])).
  { clear - Hlr Hav2.
    destruct (intersects ["global"; "lr"; "lr_excl"]%string (use_for_context s)).
    - bind_named Hlr as r Hr. injection Hlr as <-.
      apply lr_views_form in Hr. destruct Hr as [x [y [z E]]].
      cbn [fst] in Hav2. rewrite E in Hav2.
      destruct (intersects ["rl"; "rl_excl"]%string (use_for_context s)).
      + bind_named Hav2 as r' Hr'. injection Hav2 as <-.
        apply rl_views_form in Hr'. destruct Hr' as [x' [y' ->]]. reflexivity.
      + injection Hav2 as <-. reflexivity.
    - injection Hlr as <-. cbn [fst] in Hav2.
      destruct (intersects ["rl"; "rl_excl"]%string (use_for_context s)).
      + bind_named Hav2 as r' Hr'. injection Hav2 as <-.
        apply rl_views_form in Hr'. destruct Hr' as [x' [y' ->]]. reflexivity.
      + injection Hav2 as <-. reflexivity. }
  destruct (map_result_in _ _ _ "local"%string Hctx Hin) as [v [Hv Hd]].
  rewrite Hget in Hd. injection Hd as <-.
  rewrite (concatenate_last_tuple s hs _ [loc] Hv) in Hx. discriminate.
Qed.

Lemma forward_with_local_never_returns_witness :
  ~ exists outputs,
      forward (tiny_layer ["local"%string]) (tiny_hidden 2) None None None None None
        false = Ok outputs.
Proof.
  apply (forward_with_local_never_returns (tiny_layer ["local"%string]) (tiny_hidden 2)
           None None None None None false).
  simpl. left. reflexivity.
Defined.

(** The failing call of C7, evaluated: a layer whose only context view is
    "local", two positions, no mask. *)
Example forward_local_raises_TypeError :
  forward (tiny_layer ["local"%string]) (tiny_hidden 2) None None None None None false
  = Raise TypeError.
Proof. cbn. reflexivity. Qed.

(** The sibling views "local_l" and "local_r" go through on the same input. *)
Example forward_local_shifted_returns :
  exists outputs,
    forward (tiny_layer ["local_l"; "local_r"]%string) (tiny_hidden 2) None None None
      None None false = Ok outputs.
Proof. eexists. cbn. reflexivity. Qed.

(** ** The matrices returned with two encoders *)

Lemma matrix_encoder_forward_length (e : matrix_encoder) (hs : hidden_states)
    (m_norm m : tensor5) :
  matrix_encoder_forward e hs = Ok (m_norm, m) ->
  length m_norm = context_sz hs /\ length m = context_sz hs.
Proof.
  destruct e as [e|e]; simpl.
  - unfold ConvnetMatrixEncoder.forward. intros H. bind_inv H.
    injection H as <- <-. rewrite !length_map, length_seq. split; reflexivity.
  - unfold ConvnetMatrixEncoderV2.forward.
    destruct (ConvnetMatrixEncoderV2.matrix_norm_alg e); try discriminate.
    intros H. injection H as <- <-. rewrite !length_map, length_seq. split; reflexivity.
Qed.

(** C10.  With [rl_lr_matrix_different] set and [output_matrices] requested,
    the matrix tensor [forward] returns (element 1 of its tuple) is the raw
    matrices of the left-to-right encoder followed, along the position axis,
    by those of the right-to-left encoder: its first dimension is [2 * T]. *)
Theorem forward_returns_both_matrix_sets (s : self) (hs : hidden_states)
    (am : option mask) (head_mask ehs eam past_vector : unsupported)
    (outputs : list output) :
  rl_lr_matrix_different s = true ->
  forward s hs am head_mask ehs eam past_vector true = Ok outputs ->
  exists n_lr m_lr n_rl m_rl : tensor5,
    matrix_encoder_forward (matrix_encoder_lr s) hs = Ok (n_lr, m_lr) /\
    matrix_encoder_forward (matrix_encoder_rl s) hs = Ok (n_rl, m_rl) /\
    nth_error outputs 1 = Some (OutMatrices (m_lr ++ m_rl)) /\
    length m_lr = context_sz hs /\ length m_rl = context_sz hs /\
    length (m_lr ++ m_rl) = (2 * context_sz hs)%nat.
Proof.
  intros Hdiff H. unfold forward in H. rewrite Hdiff in H.
  do 4 bind_inv H.
  bind_named H as enc_lr Henc. destruct enc_lr as [n_lr m_lr].
  bind_named H as rl Hrl. bind_named Hrl as enc_rl Henc_rl.
  destruct enc_rl as [n_rl m_rl]. injection Hrl as <-.
  cbn [fst snd] in H.
  destruct (matrix_encoder_forward_length _ _ _ _ Henc) as [_ L1].
  destruct (matrix_encoder_forward_length _ _ _ _ Henc_rl) as [_ L2].
  exists n_lr, m_lr, n_rl, m_rl.
  split; [exact Henc|]. split; [exact Henc_rl|].
  split.
  { bind_named H as lr Hlr. do 5 bind_inv H.
    destruct (is_decoder s).
    - destruct (snd lr); [|discriminate]. injection H as <-. reflexivity.
    - injection H as <-. reflexivity. }
  split; [exact L1|]. split; [exact L2|]. rewrite length_app. lia.
Qed.

Lemma forward_returns_both_matrix_sets_witness :
  exists (outputs : list output) (m : tensor5),
    forward tiny_layer_two_encoders (tiny_hidden 2) None None None None None true
      = Ok outputs /\
    nth_error outputs 1 = Some (OutMatrices m) /\ length m = 4%nat.
Proof.
  assert (E : exists outputs,
            forward tiny_layer_two_encoders (tiny_hidden 2) None None None None None true
            = Ok outputs) by (eexists; cbn; reflexivity).
  destruct E as [outputs E].
  destruct (forward_returns_both_matrix_sets tiny_layer_two_encoders (tiny_hidden 2)
              None None None None None outputs eq_refl E)
     as [n_lr [m_lr [n_rl [m_rl [_ [_ [H3 [_ [_ H6]]]]]]]]].
  exists outputs, (m_lr ++ m_rl). split; [exact E|]. split; [exact H3 | exact H6].
Defined.

End ContextViews.

(* ================================================================== *)
(** * Cached state: [use_cache] and [past_vector] *)
(* ================================================================== *)

Module CacheFacts.

Import ConvnetMatrixLayer PyFacts Cache.

Lemma layer_forward_head (l : ConvnetLayer.self) (hs : hidden_states)
    (am : option mask) (head_mask ehs eam past_vector : unsupported) (om : bool)
    (outs : list output) :
  ConvnetLayer.forward l hs am head_mask ehs eam past_vector om = Ok outs ->
  exists x rest, outs = OutHidden x :: rest.
Proof.
  unfold ConvnetLayer.forward. intros H.
  apply bind_ok in H. destruct H as [u1 [_ H]].
  apply bind_ok in H. destruct H as [u2 [_ H]].
  apply bind_ok in H. destruct H as [blk [_ H]].
  apply bind_ok in H. destruct H as [blk_0 [_ H]].
  destruct blk_0 as [x| |]; try discriminate.
  destruct (is_decoder (ConvnetLayer.mm l)).
  - apply bind_ok in H. destruct H as [present [_ H]]. injection H as <-.
    simpl. eauto.
  - injection H as <-. eauto.
Qed.

(** C9: what the code does where the claim expects a not-implemented error.
    (1) A [past_vector] that is not [None] stops the matrix layer with
    [AssertionError("Not implemented")].  (2) With [use_cache] true (and no
    gradient checkpointing in training) an encoder of at least one layer
    whose first layer returns ends in [TypeError]: the statement is
    [raise NotImplemented()], and the constant [NotImplemented] cannot be
    called; the sibling check two lines below raises [NotImplementedError()].
    (3) With no layer at all the encoder returns normally. *)
Theorem use_cache_raises_TypeError (s : ConvnetEncoder.self) (l0 : ConvnetLayer.self)
    (rest : list ConvnetLayer.self) (hs : hidden_states) (am : option mask)
    (ehs eam : unsupported) (om ohs : bool) (outs : list output) :
  ConvnetEncoder.layer s = l0 :: rest ->
  ConvnetEncoder.gradient_checkpointing s && ConvnetEncoder.training s = false ->
  ConvnetLayer.forward l0
    (match ConvnetEncoder.input_convnet s with Some conv => conv hs | None => hs end)
    am None ehs eam None om = Ok outs ->
  ConvnetEncoder.forward s hs am None ehs eam None true om ohs = Raise TypeError /\
  (forall (ls : ConvnetMatrixLayer.self) (pv : list R),
     ConvnetMatrixLayer.forward ls hs am None None None (Some pv) om
     = Raise (AssertionError "Not implemented")) /\
  (exists out,
     ConvnetEncoder.forward (tiny_encoder_stack []) hs am None ehs eam None true om ohs
     = Ok out).
Proof.
  intros Hlayer Hgc Hl0. split; [|split].
  - unfold ConvnetEncoder.forward. rewrite Hlayer.
    cbn [length range Py.range seq for_loop].
    unfold ConvnetEncoder.forward_step at 1. rewrite Hlayer.
    cbn [index nth_error Py.bind ConvnetEncoder.index_opt
         ConvnetEncoder.ls_hidden_states ConvnetEncoder.ls_use_cache].
    rewrite Hgc, Hl0. cbn [Py.bind].
    destruct (layer_forward_head _ _ _ _ _ _ _ _ _ Hl0) as [x [rest' ->]].
    reflexivity.
  - intros ls pv. reflexivity.
  - eexists. reflexivity.
Qed.

Lemma use_cache_raises_TypeError_witness :
  ConvnetEncoder.forward (tiny_encoder_stack [tiny_convnet_layer]) (Scan.tiny_hidden 1)
    None None None None None true false false = Raise TypeError.
Proof.
  assert (E : exists outs,
            ConvnetLayer.forward tiny_convnet_layer (Scan.tiny_hidden 1) None None None
              None None false = Ok outs) by (eexists; cbn; reflexivity).
  destruct E as [outs E].
  destruct (use_cache_raises_TypeError (tiny_encoder_stack [tiny_convnet_layer])
              tiny_convnet_layer [] (Scan.tiny_hidden 1) None None None false false
              outs eq_refl eq_refl E) as [H _].
  exact H.
Defined.

(** In decoder configuration [use_cache] resolves to the configured default
    [True] when the caller passes nothing, and to [False] in an encoder. *)
Example resolve_use_cache_values :
  ConvnetModel.resolve_use_cache true true None = true /\
  ConvnetModel.resolve_use_cache true false (Some true) = true /\
  ConvnetModel.resolve_use_cache false true (Some true) = false.
Proof. repeat split. Qed.

End CacheFacts.

(* ================================================================== *)
(** * Facts: finite sums and matrix entries *)
(* ================================================================== *)

Module SumFacts.

Lemma sum_list_app (l1 l2 : list R) : sum_list (l1 ++ l2) = sum_list l1 + sum_list l2.
Proof.
  induction l1 as [|x l1 IH]; simpl; [ring|]. rewrite IH; ring.
Qed.

Lemma sum_n_S (n : nat) (f : nat -> R) : sum_n (S n) f = sum_n n f + f n.
Proof.
  unfold sum_n. rewrite seq_S, map_app, sum_list_app. simpl. ring.
Qed.

Lemma sum_n_ext (n : nat) (f g : nat -> R) :
  (forall k, (k < n)%nat -> f k = g k) -> sum_n n f = sum_n n g.
Proof.
  intros H. unfold sum_n. f_equal. apply map_ext_in. intros k Hk.
  apply in_seq in Hk. apply H. lia.
Qed.

Lemma sum_n_zero (n : nat) (f : nat -> R) :
  (forall k, (k < n)%nat -> f k = 0) -> sum_n n f = 0.
Proof.
  induction n as [|n IH]; intros H; [reflexivity|].
  rewrite sum_n_S, IH, H by auto. ring.
Qed.

Lemma sum_n_plus (n : nat) (f g : nat -> R) :
  sum_n n (fun k => f k + g k) = sum_n n f + sum_n n g.
Proof.
  induction n as [|n IH]; [unfold sum_n; simpl; ring|].
  rewrite !sum_n_S, IH. ring.
Qed.

Lemma sum_n_scal (n : nat) (c : R) (f : nat -> R) :
  sum_n n (fun k => c * f k) = c * sum_n n f.
Proof.
  induction n as [|n IH]; [unfold sum_n; simpl; ring|].
  rewrite !sum_n_S, IH. ring.
Qed.

Lemma sum_n_single (n j : nat) (f : nat -> R) :
  (j < n)%nat -> (forall k, (k < n)%nat -> k <> j -> f k = 0) -> sum_n n f = f j.
Proof.
  induction n as [|n IH]; intros Hj H; [lia|].
  rewrite sum_n_S. destruct (Nat.eq_dec j n) as [->|Hne].
  - rewrite sum_n_zero; [ring|]. intros k Hk. apply H; lia.
  - rewrite IH, (H n) by (auto; lia). ring.
Qed.

Lemma sum_n_swap (n m : nat) (f : nat -> nat -> R) :
  sum_n n (fun i => sum_n m (fun j => f i j)) = sum_n m (fun j => sum_n n (fun i => f i j)).
Proof.
  induction n as [|n IH].
  - unfold sum_n at 1; simpl. symmetry. apply sum_n_zero. intros; reflexivity.
  - rewrite sum_n_S, IH, <- sum_n_plus. apply sum_n_ext. intros j _.
    rewrite sum_n_S. reflexivity.
Qed.

Lemma entry_mk_matrix (n : nat) (f : nat -> nat -> R) (i j : nat) :
  (i < n)%nat -> (j < n)%nat -> entry (mk_matrix n f) i j = f i j.
Proof.
  intros Hi Hj. unfold entry, mk_matrix.
  rewrite (ContextViews.nth_map_seq _ n i) by exact Hi.
  apply ContextViews.nth_map_seq. exact Hj.
Qed.

Lemma mk_matrix_ext (n : nat) (f g : nat -> nat -> R) :
  (forall i j, (i < n)%nat -> (j < n)%nat -> f i j = g i j) ->
  mk_matrix n f = mk_matrix n g.
Proof.
  intros H. unfold mk_matrix. apply map_ext_in. intros i Hi. apply in_seq in Hi.
  apply map_ext_in. intros j Hj. apply in_seq in Hj. apply H; lia.
Qed.

Lemma mk_matrix_entries (n : nat) (z : matrix) :
  is_matrix n z -> z = mk_matrix n (entry z).
Proof.
  intros [HL HR]. apply nth_error_ext. intros i. unfold mk_matrix.
  rewrite nth_error_map, nth_error_seq.
  destruct (Nat.ltb_spec i n) as [Hi|Hi].
  - destruct (nth_error z i) as [row|] eqn:E; [|apply nth_error_None in E; lia].
    simpl. f_equal. rewrite Forall_forall in HR.
    pose proof (HR row (nth_error_In _ _ E)) as Hrow.
    apply nth_error_ext. intros j. rewrite nth_error_map, nth_error_seq.
    destruct (Nat.ltb_spec j n) as [Hj|Hj].
    + simpl. unfold entry. rewrite (ContextViews.nth_of_nth_error z i), E.
      rewrite (nth_error_nth' row 0) by lia. reflexivity.
    + simpl. apply nth_error_None. lia.
  - simpl. apply nth_error_None. lia.
Qed.

Lemma nth_diagonal (n : nat) (a : matrix) (j : nat) :
  (j < n)%nat -> nth j (diagonal n a) 0 = entry a j j.
Proof.
  intros Hj. unfold diagonal.
  apply (ContextViews.nth_map_seq (fun i => entry a i i)). exact Hj.
Qed.

Lemma nth_sign_diagonal (n : nat) (a : matrix) (j : nat) :
  (j < n)%nat -> nth j (map sign (diagonal n a)) 0 = sign (entry a j j).
Proof.
  intros Hj. unfold diagonal. rewrite map_map.
  apply (ContextViews.nth_map_seq (fun i => sign (entry a i i))). exact Hj.
Qed.

Lemma sign_0 : sign 0 = 0.
Proof.
  unfold sign. destruct (total_order_T 0 0) as [[H|H]|H]; [lra | reflexivity | lra].
Qed.

Lemma sign_pos (x : R) : 0 < x -> sign x = 1.
Proof.
  intros Hx. unfold sign. destruct (total_order_T x 0) as [[H|H]|H]; [lra | lra | reflexivity].
Qed.

Lemma sign_neg (x : R) : x < 0 -> sign x = -1.
Proof.
  intros Hx. unfold sign. destruct (total_order_T x 0) as [[H|H]|H]; [reflexivity | lra | lra].
Qed.

Lemma sign_mul (x : R) : sign x * x = Rabs x.
Proof.
  destruct (Rtotal_order x 0) as [H|[H|H]].
  - rewrite sign_neg, Rabs_left by exact H. ring.
  - subst x. rewrite sign_0, Rabs_R0. ring.
  - rewrite sign_pos, Rabs_right by lra. ring.
Qed.

Lemma sign_square (x : R) : x <> 0 -> sign x * sign x = 1.
Proof.
  intros Hx. destruct (Rtotal_order x 0) as [H|[H|H]]; [|contradiction|].
  - rewrite sign_neg by exact H. ring.
  - rewrite sign_pos by exact H. ring.
Qed.

Lemma sign_of_unit (x : R) : x * x = 1 -> sign x = x /\ Rabs x = 1.
Proof.
  intros Hx. assert (H : x = 1 \/ x = -1) by nra. destruct H as [-> | ->].
  - rewrite sign_pos, Rabs_right by lra. split; reflexivity.
  - rewrite sign_neg, Rabs_left by lra. split; ring.
Qed.

End SumFacts.

(* ================================================================== *)
(** * The normalizers "det" and "ortho" *)
(* ================================================================== *)

Module NormalizerFacts.

Import ConvnetMatrixEncoder LinAlg SumFacts.

Lemma pow_nonneg (x y : R) : 0 <= pow x y.
Proof.
  unfold pow. destruct (Req_dec_T x 0) as [_|_].
  - destruct (Req_dec_T y 0); lra.
  - unfold Rpower. left. apply exp_pos.
Qed.

Lemma det_denominator_pos (s : self) (m : matrix) :
  0 < matrix_norm_eps s -> matrix_norm_eps s <= det_denominator s m.
Proof.
  intros Heps. unfold det_denominator.
  pose proof (pow_nonneg (Rabs (det (matrix_dim s) m)) (1 / INR (matrix_dim s))). lra.
Qed.

Lemma entry_map_matrix (f : R -> R) (m : matrix) (i j : nat) :
  f 0 = 0 -> entry (map_matrix f m) i j = f (entry m i j).
Proof.
  intros H0. unfold entry, map_matrix.
  change (@nil R) with (map f []) at 1. rewrite map_nth.
  rewrite <- H0 at 1. apply map_nth.
Qed.

(** The ["det"] branch of the dispatch. *)
Lemma det_normalizer_form (s : self) :
  matrix_norm_alg s = AlgStr "det" -> matrix_dim s <> 0%nat ->
  normalizer s = Ok (fun m => map_matrix (fun x => x / det_denominator s m) m).
Proof.
  intros Halg HD. unfold normalizer. rewrite Halg. simpl.
  destruct (Nat.eqb_spec (matrix_dim s) 0); [contradiction | reflexivity].
Qed.

(** What [forward] returns once the dispatch has answered [f]: the raw
    matrix of position [t], batch row [b] and head [h] is read off the output
    of [fc_to_mat], and the normalized one is [f] of it. *)
Lemma forward_entries (s : self) (hs : hidden_states) (f : matrix -> matrix) :
  normalizer s = Ok f ->
  exists m_norm m_raw : tensor5,
    forward s hs = Ok (m_norm, m_raw) /\
    length m_norm = context_sz hs /\ length m_raw = context_sz hs /\
    forall t b h : nat,
      (t < context_sz hs)%nat -> (b < batch_sz hs)%nat -> (h < num_matrix_heads s)%nat ->
      nth h (nth b (nth t m_norm []) []) [] = f (nth h (nth b (nth t m_raw []) []) []) /\
      forall i j : nat, (i < matrix_dim s)%nat -> (j < matrix_dim s)%nat ->
        entry (nth h (nth b (nth t m_raw []) []) []) i j
        = nth (h * matrix_dim s * matrix_dim s + i * matrix_dim s + j)
              (fc_to_mat s
                 (if matrix_encoder_two_layers s
                  then match layer_norm s with
                       | Some ln => ln (activation s (fc1 s (token hs b t)))
                       | None => activation s (fc1 s (token hs b t))
                       end
                  else token hs b t)) 0.
Proof.
  intros Hn. unfold forward. rewrite Hn. cbn [bind].
  eexists; eexists. split; [reflexivity|].
  split; [rewrite !length_map, length_seq; reflexivity|].
  split; [rewrite !length_map, length_seq; reflexivity|].
  intros t b h Ht Hb Hh.
  rewrite !map_map.
  rewrite !(ContextViews.nth_map_seq _ (context_sz hs) t) by exact Ht.
  rewrite !map_map.
  rewrite !(ContextViews.nth_map_seq _ (batch_sz hs) b) by exact Hb.
  rewrite !map_map.
  rewrite !(ContextViews.nth_map_seq _ (num_matrix_heads s) h) by exact Hh.
  split; [reflexivity|].
  intros i j Hi Hj. rewrite entry_mk_matrix by assumption.
  destruct (matrix_encoder_two_layers s); [|reflexivity].
  destruct (layer_norm s); reflexivity.
Qed.

(** C8 as stated fails on its last clause.  With [matrix_norm_eps = 1e-6]
    and the identity for [fc_to_mat], the token [2^116, 0, 0, 0] gives the
    singular matrix [[2^116, 0], [0, 0]]: every entry is a finite float32
    value, the determinant is 0, the denominator is [matrix_norm_eps], and
    the normalized entry [2^116 / 1e-6] (about 8.3e40) lies beyond the largest
    finite float32 (about 3.4e38): torch returns [inf] there. *)
Lemma det_normalization_overflow_counterexample :
  exists m_norm m_raw : tensor5,
    forward det_encoder Float32.large_singular_hidden = Ok (m_norm, m_raw) /\
    nth 0 (nth 0 (nth 0 m_raw []) []) [] = [[Float32.two_pow_116; 0]; [0; 0]] /\
    Forall (Forall Float32.finite32) (nth 0 (nth 0 (nth 0 m_raw []) []) []) /\
    det 2 (nth 0 (nth 0 (nth 0 m_raw []) []) []) = 0 /\
    entry (nth 0 (nth 0 (nth 0 m_norm []) []) []) 0 0
      = Float32.two_pow_116 / (1 / 1000000) /\
    ~ Float32.finite32 (entry (nth 0 (nth 0 (nth 0 m_norm []) []) []) 0 0).
Proof.
  assert (Hden : det_denominator det_encoder [[Float32.two_pow_116; 0]; [0; 0]]
                 = 1 / 1000000).
  { unfold det_denominator. cbn [matrix_dim det_encoder matrix_norm_eps].
    replace (det 2 [[Float32.two_pow_116; 0]; [0; 0]]) with 0 by (cbn; ring).
    rewrite Rabs_R0. unfold pow.
    destruct (Req_dec_T 0 0) as [_|Hne]; [|contradiction Hne; reflexivity].
    destruct (Req_dec_T (1 / INR 2) 0) as [H0|_]; [simpl in H0; lra | lra]. }
  eexists; eexists. split; [cbn; reflexivity|].
  cbn [nth]. split; [cbn; reflexivity|].
  split.
  { assert (H0 : Float32.finite32 0)
      by (unfold Float32.finite32, Float32.float32_max; rewrite Rabs_R0; lra).
    assert (H1 : Float32.finite32 Float32.two_pow_116)
      by (unfold Float32.finite32, Float32.float32_max, Float32.two_pow_116;
          rewrite Rabs_right; lra).
    cbn [nth]. cbn.
    constructor; [constructor; [exact H1 | constructor; [exact H0 | constructor]]|].
    constructor; [constructor; [exact H0 | constructor; [exact H0 | constructor]]|].
    constructor. }
  split; [cbn; ring|].
  assert (He : entry
                 (map_matrix
                    (fun x => x / det_denominator det_encoder
                                    [[Float32.two_pow_116; 0]; [0; 0]])
                    [[Float32.two_pow_116; 0]; [0; 0]]) 0 0
               = Float32.two_pow_116 / (1 / 1000000)).
  { cbn [entry map_matrix map nth]. rewrite Hden. reflexivity. }
  split; [exact He|].
  change (~ Float32.finite32
              (entry
                 (map_matrix
                    (fun x => x / det_denominator det_encoder
                                    [[Float32.two_pow_116; 0]; [0; 0]])
                    [[Float32.two_pow_116; 0]; [0; 0]]) 0 0)).
  rewrite He. unfold Float32.finite32, Float32.float32_max, Float32.two_pow_116.
  rewrite Rabs_right; lra.
Qed.

(** C8, amended.  Under the ["det"] algorithm, for every matrix [m]
    (singular or not), every entry is divided by
    [|det m| ** (1 / matrix_dim) + matrix_norm_eps]; for a positive
    [matrix_norm_eps] this denominator is at least [matrix_norm_eps], hence
    strictly positive: the division is a true division (multiplying back
    gives [m]) and every normalized entry is bounded in magnitude by the
    magnitude of the input entry over [matrix_norm_eps].  The normalized
    entry stays in the finite range of float32 when the input entry is at
    most [float32_max * matrix_norm_eps] in magnitude; finiteness of the
    input alone does not give it.  [forward] returns the raw matrices read
    off [fc_to_mat] and, for each of them, this quotient. *)
Theorem det_normalization_safe (s : self) (hs : hidden_states) (m : matrix) :
  matrix_norm_alg s = AlgStr "det" ->
  matrix_dim s <> 0%nat ->
  0 < matrix_norm_eps s ->
  exists f : matrix -> matrix,
    normalizer s = Ok f /\
    f m = map_matrix
            (fun x => x / (pow (Rabs (det (matrix_dim s) m)) (1 / INR (matrix_dim s))
                           + matrix_norm_eps s)) m /\
    matrix_norm_eps s
      <= pow (Rabs (det (matrix_dim s) m)) (1 / INR (matrix_dim s)) + matrix_norm_eps s /\
    0 < pow (Rabs (det (matrix_dim s) m)) (1 / INR (matrix_dim s)) + matrix_norm_eps s /\
    (forall i j,
       entry (f m) i j
       * (pow (Rabs (det (matrix_dim s) m)) (1 / INR (matrix_dim s)) + matrix_norm_eps s)
       = entry m i j) /\
    (forall i j, Rabs (entry (f m) i j) <= Rabs (entry m i j) / matrix_norm_eps s) /\
    (forall i j, Rabs (entry m i j) <= Float32.float32_max * matrix_norm_eps s ->
                 Float32.finite32 (entry (f m) i j)) /\
    (exists m_norm m_raw : tensor5,
       forward s hs = Ok (m_norm, m_raw) /\
       length m_norm = context_sz hs /\ length m_raw = context_sz hs /\
       forall t b h : nat,
         (t < context_sz hs)%nat -> (b < batch_sz hs)%nat ->
         (h < num_matrix_heads s)%nat ->
         nth h (nth b (nth t m_norm []) []) []
         = f (nth h (nth b (nth t m_raw []) []) []) /\
         forall i j : nat, (i < matrix_dim s)%nat -> (j < matrix_dim s)%nat ->
           entry (nth h (nth b (nth t m_raw []) []) []) i j
           = nth (h * matrix_dim s * matrix_dim s + i * matrix_dim s + j)
                 (fc_to_mat s
                    (if matrix_encoder_two_layers s
                     then match layer_norm s with
                          | Some ln => ln (activation s (fc1 s (token hs b t)))
                          | None => activation s (fc1 s (token hs b t))
                          end
                     else token hs b t)) 0).
Proof.
  intros Halg HD Heps.
  pose proof (det_denominator_pos s m Heps) as Hden. unfold det_denominator in Hden.
  set (d := pow (Rabs (det (matrix_dim s) m)) (1 / INR (matrix_dim s))
            + matrix_norm_eps s) in *.
  pose proof (det_normalizer_form s Halg HD) as Hn.
  exists (fun m => map_matrix (fun x => x / det_denominator s m) m).
  split; [exact Hn|]. split; [reflexivity|]. split; [exact Hden|]. split; [lra|].
  assert (He : forall i j, entry (map_matrix (fun x => x / det_denominator s m) m) i j
                           = entry m i j / d).
  { intros i j. rewrite entry_map_matrix; [reflexivity|]. unfold Rdiv. ring. }
  assert (Hb : forall i j, Rabs (entry m i j / d) <= Rabs (entry m i j) / matrix_norm_eps s).
  { intros i j. unfold Rdiv. rewrite Rabs_mult.
    apply Rmult_le_compat_l; [apply Rabs_pos|].
    rewrite Rabs_inv, (Rabs_right d) by lra.
    apply Rinv_le_contravar; lra. }
  split; [|split; [|split]].
  - intros i j. rewrite He. field. lra.
  - intros i j. rewrite He. apply Hb.
  - intros i j Hr. unfold Float32.finite32. rewrite He.
    eapply Rle_trans; [apply Hb|].
    apply (Rmult_le_reg_r (matrix_norm_eps s)); [exact Heps|].
    unfold Rdiv. rewrite Rmult_assoc, Rinv_l by lra. lra.
  - exact (forward_entries s hs _ Hn).
Qed.

Lemma det_normalization_safe_witness :
  exists f : matrix -> matrix,
    normalizer det_encoder = Ok f /\
    0 < pow (Rabs (det 2 [[2; 0]; [0; 2]])) (1 / INR 2) + 1 / 1000000 /\
    entry (f [[2; 0]; [0; 2]]) 0 0
    * (pow (Rabs (det 2 [[2; 0]; [0; 2]])) (1 / INR 2) + 1 / 1000000) = 2 /\
    Float32.finite32 (entry (f [[2; 0]; [0; 2]]) 0 0) /\
    exists m_norm m_raw : tensor5,
      forward det_encoder (Scan.tiny_hidden 1) = Ok (m_norm, m_raw).
Proof.
  destruct (det_normalization_safe det_encoder (Scan.tiny_hidden 1) [[2; 0]; [0; 2]])
    as [f [H1 [_ [_ [H3 [H4 [_ [H6 [m_norm [m_raw [H7 _]]]]]]]]]]].
  - reflexivity.
  - simpl. discriminate.
  - simpl. lra.
  - exists f. split; [exact H1|]. split; [exact H3|].
    split; [exact (H4 0%nat 0%nat)|].
    split.
    + apply (H6 0%nat 0%nat). unfold Float32.float32_max. cbn.
      rewrite Rabs_right; lra.
    + exists m_norm, m_raw. exact H7.
Defined.

(** The determinant of the expansion agrees with the 2 x 2 formula. *)
Example det_2x2 (a b c d : R) : det 2 [[a; b]; [c; d]] = a * d - b * c.
Proof. cbn. ring. Qed.

Example det_3x3 (a b c d e f g h i : R) :
  det 3 [[a; b; c]; [d; e; f]; [g; h; i]]
  = a * (e * i - f * h) - b * (d * i - f * g) + c * (d * h - e * g).
Proof. cbn. ring. Qed.

End NormalizerFacts.

Module OrthoFacts.

Import ConvnetMatrixEncoder LinAlg SumFacts.

Lemma entry_diag_embed (n : nat) (v : vector) (k j : nat) :
  (k < n)%nat -> (j < n)%nat ->
  entry (diag_embed n v) k j = if Nat.eqb k j then nth k v 0 else 0.
Proof. intros Hk Hj. unfold diag_embed. apply entry_mk_matrix; assumption. Qed.

(** Every entry of the result of [make_orthogonal], in terms of the factors
    the QR step returned. *)
Lemma make_orthogonal_entry (s : self) (z q r : matrix) (i j : nat) :
  linalg_qr s z = (q, r) -> (i < matrix_dim s)%nat -> (j < matrix_dim s)%nat ->
  entry (make_orthogonal s z) i j =
  entry q i j * sign (entry r j j) * (Rabs (entry r j j) / Rabs (Rabs (entry r j j))).
Proof.
  intros Hqr Hi Hj. unfold make_orthogonal. rewrite Hqr.
  set (n := matrix_dim s) in *.
  rewrite entry_mk_matrix by assumption.
  rewrite nth_diagonal by assumption.
  unfold matmul. rewrite !entry_mk_matrix by assumption.
  assert (Hq : sum_n n (fun k => entry q i k
                 * entry (diag_embed n (map sign (diagonal n r))) k j)
               = entry q i j * sign (entry r j j)).
  { rewrite (sum_n_single n j) by
      (first [assumption | intros k Hk Hne; rewrite entry_diag_embed by assumption;
       destruct (Nat.eqb_spec k j); [contradiction | ring]]).
    rewrite entry_diag_embed, Nat.eqb_refl, nth_sign_diagonal by assumption.
    reflexivity. }
  assert (Hr : sum_n n (fun k => entry (diag_embed n (map sign (diagonal n r))) j k
                 * entry r k j)
               = Rabs (entry r j j)).
  { rewrite (sum_n_single n j) by
      (first [assumption | intros k Hk Hne; rewrite entry_diag_embed by assumption;
       destruct (Nat.eqb_spec j k); [congruence | ring]]).
    rewrite entry_diag_embed, Nat.eqb_refl, nth_sign_diagonal by assumption.
    apply sign_mul. }
  rewrite Hq, Hr. reflexivity.
Qed.

(** The diagonal of the sign-corrected [r] is [|r_jj|]. *)
Lemma corrected_diagonal (n : nat) (r : matrix) (j : nat) :
  (j < n)%nat ->
  entry (matmul n (diag_embed n (map sign (diagonal n r))) r) j j = Rabs (entry r j j).
Proof.
  intros Hj. unfold matmul. rewrite entry_mk_matrix by assumption.
  rewrite (sum_n_single n j) by
    (first [assumption | intros k Hk Hne; rewrite entry_diag_embed by assumption;
     destruct (Nat.eqb_spec j k); [congruence | ring]]).
  rewrite entry_diag_embed, Nat.eqb_refl, nth_sign_diagonal by assumption.
  apply sign_mul.
Qed.

(** Column [j] of [q @ s] is column [j] of [q] times the sign of [r_jj]. *)
Lemma signed_factor_entry (n : nat) (q r : matrix) (i j : nat) :
  (i < n)%nat -> (j < n)%nat ->
  entry (matmul n q (diag_embed n (map sign (diagonal n r)))) i j
  = entry q i j * sign (entry r j j).
Proof.
  intros Hi Hj. unfold matmul. rewrite entry_mk_matrix by assumption.
  rewrite (sum_n_single n j) by
    (first [assumption | intros k Hk Hne; rewrite entry_diag_embed by assumption;
     destruct (Nat.eqb_spec k j); [contradiction | ring]]).
  rewrite entry_diag_embed, Nat.eqb_refl, nth_sign_diagonal by assumption.
  reflexivity.
Qed.

(** [r^T r = I] follows from [z^T z = I], [q^T q = I] and [z = q r]. *)
Lemma factor_cols_orthonormal (n : nat) (z q r : matrix) :
  cols_orthonormal n z -> cols_orthonormal n q -> is_product n z q r ->
  cols_orthonormal n r.
Proof.
  intros Hz Hq Hp j l Hj Hl. rewrite <- (Hz j l Hj Hl).
  transitivity (sum_n n (fun a => sum_n n (fun b =>
                  entry r a j * entry r b l
                  * sum_n n (fun i => entry q i a * entry q i b)))).
  - apply sum_n_ext. intros a Ha.
    rewrite (sum_n_single n a) by
      (first [assumption | intros b Hb Hne; rewrite (Hq a b Ha Hb);
       destruct (Nat.eqb_spec a b); [congruence | ring]]).
    rewrite (Hq a a Ha Ha), Nat.eqb_refl. ring.
  - transitivity (sum_n n (fun i => sum_n n (fun a => sum_n n (fun b =>
                    (entry q i a * entry r a j) * (entry q i b * entry r b l))))).
    + symmetry.
      rewrite (sum_n_swap n n (fun i a => sum_n n (fun b =>
                 (entry q i a * entry r a j) * (entry q i b * entry r b l)))).
      apply sum_n_ext. intros a Ha.
      rewrite (sum_n_swap n n (fun i b =>
                 (entry q i a * entry r a j) * (entry q i b * entry r b l))).
      apply sum_n_ext. intros b Hb.
      rewrite <- sum_n_scal. apply sum_n_ext. intros i Hi. ring.
    + apply sum_n_ext. intros i Hi.
      rewrite (Hp i j Hi Hj), (Hp i l Hi Hl).
      rewrite (Rmult_comm (sum_n n (fun k => entry q i k * entry r k j))).
      rewrite <- (sum_n_scal n (sum_n n (fun k => entry q i k * entry r k l))
                    (fun k => entry q i k * entry r k j)).
      apply sum_n_ext. intros a Ha.
      rewrite (Rmult_comm (sum_n n (fun k => entry q i k * entry r k l))).
      rewrite <- (sum_n_scal n (entry q i a * entry r a j)
                    (fun k => entry q i k * entry r k l)).
      reflexivity.
Qed.

(** An upper-triangular matrix with orthonormal columns is diagonal with
    entries of square 1. *)
Lemma triangular_orthonormal_diagonal (n : nat) (r : matrix) :
  upper_triangular n r -> cols_orthonormal n r ->
  forall j, (j < n)%nat ->
    (forall a, (a < n)%nat -> a <> j -> entry r a j = 0) /\
    entry r j j * entry r j j = 1.
Proof.
  intros Hu Hc j. induction j as [j IH] using (well_founded_induction lt_wf).
  intros Hj.
  assert (Hoff : forall a, (a < n)%nat -> a <> j -> entry r a j = 0).
  { intros a Ha Hne. destruct (Nat.lt_ge_cases j a) as [Hlt|Hge].
    - apply Hu; assumption.
    - assert (Haj : (a < j)%nat) by lia.
      destruct (IH a Haj Ha) as [Hcol Hunit].
      pose proof (Hc a j Ha Hj) as Horth.
      rewrite (sum_n_single n a) in Horth by
        (first [assumption | intros k Hk Hka; rewrite (Hcol k Hk Hka); ring]).
      destruct (Nat.eqb_spec a j); [contradiction|]. nra. }
  split; [exact Hoff|].
  pose proof (Hc j j Hj Hj) as Hnorm. rewrite Nat.eqb_refl in Hnorm.
  rewrite (sum_n_single n j) in Hnorm by
    (first [assumption | intros k Hk Hkj; rewrite (Hoff k Hk Hkj); ring]).
  exact Hnorm.
Qed.

(** C4 as stated fails when the diagonal of [r] holds an exact zero.  For
    the 1 x 1 matrix 0 the QR step answers [q = 1], [r = 0] (a valid
    factorisation).  The sign of the diagonal of [r] is 0, so [q @ s] is 0
    and the corrected diagonal [d] is 0: the factor [d / d.abs()] is the
    quotient of 0 by 0.  torch gives [nan] for it and returns the matrix
    [nan]; with any real number in its place the entry is 0 times that number
    (the value of this embedding, where [0 / 0 = 0]).  In both readings
    [Q @ Q^T] is not the identity. *)
Lemma make_orthogonal_singular_counterexample :
  linalg_qr Scan.tiny_encoder [[0]] = (eye 1, [[0]]) /\
  qr_contract 1 [[0]] (eye 1) [[0]] /\
  entry (matmul 1 (diag_embed 1 (map sign (diagonal 1 [[0]]))) [[0]]) 0 0 = 0 /\
  entry (matmul 1 (eye 1) (diag_embed 1 (map sign (diagonal 1 [[0]])))) 0 0 = 0 /\
  matmul 1 (make_orthogonal Scan.tiny_encoder [[0]])
           (transpose 1 (make_orthogonal Scan.tiny_encoder [[0]])) <> eye 1.
Proof.
  split; [reflexivity|]. split.
  - split; [split|split].
    + intros i k Hi Hk. assert (i = 0%nat) by lia. assert (k = 0%nat) by lia.
      subst. cbn. lra.
    + intros j l Hj Hl. assert (j = 0%nat) by lia. assert (l = 0%nat) by lia.
      subst. cbn. lra.
    + intros i j Hji Hi. lia.
    + intros i j Hi Hj. assert (i = 0%nat) by lia. assert (j = 0%nat) by lia.
      subst. cbn. lra.
  - split; [cbn; rewrite sign_0; lra|].
    split; [cbn; rewrite sign_0; lra|].
    intros H. apply (f_equal (fun a => entry a 0 0)) in H.
    cbn in H. rewrite sign_0 in H. lra.
Qed.

(** C4, amended.  Let [(q, r)] be the answer of the QR step for [z], with
    [q] orthogonal, [r] upper triangular and [z = q @ r].  The diagonal of
    the sign-corrected [r] is [|r_jj|], so it is non-negative.  When no
    diagonal entry of [r] is 0, the result is [q] with column [j] multiplied
    by the sign of [r_jj], and [Q @ Q^T] is the identity.  Applied to a
    matrix that is already orthogonal, the result is that same matrix: the
    normalizer is idempotent.  When a diagonal entry [r_jj] is exactly 0, the
    corrected diagonal [d_j] is 0, so the factor [d_j / |d_j|] of column [j]
    is the quotient of 0 by 0 ([nan] in torch); column [j] of [q @ s] is
    already 0 before that factor is applied, and the result (column [j] zero
    here, [nan] in torch) is not orthogonal. *)
Theorem make_orthogonal_orthogonal (s : self) (z q r : matrix) :
  linalg_qr s z = (q, r) ->
  qr_contract (matrix_dim s) z q r ->
  (forall j, (j < matrix_dim s)%nat ->
     entry (matmul (matrix_dim s)
              (diag_embed (matrix_dim s) (map sign (diagonal (matrix_dim s) r))) r) j j
     = Rabs (entry r j j) /\
     0 <= Rabs (entry r j j)) /\
  ((forall j, (j < matrix_dim s)%nat -> entry r j j <> 0) ->
   (forall i j, (i < matrix_dim s)%nat -> (j < matrix_dim s)%nat ->
      entry (make_orthogonal s z) i j = entry q i j * sign (entry r j j)) /\
   matmul (matrix_dim s) (make_orthogonal s z)
     (transpose (matrix_dim s) (make_orthogonal s z)) = eye (matrix_dim s)) /\
  (is_matrix (matrix_dim s) z -> orthogonal (matrix_dim s) z ->
   make_orthogonal s z = z) /\
  (forall j, (j < matrix_dim s)%nat -> entry r j j = 0 ->
     entry (matmul (matrix_dim s)
              (diag_embed (matrix_dim s) (map sign (diagonal (matrix_dim s) r))) r) j j
     = 0 /\
     (forall i, (i < matrix_dim s)%nat ->
        entry (matmul (matrix_dim s) q
                 (diag_embed (matrix_dim s) (map sign (diagonal (matrix_dim s) r)))) i j
        = 0) /\
     (forall i, (i < matrix_dim s)%nat -> entry (make_orthogonal s z) i j = 0) /\
     ~ orthogonal (matrix_dim s) (make_orthogonal s z)).
Proof.
  intros Hqr [[Hqrow Hqcol] [Hup Hprod]].
  set (n := matrix_dim s) in *.
  split; [|split; [|split]].
  - intros j Hj. split; [apply corrected_diagonal, Hj | apply Rabs_pos].
  - intros Hdiag.
    assert (Hent : forall i j, (i < n)%nat -> (j < n)%nat ->
              entry (make_orthogonal s z) i j = entry q i j * sign (entry r j j)).
    { intros i j Hi Hj. rewrite (make_orthogonal_entry s z q r i j Hqr Hi Hj).
      pose proof (Hdiag j Hj) as Hne.
      assert (Ha : Rabs (entry r j j) <> 0) by (apply Rabs_no_R0, Hne).
      rewrite (Rabs_right (Rabs (entry r j j))) by (apply Rle_ge, Rabs_pos).
      field. exact Ha. }
    split; [exact Hent|].
    unfold matmul, eye. apply mk_matrix_ext. intros i k Hi Hk.
    rewrite <- (Hqrow i k Hi Hk). apply sum_n_ext. intros j Hj.
    unfold transpose. rewrite entry_mk_matrix by assumption.
    rewrite (Hent i j Hi Hj), (Hent k j Hk Hj).
    pose proof (sign_square (entry r j j) (Hdiag j Hj)) as Hsq.
    transitivity (entry q i j * entry q k j * (sign (entry r j j) * sign (entry r j j)));
      [ring | rewrite Hsq; ring].
  - intros Hshape [_ Hzcol].
    pose proof (factor_cols_orthonormal n z q r Hzcol Hqcol Hprod) as Hrcol.
    pose proof (triangular_orthonormal_diagonal n r Hup Hrcol) as Hdiag.
    rewrite (mk_matrix_entries n z Hshape) at 2.
    unfold make_orthogonal at 1. rewrite Hqr. fold n.
    apply mk_matrix_ext. intros i j Hi Hj.
    pose proof (make_orthogonal_entry s z q r i j Hqr Hi Hj) as He.
    unfold make_orthogonal in He. rewrite Hqr in He. fold n in He.
    rewrite entry_mk_matrix in He by assumption. rewrite He.
    destruct (Hdiag j Hj) as [Hoff Hunit].
    destruct (sign_of_unit _ Hunit) as [Hs Ha].
    rewrite (Hprod i j Hi Hj).
    rewrite (sum_n_single n j) by
      (first [assumption | intros k Hk Hne; rewrite (Hoff k Hk Hne); ring]).
    rewrite Hs, Ha, Rabs_R1. field.
  - intros j Hj Hzero.
    assert (Hcol : forall i, (i < n)%nat -> entry (make_orthogonal s z) i j = 0).
    { intros i Hi. rewrite (make_orthogonal_entry s z q r i j Hqr Hi Hj).
      rewrite Hzero, sign_0. ring. }
    split; [rewrite (corrected_diagonal n r j Hj), Hzero; apply Rabs_R0|].
    split.
    { intros i Hi. rewrite (signed_factor_entry n q r i j Hi Hj), Hzero, sign_0. ring. }
    split; [exact Hcol|].
    intros [_ Hcols]. pose proof (Hcols j j Hj Hj) as Hjj.
    rewrite Nat.eqb_refl in Hjj.
    rewrite (sum_n_zero n (fun i => entry (make_orthogonal s z) i j
                                    * entry (make_orthogonal s z) i j)) in Hjj
      by (intros i Hi; rewrite (Hcol i Hi); ring).
    lra.
Qed.

Lemma make_orthogonal_orthogonal_witness :
  make_orthogonal ortho_encoder [[0; 1]; [1; 0]] = [[0; 1]; [1; 0]] /\
  matmul 2 (make_orthogonal ortho_encoder [[0; 1]; [1; 0]])
    (transpose 2 (make_orthogonal ortho_encoder [[0; 1]; [1; 0]])) = eye 2.
Proof.
  destruct (make_orthogonal_orthogonal ortho_encoder [[0; 1]; [1; 0]]
              [[0; -1]; [-1; 0]] [[-1; 0]; [0; -1]]) as [_ [H2 [H3 _]]].
  - reflexivity.
  - split; [split|split].
    + intros i k Hi Hk. simpl in Hi, Hk.
      destruct i as [|[|i]]; destruct k as [|[|k]]; try lia; cbn; lra.
    + intros j l Hj Hl. simpl in Hj, Hl.
      destruct j as [|[|j]]; destruct l as [|[|l]]; try lia; cbn; lra.
    + intros i j Hji Hi. simpl in Hi.
      destruct i as [|[|i]]; destruct j as [|[|j]]; try lia; reflexivity.
    + intros i j Hi Hj. simpl in Hi, Hj.
      destruct i as [|[|i]]; destruct j as [|[|j]]; try lia; cbn; lra.
  - split.
    + apply H3.
      * split; [reflexivity | repeat constructor].
      * split.
        -- intros i k Hi Hk. simpl in Hi, Hk.
           destruct i as [|[|i]]; destruct k as [|[|k]]; try lia; cbn; lra.
        -- intros j l Hj Hl. simpl in Hj, Hl.
           destruct j as [|[|j]]; destruct l as [|[|l]]; try lia; cbn; lra.
    + apply H2. intros j Hj. simpl in Hj.
      destruct j as [|[|j]]; try lia; cbn; lra.
Defined.

End OrthoFacts.

(* ================================================================== *)
(** * Position ids *)
(* ================================================================== *)

Module PositionFacts.

Import PositionIds.

Lemma wrap_small (bits z : Z) :
  (0 < bits -> - 2 ^ (bits - 1) <= z < 2 ^ (bits - 1) -> wrap bits z = z)%Z.
Proof.
  intros Hb Hz. unfold wrap.
  replace (2 ^ bits)%Z with (2 * 2 ^ (bits - 1))%Z.
  - rewrite Z.mod_small; lia.
  - rewrite <- Z.pow_succ_r by lia. f_equal. lia.
Qed.

Lemma ne_mask_sum (padding_idx : Z) (row : list Z) :
  fold_right Z.add 0%Z (ne_mask padding_idx row) = Z.of_nat (count_tokens padding_idx row).
Proof.
  unfold count_tokens. induction row as [|x row IH]; [reflexivity|].
  cbn [ne_mask map fold_right filter]. fold (ne_mask padding_idx row). rewrite IH.
  destruct (x =? padding_idx)%Z; cbn [negb length]; lia.
Qed.

Lemma count_tokens_le (padding_idx : Z) (row : list Z) :
  (count_tokens padding_idx row <= length row)%nat.
Proof. unfold count_tokens. apply filter_length_le. Qed.

Lemma count_tokens_firstn_le (padding_idx : Z) (row : list Z) (t : nat) :
  (count_tokens padding_idx (firstn t row) <= length row)%nat.
Proof.
  pose proof (count_tokens_le padding_idx (firstn t row)) as H.
  rewrite length_firstn in H. lia.
Qed.

(** The running sums of a 0/1 mask: element [t] counts the ones among the
    first [t + 1] entries. *)
Lemma cumsum_ne_mask (padding_idx : Z) (row : list Z) :
  forall (pre : list Z) (t : nat) (x : Z),
  (Z.of_nat (length pre + length row) < 2 ^ 63)%Z ->
  nth_error row t = Some x ->
  nth_error (cumsum (Z.of_nat (count_tokens padding_idx pre)) (ne_mask padding_idx row)) t
  = Some (Z.of_nat (count_tokens padding_idx (pre ++ firstn (S t) row))).
Proof.
  induction row as [|y row IH]; intros pre t x Hlen Ht.
  - destruct t; discriminate.
  - cbn [ne_mask map cumsum]. fold (ne_mask padding_idx row).
    assert (Hstep : wrap 64 (Z.of_nat (count_tokens padding_idx pre)
                             + (if (y =? padding_idx)%Z then 0 else 1))
                    = Z.of_nat (count_tokens padding_idx (pre ++ [y]))).
    { pose proof (count_tokens_le padding_idx pre).
      unfold count_tokens. rewrite filter_app, length_app. cbn [filter].
      fold (count_tokens padding_idx pre).
      rewrite wrap_small; [destruct (y =? padding_idx)%Z; cbn [negb length]; lia | lia |].
      cbn [length] in Hlen. destruct (y =? padding_idx)%Z; lia. }
    rewrite Hstep. destruct t as [|t]; cbn [nth_error].
    + reflexivity.
    + cbn [nth_error] in Ht.
      rewrite (IH (pre ++ [y]) t x); [| rewrite length_app; cbn [length] in *; lia | exact Ht].
      cbn [firstn]. rewrite <- app_assoc. reflexivity.
Qed.

Lemma nth_error_combine {A B : Type} (l1 : list A) (l2 : list B) :
  forall (t : nat) (a : A) (b : B),
  nth_error l1 t = Some a -> nth_error l2 t = Some b ->
  nth_error (combine l1 l2) t = Some (a, b).
Proof.
  revert l2. induction l1 as [|x l1 IH]; intros l2 t a b H1 H2.
  - destruct t; discriminate.
  - destruct l2 as [|y l2]; [destruct t; discriminate|].
    destruct t as [|t]; cbn [combine nth_error] in *.
    + injection H1 as ->. injection H2 as ->. reflexivity.
    + apply IH; assumption.
Qed.

Lemma position_row_nth (padding_idx past : Z) (row : list Z) (t : nat) (x : Z) :
  in_range padding_idx past (length row) ->
  nth_error row t = Some x ->
  nth_error (position_row padding_idx past row) t
  = Some (if (x =? padding_idx)%Z then padding_idx
          else (padding_idx + past
                + Z.of_nat (count_tokens padding_idx (firstn (S t) row)))%Z).
Proof.
  intros [Hp [Hpast [Hlo Hhi]]] Ht. unfold position_row.
  pose proof (count_tokens_firstn_le padding_idx row (S t)) as Hc.
  set (c := count_tokens padding_idx (firstn (S t) row)) in *.
  assert (Hcum : nth_error (cumsum 0 (ne_mask padding_idx row)) t = Some (Z.of_nat c)).
  { apply (cumsum_ne_mask padding_idx row [] t x); [cbn [length]; lia | exact Ht]. }
  assert (Hmask : nth_error (ne_mask padding_idx row) t
                  = Some (if (x =? padding_idx)%Z then 0%Z else 1%Z)).
  { unfold ne_mask. rewrite nth_error_map, Ht. reflexivity. }
  rewrite !nth_error_map.
  assert (Hcomb : nth_error (combine (cumsum 0 (ne_mask padding_idx row))
                                     (ne_mask padding_idx row)) t
                  = Some (Z.of_nat c, if (x =? padding_idx)%Z then 0%Z else 1%Z)).
  { apply nth_error_combine; assumption. }
  rewrite Hcomb. cbn [option_map fst snd]. f_equal.
  assert (H31 : (2 ^ 31 < 2 ^ 63)%Z) by (apply Z.pow_lt_mono_r; lia).
  rewrite (wrap_small 32 (Z.of_nat c)) by lia.
  rewrite (wrap_small 32 (Z.of_nat c + past)) by lia.
  destruct (x =? padding_idx)%Z.
  - rewrite Z.mul_0_r, (wrap_small 32 0) by lia.
    apply wrap_small; lia.
  - rewrite Z.mul_1_r, (wrap_small 32 (Z.of_nat c + past)) by lia.
    rewrite wrap_small; lia.
Qed.

(** X1.  In [create_position_ids_from_input_ids] a padding token keeps the
    position id [padding_idx], and a non-padding token gets
    [padding_idx + past_vectors_length] plus the number of non-padding
    tokens of its row up to and including itself, which is larger than
    [padding_idx + past_vectors_length]. *)
Theorem position_ids_count_tokens (input_ids : list (list Z)) (padding_idx past : Z)
    (b t : nat) (row : list Z) (x : Z) :
  in_range padding_idx past (length row) ->
  nth_error input_ids b = Some row ->
  nth_error row t = Some x ->
  exists ids : list Z,
    nth_error (create_position_ids_from_input_ids input_ids padding_idx past) b = Some ids /\
    length ids = length row /\
    (x = padding_idx -> nth_error ids t = Some padding_idx) /\
    (x <> padding_idx ->
     nth_error ids t
     = Some (padding_idx + past
             + Z.of_nat (count_tokens padding_idx (firstn (S t) row)))%Z /\
     (1 <= count_tokens padding_idx (firstn (S t) row) <= t + 1)%nat).
Proof.
  intros Hr Hb Ht. exists (position_row padding_idx past row).
  split; [unfold create_position_ids_from_input_ids; rewrite nth_error_map, Hb; reflexivity|].
  split.
  { unfold position_row, ne_mask. rewrite !length_map, length_combine, length_map.
    assert (L : forall l acc, length (cumsum acc l) = length l).
    { induction l as [|y l IH]; intros acc; cbn [cumsum length]; [reflexivity|].
      rewrite IH. reflexivity. }
    rewrite L, length_map. lia. }
  rewrite (position_row_nth padding_idx past row t x Hr Ht). split.
  - intros ->. rewrite Z.eqb_refl. reflexivity.
  - intros Hne. destruct (Z.eqb_spec x padding_idx) as [E|_]; [contradiction|].
    split; [reflexivity|].
    assert (Hin : nth_error (firstn (S t) row) t = Some x).
    { rewrite nth_error_firstn. destruct (Nat.ltb_spec t (S t)); [exact Ht | lia]. }
    split.
    + unfold count_tokens.
      assert (Hf : In x (filter (fun y => negb (y =? padding_idx)%Z) (firstn (S t) row))).
      { apply filter_In. split; [eapply nth_error_In, Hin|].
        destruct (Z.eqb_spec x padding_idx); [contradiction | reflexivity]. }
      destruct (filter _ _); [destruct Hf | cbn [length]; lia].
    + pose proof (count_tokens_le padding_idx (firstn (S t) row)) as H.
      rewrite length_firstn in H. lia.
Qed.

Lemma position_ids_count_tokens_witness :
  exists ids : list Z,
    nth_error (create_position_ids_from_input_ids [[7; 1; 9; 1]]%Z 1 0) 0 = Some ids /\
    length ids = 4%nat /\
    nth_error ids 2 = Some 3%Z.
Proof.
  destruct (position_ids_count_tokens [[7; 1; 9; 1]]%Z 1 0 0 2 [7; 1; 9; 1]%Z 9%Z)
    as [ids [H1 [H2 [_ H4]]]].
  - unfold in_range. cbn [length]. lia.
  - reflexivity.
  - reflexivity.
  - exists ids. split; [exact H1|]. split; [exact H2|].
    destruct H4 as [H4 _]; [lia|]. exact H4.
Defined.

Lemma count_tokens_firstn_mono (padding_idx : Z) (row : list Z) :
  forall (t1 t2 : nat) (x2 : Z),
  (t1 < t2)%nat -> nth_error row t2 = Some x2 -> x2 <> padding_idx ->
  (count_tokens padding_idx (firstn (S t1) row)
   < count_tokens padding_idx (firstn (S t2) row))%nat.
Proof.
  intros t1 t2 x2 Hlt H2 Hne.
  assert (Hsplit : firstn (S t2) row
                   = firstn (S t1) row ++ firstn (t2 - t1) (skipn (S t1) row)).
  { replace (S t2) with (S t1 + (t2 - t1))%nat by lia.
    rewrite <- (firstn_skipn (S t1) row) at 1.
    rewrite firstn_app.
    pose proof (nth_error_Some row t2) as Hs. rewrite H2 in Hs.
    assert (Hl : (t2 < length row)%nat) by (apply Hs; discriminate).
    rewrite length_firstn, (firstn_all2 (n := S t1 + (t2 - t1))) by
      (rewrite length_firstn; lia).
    f_equal. f_equal. lia. }
  unfold count_tokens. rewrite Hsplit, filter_app, length_app.
  assert (Hin : In x2 (firstn (t2 - t1) (skipn (S t1) row))).
  { apply (nth_error_In _ (t2 - t1 - 1)).
    rewrite nth_error_firstn. destruct (Nat.ltb_spec (t2 - t1 - 1) (t2 - t1)); [|lia].
    rewrite nth_error_skipn. replace (S t1 + (t2 - t1 - 1))%nat with t2 by lia. exact H2. }
  assert (Hf : In x2 (filter (fun y => negb (y =? padding_idx)%Z)
                        (firstn (t2 - t1) (skipn (S t1) row)))).
  { apply filter_In. split; [exact Hin|].
    destruct (Z.eqb_spec x2 padding_idx); [contradiction | reflexivity]. }
  destruct (filter _ (firstn (t2 - t1) _)); [destruct Hf | cbn [length]; lia].
Qed.

(** X2.  Along a row the position ids of the non-padding tokens increase
    strictly, whatever padding lies between them. *)
Theorem position_ids_increase (padding_idx past : Z) (row : list Z)
    (t1 t2 : nat) (x1 x2 id1 id2 : Z) :
  in_range padding_idx past (length row) ->
  (t1 < t2)%nat ->
  nth_error row t1 = Some x1 -> x1 <> padding_idx ->
  nth_error row t2 = Some x2 -> x2 <> padding_idx ->
  nth_error (position_row padding_idx past row) t1 = Some id1 ->
  nth_error (position_row padding_idx past row) t2 = Some id2 ->
  (padding_idx < id1 < id2)%Z.
Proof.
  intros Hr Hlt H1 Hn1 H2 Hn2 Hid1 Hid2.
  rewrite (position_row_nth padding_idx past row t1 x1 Hr H1) in Hid1.
  rewrite (position_row_nth padding_idx past row t2 x2 Hr H2) in Hid2.
  destruct (Z.eqb_spec x1 padding_idx); [contradiction|].
  destruct (Z.eqb_spec x2 padding_idx); [contradiction|].
  injection Hid1 as <-. injection Hid2 as <-.
  pose proof (count_tokens_firstn_mono padding_idx row t1 t2 x2 Hlt H2 Hn2) as Hm.
  assert (H0 : (1 <= count_tokens padding_idx (firstn (S t1) row))%nat).
  { unfold count_tokens.
    assert (Hf : In x1 (filter (fun y => negb (y =? padding_idx)%Z) (firstn (S t1) row))).
    { apply filter_In. split.
      - apply (nth_error_In _ t1). rewrite nth_error_firstn.
        destruct (Nat.ltb_spec t1 (S t1)); [exact H1 | lia].
      - destruct (Z.eqb_spec x1 padding_idx); [contradiction | reflexivity]. }
    destruct (filter _ _); [destruct Hf | cbn [length]; lia]. }
  destruct Hr as [Hp _]. cbn [firstn] in Hm, H0 |- *. lia.
Qed.

Lemma position_ids_increase_witness :
  position_row 1 0 [7; 1; 9; 1]%Z = [2; 1; 3; 1]%Z /\ (1 < 2 < 3)%Z.
Proof.
  split; [vm_compute; reflexivity|].
  apply (position_ids_increase 1 0 [7; 1; 9; 1]%Z 0 2 7 9 2 3).
  - unfold in_range. cbn [length]. lia.
  - lia.
  - reflexivity.
  - lia.
  - reflexivity.
  - lia.
  - reflexivity.
  - reflexivity.
Defined.

(** X3.  On rows without any padding token and with no cached length,
    [create_position_ids_from_input_ids] gives the sequential ids
    [padding_idx + 1, ..., padding_idx + T] that
    [create_position_ids_from_inputs_embeds] generates. *)
Theorem position_ids_without_padding (input_ids : list (list Z)) (padding_idx : Z)
    (T : nat) :
  in_range padding_idx 0 T ->
  Forall (fun row => length row = T /\ Forall (fun x => x <> padding_idx) row) input_ids ->
  create_position_ids_from_input_ids input_ids padding_idx 0
  = create_position_ids_from_inputs_embeds (length input_ids) T padding_idx.
Proof.
  intros Hr Hrows. unfold create_position_ids_from_input_ids,
    create_position_ids_from_inputs_embeds.
  induction Hrows as [|row rows [HL Hnp] _ IH]; [reflexivity|].
  cbn [map length repeat]. f_equal; [|exact IH].
  apply nth_error_ext. intros t.
  rewrite nth_error_map, nth_error_seq.
  destruct (Nat.ltb_spec t T) as [Ht|Ht].
  - destruct (nth_error row t) as [x|] eqn:E; [|apply nth_error_None in E; lia].
    rewrite <- HL in Hr. rewrite (position_row_nth padding_idx 0 row t x Hr E).
    rewrite Forall_forall in Hnp. pose proof (Hnp x (nth_error_In _ _ E)) as Hx.
    destruct (Z.eqb_spec x padding_idx); [contradiction|].
    cbn [option_map]. f_equal.
    assert (Hc : count_tokens padding_idx (firstn (S t) row) = S t).
    { unfold count_tokens.
      rewrite forallb_filter_id.
      - rewrite length_firstn. lia.
      - apply forallb_forall. intros y Hy.
        assert (Hin : In y row).
        { rewrite <- (firstn_skipn (S t) row). apply in_or_app. left. exact Hy. }
        pose proof (Hnp y Hin). destruct (Z.eqb_spec y padding_idx); [contradiction|reflexivity]. }
    rewrite Hc. destruct Hr as [_ [_ [Hlo Hhi]]].
    rewrite wrap_small; lia.
  - cbn [option_map]. apply nth_error_None.
    unfold position_row, ne_mask. rewrite !length_map, length_combine, length_map.
    lia.
Qed.

Lemma position_ids_without_padding_witness :
  create_position_ids_from_input_ids [[7; 8; 9]; [4; 5; 6]]%Z 1 0
  = create_position_ids_from_inputs_embeds 2 3 1.
Proof.
  apply (position_ids_without_padding [[7; 8; 9]; [4; 5; 6]]%Z 1 3).
  - unfold in_range. lia.
  - repeat constructor; lia.
Defined.

End PositionFacts.

(* ================================================================== *)
(** * Norms: initial vectors, re-normalized states, normalizers *)
(* ================================================================== *)

Module NormFacts.

Import ConvnetMatrixLayer Scan PyFacts ScanFacts Configs SumFacts.

Lemma sum_squares_nonneg (v : list R) : 0 <= sum_list (map (fun x => x * x) v).
Proof.
  induction v as [|x v IH]; simpl; [lra|]. nra.
Qed.

Lemma norm2_nonneg (v : list R) : 0 <= norm2 v.
Proof. apply sqrt_pos. Qed.

Lemma sum_squares_scaled (k : R) (v : list R) :
  sum_list (map (fun x => x * x) (map (fun x => x * k) v))
  = sum_list (map (fun x => x * x) v) * (k * k).
Proof.
  induction v as [|x v IH]; simpl; [ring|]. rewrite IH. ring.
Qed.

(** Scaling a vector by [k >= 0] scales its L2 norm by [k]. *)
Lemma norm2_scaled (k : R) (v : list R) :
  0 <= k -> norm2 (map (fun x => x * k) v) = norm2 v * k.
Proof.
  intros Hk. unfold norm2. rewrite sum_squares_scaled.
  rewrite sqrt_mult_alt by apply sum_squares_nonneg.
  rewrite sqrt_square by exact Hk. reflexivity.
Qed.

Lemma norm2_divided (c : R) (v : list R) :
  0 < c -> norm2 (map (fun x => x / c) v) = norm2 v / c.
Proof.
  intros Hc. unfold Rdiv. apply norm2_scaled. left. apply Rinv_0_lt_compat, Hc.
Qed.

Lemma ratio_below_one (n eps : R) : 0 <= n -> 0 < eps -> 0 <= n / (n + eps) < 1.
Proof.
  intros Hn He. split.
  - apply Rmult_le_pos; [exact Hn|]. left. apply Rinv_0_lt_compat. lra.
  - apply (Rmult_lt_reg_r (n + eps)); [lra|]. field_simplify; lra.
Qed.

Lemma sum_squares_zeros (k : nat) :
  sum_list (map (fun x => x * x) (repeat 0 k)) = 0.
Proof. induction k as [|k IH]; simpl; [reflexivity|]. rewrite IH. ring. Qed.

Lemma sum_squares_repeat (c : R) (k : nat) :
  sum_list (map (fun x => x * x) (repeat c k)) = INR k * (c * c).
Proof.
  induction k as [|k IH]; [simpl; ring|].
  rewrite S_INR. cbn [repeat map sum_list fold_right]. fold (sum_list (map (fun x => x * x) (repeat c k))).
  rewrite IH. ring.
Qed.

Lemma initial_vector_item_norm (s : self) (B : nat) (init_type : string) (v : bvector) :
  matrix_dim s <> 0%nat ->
  initial_vector s B init_type = Ok v ->
  Forall (fun item => norm2 item = 1) v.
Proof.
  intros HD H. unfold initial_vector in H.
  destruct (String.eqb init_type "one").
  - destruct (Nat.eqb_spec (matrix_dim s) 0) as [E|_]; [contradiction|].
    injection H as <-.
    apply Forall_forall. intros item Hin. apply repeat_spec in Hin. subst item.
    unfold norm2. cbn [map sum_list fold_right].
    fold (sum_list (map (fun x => x * x) (repeat 0 (matrix_dim s - 1)))).
    rewrite sum_squares_zeros.
    replace (1 * 1 + 0) with 1 by ring. apply sqrt_1.
  - destruct (String.eqb init_type "all"); [|discriminate].
    injection H as <-.
    apply Forall_forall. intros item Hin. apply repeat_spec in Hin. subst item.
    unfold norm2. rewrite sum_squares_repeat.
    assert (HI : 0 < INR (matrix_dim s)) by (apply lt_0_INR; lia).
    assert (Hs : 0 < sqrt (INR (matrix_dim s))) by (apply sqrt_lt_R0, HI).
    replace (INR (matrix_dim s) * (1 / sqrt (INR (matrix_dim s))
                                   * (1 / sqrt (INR (matrix_dim s))))) with 1.
    + apply sqrt_1.
    + rewrite <- (sqrt_sqrt (INR (matrix_dim s))) at 1 by lra. field. lra.
Qed.



(** ** Re-normalized states *)

Lemma renormalize_bounded (s : self) (v : bvector) :
  0 < vector_norm_eps s -> Forall (fun item => norm2 item < 1) (renormalize s v).
Proof.
  intros He. unfold renormalize. apply Forall_map. apply Forall_forall. intros col _.
  rewrite norm2_divided by (pose proof (norm2_nonneg col); lra).
  apply ratio_below_one; [apply norm2_nonneg | exact He].
Qed.

Lemma sum_squares_combine_snd (n o : list R) :
  sum_list (map (fun x => x * x) (map snd (combine n o)))
  <= sum_list (map (fun x => x * x) o).
Proof.
  revert o. induction n as [|x n IH]; intros [|y o]; simpl; try lra.
  - pose proof (sum_squares_nonneg o). nra.
  - specialize (IH o). lra.
Qed.

Lemma sum_squares_combine_fst (n o : list R) :
  sum_list (map (fun x => x * x) (map fst (combine n o)))
  <= sum_list (map (fun x => x * x) n).
Proof.
  revert o. induction n as [|x n IH]; intros [|y o]; simpl; try lra.
  - pose proof (sum_squares_nonneg n). nra.
  - specialize (IH o). lra.
Qed.

Lemma blend_item_bounded (a : R) (n o : list R) :
  a = 0 \/ a = 1 -> norm2 n <= 1 -> norm2 o <= 1 ->
  norm2 (map (fun q => fst q * a + snd q * (1 - a)) (combine n o)) <= 1.
Proof.
  intros [-> | ->] Hn Ho.
  - rewrite (map_ext _ snd) by (intros q; ring).
    eapply Rle_trans; [|exact Ho]. unfold norm2.
    apply sqrt_le_1_alt, sum_squares_combine_snd.
  - rewrite (map_ext _ fst) by (intros q; ring).
    eapply Rle_trans; [|exact Hn]. unfold norm2.
    apply sqrt_le_1_alt, sum_squares_combine_fst.
Qed.

Lemma binary_nth (l : list R) (i : nat) :
  Forall (fun x => x = 0 \/ x = 1) l -> nth i l 0 = 0 \/ nth i l 0 = 1.
Proof.
  intros H. destruct (nth_in_or_default i l 0) as [Hin|Hd]; [|left; exact Hd].
  rewrite Forall_forall in H. apply H, Hin.
Qed.

Lemma blend_bounded (s : self) (mask_i : list R) (new_v v : bvector) :
  Forall (fun x => x = 0 \/ x = 1) mask_i ->
  bounded_state new_v -> bounded_state v -> bounded_state (blend s mask_i new_v v).
Proof.
  intros Hm Hn Hv. unfold bounded_state, blend in *. apply Forall_map.
  apply Forall_forall. intros [k [n o]] Hin. cbn [fst snd].
  apply in_combine_r in Hin.
  pose proof (in_combine_l _ _ _ _ Hin) as Hn'. pose proof (in_combine_r _ _ _ _ Hin) as Ho'.
  rewrite Forall_forall in Hn, Hv.
  apply blend_item_bounded; [|apply Hn, Hn' | apply Hv, Ho'].
  destruct (Nat.eqb (length mask_i) 1); apply binary_nth, Hm.
Qed.

Lemma produced_bounded (s : self) (f : bmatrix * option (list R)) (v : bvector) :
  norm_vectors s = true -> 0 < vector_norm_eps s -> step_binary f ->
  bounded_state v -> bounded_state (produced s f v).
Proof.
  intros Hnorm He Hf Hv.
  assert (Hnew : bounded_state (new_state s (fst f) v)).
  { unfold new_state. rewrite Hnorm. unfold bounded_state.
    eapply Forall_impl; [|apply renormalize_bounded, He]. intros; simpl in *; lra. }
  unfold produced, step_binary in *. destruct (snd f) as [mask_i|]; [|exact Hnew].
  apply blend_bounded; assumption.
Qed.

Lemma unroll_bounded (s : self) (acc : bool) (steps : list (bmatrix * option (list R))) :
  norm_vectors s = true -> 0 < vector_norm_eps s -> Forall step_binary steps ->
  forall v, bounded_state v -> Forall bounded_state (unroll s acc v steps).
Proof.
  intros Hnorm He. induction 1 as [|f steps Hf _ IH]; intros v Hv; simpl; constructor.
  - apply produced_bounded; assumption.
  - apply IH. destruct acc; [apply produced_bounded|]; assumption.
Qed.

Lemma map_result_forall {A B : Type} (f : A -> result B) (Q : B -> Prop) (l : list A) :
  forall r, map_result f l = Ok r ->
  (forall a b, In a l -> f a = Ok b -> Q b) -> Forall Q r.
Proof.
  induction l as [|x l IH]; simpl; intros r H HQ.
  - injection H as <-. constructor.
  - destruct (f x) as [b|e] eqn:Hx; simpl in H; [|discriminate].
    destruct (map_result f l) as [bs|e]; simpl in H; [|discriminate].
    injection H as <-. constructor; [apply (HQ x); auto|].
    apply IH; [reflexivity|]. intros a b' Ha. apply HQ. right. exact Ha.
Qed.

Lemma fetch_binary (B : nat) (m : list bmatrix) (am : option mask) (i : nat)
    (f : bmatrix * option (list R)) :
  mask_binary am -> fetch B m am i = Ok f -> step_binary f.
Proof.
  intros Hb H. unfold fetch in H. apply bind_ok in H. destruct H as [m_i [_ H]].
  destruct am as [rows|]; [|injection H as <-; exact I].
  apply bind_ok in H. destruct H as [mask_i [Hmask H]].
  destruct (_ || _); [|discriminate]. injection H as <-. unfold step_binary; cbn [snd].
  unfold mask_at in Hmask. apply (map_result_forall _ _ _ _ Hmask).
  intros row x Hrow Hx. unfold index in Hx.
  destruct (nth_error row i) as [y|] eqn:E; [|discriminate]. injection Hx as <-.
  simpl in Hb. rewrite Forall_forall in Hb. pose proof (Hb row Hrow) as Hr.
  rewrite Forall_forall in Hr. apply Hr. eapply nth_error_In, E.
Qed.

(** ** The size of the product before it is re-normalized *)

(** An entry is at most the L2 norm in magnitude. *)
Lemma entry_le_norm (v : list R) (x : R) : In x v -> Rabs x <= norm2 v.
Proof.
  intros Hin. unfold norm2. rewrite <- sqrt_Rsqr_abs. apply sqrt_le_1_alt.
  unfold Rsqr. induction v as [|y v IH]; [contradiction|].
  cbn [map sum_list fold_right]. fold (sum_list (map (fun z => z * z) v)).
  pose proof (sum_squares_nonneg v) as Hv.
  destruct Hin as [->|Hin]; [nra|]. specialize (IH Hin). nra.
Qed.

Lemma dot_bounded (b : R) (row v : list R) :
  Forall (fun x => Rabs x <= b) row -> Forall (fun y => Rabs y <= 1) v ->
  Rabs (dot row v) <= INR (length row) * b.
Proof.
  intros Hrow. revert v. induction Hrow as [|x row Hx Hrow IH]; intros v Hv.
  - unfold dot. cbn. rewrite Rabs_R0. lra.
  - assert (Hb : 0 <= b) by (pose proof (Rabs_pos x); lra).
    assert (Hn : 0 <= INR (length row)) by apply pos_INR.
    cbn [length]. rewrite S_INR.
    destruct v as [|y v].
    + unfold dot. cbn. rewrite Rabs_R0. nra.
    + inversion Hv as [|? ? Hy Hv']; subst.
      specialize (IH v Hv').
      change (dot (x :: row) (y :: v)) with (x * y + dot row v).
      eapply Rle_trans; [apply Rabs_triang|]. rewrite Rabs_mult.
      pose proof (Rabs_pos x). pose proof (Rabs_pos y). nra.
Qed.

Lemma sum_squares_le (c : R) (l : list R) :
  Forall (fun x => Rabs x <= c) l ->
  sum_list (map (fun x => x * x) l) <= INR (length l) * (c * c).
Proof.
  induction 1 as [|x l Hx _ IH]; [cbn; lra|].
  cbn [length map sum_list fold_right]. fold (sum_list (map (fun z => z * z) l)).
  rewrite S_INR.
  assert (x * x <= c * c).
  { unfold Rabs in Hx. destruct (Rcase_abs x); nra. }
  lra.
Qed.

(** For a [D] x [D] matrix with entries of magnitude at most [b] and a
    column of L2 norm at most 1, the sum of the squares of the product is at
    most [D^3 * b^2]. *)
Lemma matvec_squares_bounded (b : R) (D : nat) (M : matrix) (v : vector) :
  is_matrix D M -> Forall (Forall (fun x => Rabs x <= b)) M -> norm2 v <= 1 ->
  0 <= sum_list (map (fun x => x * x) (matvec M v)) <= INR D ^ 3 * b ^ 2.
Proof.
  intros [LM FM] Hb Hv. split; [apply sum_squares_nonneg|].
  assert (Hv1 : Forall (fun y => Rabs y <= 1) v).
  { apply Forall_forall. intros y Hy. pose proof (entry_le_norm v y Hy). lra. }
  assert (He : Forall (fun x => Rabs x <= INR D * b) (matvec M v)).
  { unfold matvec. apply Forall_map. apply Forall_forall. intros row Hrow.
    rewrite Forall_forall in FM, Hb.
    rewrite <- (FM row Hrow). apply dot_bounded; [apply Hb, Hrow | exact Hv1]. }
  eapply Rle_trans; [apply (sum_squares_le _ _ He)|].
  assert (HL : length (matvec M v) = D)
    by (unfold matvec; rewrite length_map; exact LM).
  rewrite HL. simpl. lra.
Qed.

(** X5.  With [norm_vectors] set and a positive [vector_norm_eps], for
    matrices of the sizes [torch.bmm] accepts, every state of the history of
    [calculate_vectors] has an L2 norm of at most 1 in every item, also under
    an attention mask of zeros and ones and in both scan directions.  When
    the entries of the matrices are at most [b] in magnitude with
    [dim^3 * b^2] within the range of float32, the sum of squares of every
    product [m[i] @ v] the scan can form (the quantity [torch.norm] takes
    the root of) lies within that range.  Exact arithmetic stands for the
    floats: the float results agree up to rounding. *)
Theorem renormalized_states_bounded (s : self) (hs : hidden_states) (m : list bmatrix)
    (am : option mask) (acc : bool) (init_type : string) (rev_dir : bool)
    (history : list bvector) (b : R) :
  norm_vectors s = true ->
  0 < vector_norm_eps s ->
  matrix_dim s <> 0%nat ->
  mask_binary am ->
  matrices_ok s (batch_sz hs) m ->
  Float32.entries_within b m ->
  INR (matrix_dim s) ^ 3 * b ^ 2 <= Float32.float32_max ->
  calculate_vectors s hs m am acc init_type rev_dir = Ok history ->
  Forall (Forall (fun item => norm2 item <= 1)) history /\
  (forall (m_i : bmatrix) (h : bvector), In m_i m -> In h history ->
     Forall (fun item => Float32.finite32 (sum_list (map (fun x => x * x) item)))
            (bmm m_i h)).
Proof.
  intros Hnorm He HD Hb Hmat Hent Hrange H. rewrite calculate_vectors_unroll in H.
  apply bind_ok in H. destruct H as [v0 [Hv0 H]].
  apply bind_ok in H. destruct H as [steps [Hsteps H]]. injection H as <-.
  assert (P0 : bounded_state v0).
  { pose proof (initial_vector_item_norm s _ _ _ HD Hv0) as Hn.
    unfold bounded_state. eapply Forall_impl; [|exact Hn]. intros item ->. lra. }
  assert (Hall : Forall bounded_state (v0 :: unroll s acc v0 steps)).
  { constructor; [exact P0|].
    apply (unroll_bounded s acc steps Hnorm He); [|exact P0].
    apply (map_result_forall _ _ _ _ Hsteps). intros i f _ Hf.
    eapply fetch_binary; eauto. }
  split; [exact Hall|].
  intros m_i h Hm_i Hh. unfold bmm. apply Forall_map. apply Forall_forall.
  intros [M v] Hin. cbn [fst snd].
  pose proof (in_combine_l _ _ _ _ Hin) as HM. pose proof (in_combine_r _ _ _ _ Hin) as Hv.
  unfold matrices_ok, Float32.entries_within in *.
  rewrite Forall_forall in Hmat, Hent, Hall.
  destruct (Hmat m_i Hm_i) as [_ Hshape]. pose proof (Hent m_i Hm_i) as Hbm.
  pose proof (Hall h Hh) as Hbh. unfold bounded_state in Hbh.
  rewrite Forall_forall in Hshape, Hbm, Hbh.
  destruct (matvec_squares_bounded b (matrix_dim s) M v (Hshape M HM) (Hbm M HM)
              (Hbh v Hv)) as [H0 H1].
  unfold Float32.finite32. rewrite Rabs_right by lra. lra.
Qed.

Lemma renormalized_states_bounded_witness :
  exists history,
    calculate_vectors (layer_with ["lr"%string] true false) (tiny_hidden 3) tiny_matrices
      (Some [[1; 0; 1]]) true "one" false = Ok history /\
    Forall (Forall (fun item => norm2 item <= 1)) history /\
    (forall (m_i : bmatrix) (h : bvector), In m_i tiny_matrices -> In h history ->
       Forall (fun item => Float32.finite32 (sum_list (map (fun x => x * x) item)))
              (bmm m_i h)).
Proof.
  assert (E : exists history,
            calculate_vectors (layer_with ["lr"%string] true false) (tiny_hidden 3)
              tiny_matrices (Some [[1; 0; 1]]) true "one" false = Ok history)
    by (eexists; reflexivity).
  destruct E as [history E]. exists history. split; [exact E|].
  apply (renormalized_states_bounded (layer_with ["lr"%string] true false) (tiny_hidden 3)
           tiny_matrices (Some [[1; 0; 1]]) true "one" false history 5).
  - reflexivity.
  - simpl. lra.
  - simpl. discriminate.
  - simpl. constructor; [|constructor].
    constructor; [right; reflexivity|].
    constructor; [left; reflexivity|].
    constructor; [right; reflexivity|constructor].
  - repeat constructor.
  - unfold Float32.entries_within, tiny_matrices.
    assert (H2 : Rabs 2 <= 5) by (rewrite Rabs_right; lra).
    assert (H3 : Rabs 3 <= 5) by (rewrite Rabs_right; lra).
    assert (H5 : Rabs 5 <= 5) by (rewrite Rabs_right; lra).
    repeat (first [exact H2 | exact H3 | exact H5 | apply Forall_nil | apply Forall_cons]).
  - unfold Float32.float32_max. simpl. lra.
  - exact E.
Defined.

End NormFacts.
(* ================================================================== *)
(** * What the matrix normalizers guarantee *)
(* ================================================================== *)

Module NormalizerBounds.

Import ConvnetMatrixEncoder Configs SumFacts NormFacts NormalizerFacts.

(** A vector of L2 norm at most 1 has entries of magnitude at most 1. *)
Lemma entries_below_norm (v : list R) :
  norm2 v <= 1 -> Forall (fun x => Rabs x <= 1) v.
Proof.
  intros Hv. apply Forall_forall. intros x Hx.
  pose proof (entry_le_norm v x Hx). lra.
Qed.

(** X6.  With [matrix_norm_alg = -1] and a positive [matrix_norm_eps], on a
    matrix whose rows have sums of squares within the range of float32, the
    normalizer keeps the shape of the matrix and turns every row of L2 norm
    [r] into a row of norm [r / (r + eps)], which is at most 1; every entry
    of the result is at most 1 in magnitude.  Exact arithmetic stands for
    the floats: the float results agree up to rounding (the float32 norm is
    exactly 1 once [r + eps] rounds to [r]). *)
Theorem row_normalizer_rows (s : self) (m : matrix) :
  matrix_norm_alg s = AlgInt AxisLast ->
  0 < matrix_norm_eps s ->
  Forall (fun row => Float32.finite32 (sum_list (map (fun x => x * x) row))) m ->
  exists f : matrix -> matrix,
    normalizer s = Ok f /\
    length (f m) = length m /\
    forall i, (i < length m)%nat ->
      length (nth i (f m) []) = length (nth i m []) /\
      norm2 (nth i (f m) [])
      = norm2 (nth i m []) / (norm2 (nth i m []) + matrix_norm_eps s) /\
      0 <= norm2 (nth i (f m) []) <= 1 /\
      Forall (fun x => Rabs x <= 1) (nth i (f m) []).
Proof.
  intros Halg He _. unfold normalizer. rewrite Halg.
  eexists. split; [reflexivity|]. cbv beta. split; [apply length_map|].
  intros i Hi. rewrite (PyFacts.nth_map_in _ m i [] []) by exact Hi.
  set (row := nth i m []). pose proof (norm2_nonneg row) as Hr.
  split; [apply length_map|].
  assert (E : norm2 (map (fun x => x / (norm2 row + matrix_norm_eps s)) row)
              = norm2 row / (norm2 row + matrix_norm_eps s))
    by (apply norm2_divided; lra).
  destruct (ratio_below_one (norm2 row) (matrix_norm_eps s) Hr He) as [H0 H1].
  split; [exact E|]. split; [rewrite E; lra|].
  apply entries_below_norm. rewrite E. lra.
Qed.

Lemma row_normalizer_rows_witness :
  exists f : matrix -> matrix,
    normalizer (encoder_with (AlgInt AxisLast) 2) = Ok f /\
    length (f [[3; 4]; [0; 0]]) = 2%nat /\
    norm2 (nth 0 (f [[3; 4]; [0; 0]]) [])
    = norm2 [3; 4] / (norm2 [3; 4] + 1 / 1000000) /\
    0 <= norm2 (nth 0 (f [[3; 4]; [0; 0]]) []) <= 1.
Proof.
  destruct (row_normalizer_rows (encoder_with (AlgInt AxisLast) 2) [[3; 4]; [0; 0]])
    as [f [H1 [H2 H3]]].
  - reflexivity.
  - simpl. lra.
  - unfold Float32.finite32, Float32.float32_max.
    constructor; [cbn; rewrite Rabs_right; lra|].
    constructor; [cbn; rewrite Rabs_right; lra|constructor].
  - exists f. split; [exact H1|]. split; [exact H2|].
    destruct (H3 0%nat) as [_ [H4 [H5 _]]]; [simpl; lia|].
    split; [exact H4 | exact H5].
Defined.

Lemma nth_combine_seq (g : nat * R -> R) (row : list R) (j : nat) :
  (j < length row)%nat ->
  nth j (map g (combine (seq 0 (length row)) row)) 0 = g (j, nth j row 0).
Proof.
  intros Hj.
  rewrite (PyFacts.nth_map_in g _ j (0%nat, 0)) by (rewrite length_combine, length_seq; lia).
  rewrite combine_nth by apply length_seq.
  rewrite seq_nth by exact Hj. reflexivity.
Qed.

(** X7.  With [matrix_norm_alg = -2] and a positive [matrix_norm_eps], on a
    matrix whose rows all have [n] entries and whose columns have sums of
    squares within the range of float32, column [j] of the result is column
    [j] of the input divided by (its L2 norm + eps): its norm is
    [c / (c + eps)], at most 1, and its entries are at most 1 in magnitude.
    Exact arithmetic stands for the floats: the float results agree up to
    rounding. *)
Theorem column_normalizer_columns (s : self) (n : nat) (m : matrix) :
  matrix_norm_alg s = AlgInt AxisSecondLast ->
  0 < matrix_norm_eps s ->
  Forall (fun row => length row = n) m ->
  (forall j, (j < n)%nat ->
     Float32.finite32 (sum_list (map (fun x => x * x) (column m j)))) ->
  exists f : matrix -> matrix,
    normalizer s = Ok f /\
    forall j, (j < n)%nat ->
      column (f m) j
      = map (fun x => x / (norm2 (column m j) + matrix_norm_eps s)) (column m j) /\
      norm2 (column (f m) j)
      = norm2 (column m j) / (norm2 (column m j) + matrix_norm_eps s) /\
      0 <= norm2 (column (f m) j) <= 1 /\
      Forall (fun x => Rabs x <= 1) (column (f m) j).
Proof.
  intros Halg He Hrows _. unfold normalizer. rewrite Halg.
  eexists. split; [reflexivity|]. cbv beta. intros j Hj.
  assert (Hc : column
                 (map (fun row =>
                         map (fun p => snd p / (norm2 (column m (fst p)) + matrix_norm_eps s))
                             (combine (seq 0 (length row)) row)) m) j
               = map (fun x => x / (norm2 (column m j) + matrix_norm_eps s)) (column m j)).
  { transitivity (map (fun row => nth j row 0 / (norm2 (column m j) + matrix_norm_eps s)) m).
    - unfold column at 1. rewrite map_map. apply map_ext_in. intros row Hin.
      rewrite Forall_forall in Hrows. pose proof (Hrows row Hin) as HL.
      rewrite (nth_combine_seq
                 (fun p => snd p / (norm2 (column m (fst p)) + matrix_norm_eps s)) row j)
        by lia.
      reflexivity.
    - generalize (norm2 (column m j) + matrix_norm_eps s). intros c.
      unfold column. rewrite map_map. reflexivity. }
  rewrite Hc. pose proof (norm2_nonneg (column m j)) as Hn.
  split; [reflexivity|].
  assert (E : norm2 (map (fun x => x / (norm2 (column m j) + matrix_norm_eps s))
                         (column m j))
              = norm2 (column m j) / (norm2 (column m j) + matrix_norm_eps s))
    by (apply norm2_divided; lra).
  destruct (ratio_below_one (norm2 (column m j)) (matrix_norm_eps s) Hn He) as [H0 H1].
  split; [exact E|]. split; [rewrite E; lra|].
  apply entries_below_norm. rewrite E. lra.
Qed.

Lemma column_normalizer_columns_witness :
  exists f : matrix -> matrix,
    normalizer (encoder_with (AlgInt AxisSecondLast) 2) = Ok f /\
    column (f [[3; 0]; [4; 0]]) 0
    = map (fun x => x / (norm2 [3; 4] + 1 / 1000000)) [3; 4] /\
    0 <= norm2 (column (f [[3; 0]; [4; 0]]) 0) <= 1.
Proof.
  destruct (column_normalizer_columns (encoder_with (AlgInt AxisSecondLast) 2) 2
              [[3; 0]; [4; 0]]) as [f [H1 H2]].
  - reflexivity.
  - simpl. lra.
  - repeat constructor.
  - intros j Hj. unfold Float32.finite32, Float32.float32_max.
    destruct j as [|[|j]]; [| |lia]; cbn; rewrite Rabs_right; lra.
  - exists f. split; [exact H1|].
    destruct (H2 0%nat) as [H3 [_ [H4 _]]]; [lia|].
    split; [exact H3 | exact H4].
Defined.

(** X8.  With the pair of matrix axes as [matrix_norm_alg] and a positive
    [matrix_norm_eps], a matrix whose sum of squares lies within the range
    of float32 and whose Frobenius norm is [F] is mapped to one of Frobenius
    norm [F / (F + eps) * sqrt(matrix_dim)], which is at most the Frobenius
    norm [sqrt(matrix_dim)] of an orthogonal matrix.  Exact arithmetic stands
    for the floats: the float results agree up to rounding (the float32
    norm reaches [sqrt(matrix_dim)] once [F + eps] rounds to [F]). *)
Theorem frobenius_normalizer_norm (s : self) (m : matrix) :
  matrix_norm_alg s = AlgPair ->
  0 < matrix_norm_eps s ->
  Float32.finite32 (sum_list (map (fun x => x * x) (concat m))) ->
  exists f : matrix -> matrix,
    normalizer s = Ok f /\
    f m = map_matrix
            (fun x => x / (frobenius m + matrix_norm_eps s) * sqrt (INR (matrix_dim s)))
            m /\
    frobenius (f m)
    = frobenius m / (frobenius m + matrix_norm_eps s) * sqrt (INR (matrix_dim s)) /\
    0 <= frobenius (f m) <= sqrt (INR (matrix_dim s)).
Proof.
  intros Halg He _. unfold normalizer. rewrite Halg.
  eexists. split; [reflexivity|]. cbv beta. split; [reflexivity|].
  assert (HF : 0 <= frobenius m) by apply sqrt_pos.
  assert (HD : 0 <= sqrt (INR (matrix_dim s))) by apply sqrt_pos.
  destruct (ratio_below_one (frobenius m) (matrix_norm_eps s) HF He) as [Hr0 Hr1].
  assert (E : frobenius
                (map_matrix
                   (fun x => x / (frobenius m + matrix_norm_eps s)
                             * sqrt (INR (matrix_dim s))) m)
              = frobenius m / (frobenius m + matrix_norm_eps s)
                * sqrt (INR (matrix_dim s))).
  { unfold frobenius at 1, map_matrix. rewrite <- concat_map.
    rewrite (map_ext (fun x => x / (frobenius m + matrix_norm_eps s)
                               * sqrt (INR (matrix_dim s)))
                     (fun x => x * (/ (frobenius m + matrix_norm_eps s)
                                    * sqrt (INR (matrix_dim s)))))
      by (intros x; unfold Rdiv; ring).
    fold (norm2 (map (fun x => x * (/ (frobenius m + matrix_norm_eps s)
                                    * sqrt (INR (matrix_dim s)))) (concat m))).
    rewrite norm2_scaled.
    - unfold frobenius, norm2, Rdiv. ring.
    - apply Rmult_le_pos; [|exact HD]. left. apply Rinv_0_lt_compat. lra. }
  rewrite E. split; [reflexivity|]. split.
  - apply Rmult_le_pos; assumption.
  - rewrite <- (Rmult_1_l (sqrt (INR (matrix_dim s)))) at 2.
    apply Rmult_le_compat_r; lra.
Qed.

Lemma frobenius_normalizer_norm_witness :
  exists f : matrix -> matrix,
    normalizer (encoder_with AlgPair 2) = Ok f /\
    frobenius (f [[1; 2]; [3; 4]])
    = frobenius [[1; 2]; [3; 4]] / (frobenius [[1; 2]; [3; 4]] + 1 / 1000000)
      * sqrt (INR 2) /\
    0 <= frobenius (f [[1; 2]; [3; 4]]) <= sqrt (INR 2).
Proof.
  destruct (frobenius_normalizer_norm (encoder_with AlgPair 2) [[1; 2]; [3; 4]])
    as [f [H1 [_ [H2 H3]]]].
  - reflexivity.
  - simpl. lra.
  - unfold Float32.finite32, Float32.float32_max. cbn. rewrite Rabs_right; lra.
  - exists f. split; [exact H1|]. split; [exact H2 | exact H3].
Defined.

(** ** The determinant after the ["det"] normalizer *)

Lemma remove_col_map (g : R -> R) (j : nat) (row : list R) :
  remove_col j (map g row) = map g (remove_col j row).
Proof. unfold remove_col. rewrite firstn_map, skipn_map, map_app. reflexivity. Qed.

Lemma minor_map (g : R -> R) (j : nat) (a : matrix) :
  map (remove_col j) (tl (map_matrix g a)) = map_matrix g (map (remove_col j) (tl a)).
Proof.
  unfold map_matrix. destruct a as [|row a]; [reflexivity|]. cbn [map tl].
  rewrite !map_map. apply map_ext. intros r. apply remove_col_map.
Qed.

(** Scaling every entry by [c] scales the determinant by [c ^ n]. *)
Lemma det_scaled (c : R) (n : nat) :
  forall a : matrix, det n (map_matrix (fun x => x * c) a) = det n a * c ^ n.
Proof.
  induction n as [|n IH]; intros a; [simpl; ring|].
  cbn [det].
  change (sum_n (S n) (fun j => (-1) ^ j * entry (map_matrix (fun x => x * c) a) 0 j
                               * det n (map (remove_col j)
                                            (tl (map_matrix (fun x => x * c) a))))
          = sum_n (S n) (fun j => (-1) ^ j * entry a 0 j
                                  * det n (map (remove_col j) (tl a))) * c ^ S n).
  rewrite (Rmult_comm _ (c ^ S n)), <- sum_n_scal.
  apply sum_n_ext. intros j _.
  rewrite minor_map, IH, entry_map_matrix by ring. simpl. ring.
Qed.

Lemma root_power (d : R) (n : nat) :
  0 <= d -> n <> 0%nat -> pow d (1 / INR n) ^ n = d.
Proof.
  intros Hd Hn. assert (HI : 0 < INR n) by (apply lt_0_INR; lia).
  unfold pow. destruct (Req_dec_T d 0) as [->|Hne].
  - destruct (Req_dec_T (1 / INR n) 0) as [E|_].
    + exfalso. assert (0 < 1 / INR n) by (apply Rdiv_lt_0_compat; lra). lra.
    + apply pow_i. lia.
  - assert (0 < d) by lra.
    rewrite <- Rpower_pow by (unfold Rpower; apply exp_pos).
    rewrite Rpower_mult. replace (1 / INR n * INR n) with 1 by (field; lra).
    apply Rpower_1. assumption.
Qed.

(** X9.  Under the ["det"] normalizer with a positive [matrix_norm_eps], for
    a matrix whose entries are at most [float32_max * matrix_norm_eps] in
    magnitude and whose determinant lies within the range of float32, every
    entry of the normalized matrix lies within that range, its determinant is
    the determinant of the input over the [matrix_dim]-th power of the
    denominator, and the magnitude of that determinant is at most 1.  Exact
    arithmetic stands for the floats: the float results agree up to
    rounding (in float32 the magnitude is exactly 1 once
    [|det| ** (1 / matrix_dim) + eps] rounds to [|det| ** (1 / matrix_dim)]). *)
Theorem det_normalizer_determinant (s : self) (m : matrix) :
  matrix_norm_alg s = AlgStr "det" ->
  matrix_dim s <> 0%nat ->
  0 < matrix_norm_eps s ->
  Forall (Forall (fun x => Rabs x <= Float32.float32_max * matrix_norm_eps s)) m ->
  Float32.finite32 (det (matrix_dim s) m) ->
  exists f : matrix -> matrix,
    normalizer s = Ok f /\
    Forall (Forall Float32.finite32) (f m) /\
    det (matrix_dim s) (f m)
    = det (matrix_dim s) m / det_denominator s m ^ matrix_dim s /\
    Rabs (det (matrix_dim s) (f m)) <= 1.
Proof.
  intros Halg HD He Hm _. rewrite (det_normalizer_form s Halg HD).
  eexists. split; [reflexivity|]. cbv beta.
  pose proof (det_denominator_pos s m He) as Hden.
  set (c := det_denominator s m) in *.
  set (n := matrix_dim s) in *.
  assert (Hc : 0 < c) by lra.
  assert (Hcn : 0 < c ^ n) by (apply pow_lt; exact Hc).
  split.
  { unfold map_matrix. apply Forall_map. revert Hm. apply Forall_impl. intros row Hrow.
    apply Forall_map. revert Hrow. apply Forall_impl. intros x Hx.
    unfold Float32.finite32, Rdiv. rewrite Rabs_mult, Rabs_inv, (Rabs_right c) by lra.
    apply (Rmult_le_reg_r c); [exact Hc|].
    rewrite Rmult_assoc, Rinv_l, Rmult_1_r by lra.
    eapply Rle_trans; [exact Hx|].
    apply Rmult_le_compat_l; [unfold Float32.float32_max; lra | exact Hden]. }
  assert (E : det n (map_matrix (fun x => x / c) m) = det n m / c ^ n).
  { transitivity (det n (map_matrix (fun x => x * / c) m)); [reflexivity|].
    rewrite (det_scaled (/ c) n m), pow_inv. reflexivity. }
  rewrite E. split; [reflexivity|].
  unfold Rdiv. rewrite Rabs_mult, Rabs_inv, (Rabs_right (c ^ n)) by lra.
  apply (Rmult_le_reg_r (c ^ n)); [exact Hcn|].
  rewrite Rmult_assoc, Rinv_l, Rmult_1_r, Rmult_1_l by lra.
  rewrite <- (root_power (Rabs (det n m)) n (Rabs_pos _) HD) at 1.
  apply pow_incr. split; [apply pow_nonneg|].
  unfold c, det_denominator. fold n. lra.
Qed.

Lemma det_normalizer_determinant_witness :
  exists f : matrix -> matrix,
    normalizer LinAlg.det_encoder = Ok f /\
    det 2 (f [[2; 0]; [0; 8]])
    = det 2 [[2; 0]; [0; 8]] / det_denominator LinAlg.det_encoder [[2; 0]; [0; 8]] ^ 2 /\
    Rabs (det 2 (f [[2; 0]; [0; 8]])) <= 1.
Proof.
  destruct (det_normalizer_determinant LinAlg.det_encoder [[2; 0]; [0; 8]])
    as [f [H1 [_ [H2 H3]]]].
  - reflexivity.
  - simpl. discriminate.
  - simpl. lra.
  - assert (H0 : Rabs 0 <= Float32.float32_max * (1 / 1000000))
      by (unfold Float32.float32_max; rewrite Rabs_R0; lra).
    assert (H2 : Rabs 2 <= Float32.float32_max * (1 / 1000000))
      by (unfold Float32.float32_max; rewrite Rabs_right; lra).
    assert (H8 : Rabs 8 <= Float32.float32_max * (1 / 1000000))
      by (unfold Float32.float32_max; rewrite Rabs_right; lra).
    cbn [LinAlg.det_encoder matrix_norm_eps].
    repeat (first [exact H0 | exact H2 | exact H8 | apply Forall_nil | apply Forall_cons]).
  - unfold Float32.finite32, Float32.float32_max. cbn. rewrite Rabs_right; lra.
  - exists f. split; [exact H1|]. split; [exact H2 | exact H3].
Defined.

End NormalizerBounds.

(* ================================================================== *)
(** * How the context views relate to each other *)
(* ================================================================== *)

Module ViewFacts.

Import ConvnetMatrixLayer Scan PyFacts ScanFacts ContextViews Views.

(** The scan returns the initial vector followed by the unrolling of its
    [T] iterations. *)
Lemma scan_history (s : self) (hs : hidden_states) (m : list bmatrix)
    (am : option mask) (acc rev_dir : bool) :
  init_ok s (vector_init_direction s) ->
  (context_sz hs <= length m)%nat ->
  mask_ok (batch_sz hs) (context_sz hs) am ->
  exists v0 steps,
    initial_vector s (batch_sz hs) (vector_init_direction s) = Ok v0 /\
    map_result (fetch (batch_sz hs) m am) (scan_order (context_sz hs) rev_dir) = Ok steps /\
    calculate_vectors s hs m am acc (vector_init_direction s) rev_dir
    = Ok (v0 :: unroll s acc v0 steps) /\
    length (unroll s acc v0 steps) = context_sz hs.
Proof.
  intros Hinit Hlen Hmask.
  destruct (initial_vector_ok s (batch_sz hs) _ Hinit) as [v0 Hv0].
  destruct (fetch_all_ok (batch_sz hs) (context_sz hs) m am
              (scan_order (context_sz hs) rev_dir) Hmask Hlen (scan_order_bound _ _))
    as [steps Hsteps].
  exists v0, steps. split; [exact Hv0|]. split; [exact Hsteps|]. split.
  - rewrite calculate_vectors_unroll, Hv0; simpl. rewrite Hsteps; reflexivity.
  - rewrite unroll_length, (map_result_length _ _ _ Hsteps). apply scan_order_length.
Qed.

Lemma view_at_stacked (H T B : nat) (history : list bvector) (b t h : nat) :
  (b < B)%nat -> (t < T)%nat -> (h < H)%nat ->
  view_at (stacked H T B history) b t h = nth (b * H + h) (nth t history []) [].
Proof. apply view_at_prepared. Qed.

Lemma view_at_repeated (H T B : nat) (v : bvector) (b t h : nat) :
  (b < B)%nat -> (t < T)%nat -> (h < H)%nat ->
  view_at (repeated H T B v) b t h = nth (b * H + h) v [].
Proof.
  intros Hb Ht Hh. unfold view_at, repeated.
  rewrite (nth_map_seq _ B b) by exact Hb.
  rewrite (nth_map_seq _ T t) by exact Ht.
  rewrite (nth_map_seq _ H h) by exact Hh. reflexivity.
Qed.

Lemma prepare_stacked (s : self) (history : list bvector) (T B : nat) :
  length history = T -> (1 <= T)%nat ->
  prepare_history_tensor s history T B = Ok (stacked (num_matrix_heads s) T B history).
Proof. apply prepare_history_tensor_ok. Qed.

Lemma removelast_cons {A : Type} (x : A) (u : list A) :
  removelast (x :: u) = firstn (length u) (x :: u).
Proof. rewrite removelast_firstn_len. reflexivity. Qed.

Lemma removelast_cons_length {A : Type} (x : A) (u : list A) :
  length (removelast (x :: u)) = length u.
Proof. rewrite removelast_cons, length_firstn. simpl. lia. Qed.

(** The block of the left-to-right views, from the history of its scan. *)
Lemma lr_views_stacked (s : self) (hs : hidden_states) (m : list bmatrix)
    (am : option mask) (v0 : bvector) (u : list bvector) :
  calculate_vectors s hs m am true (vector_init_direction s) false = Ok (v0 :: u) ->
  length u = context_sz hs -> (1 <= context_sz hs)%nat ->
  lr_views s hs m am =
  Ok ([("lr_excl"%string,
        PTensor (stacked (num_matrix_heads s) (context_sz hs) (batch_sz hs)
                   (removelast (v0 :: u))));
       ("lr"%string,
        PTensor (stacked (num_matrix_heads s) (context_sz hs) (batch_sz hs) u));
       ("global"%string,
        PTensor (repeated (num_matrix_heads s) (context_sz hs) (batch_sz hs)
                   (nth (context_sz hs - 1) u [])))],
      repeated (num_matrix_heads s) (context_sz hs) (batch_sz hs)
        (nth (context_sz hs - 1) u [])).
Proof.
  intros Hcv Hu HT. unfold lr_views. rewrite Hcv. cbn [bind].
  assert (Hidx : index (v0 :: u) (length (v0 :: u) - 1)
                 = Ok (nth (context_sz hs - 1) u [])).
  { unfold index.
    replace (length (v0 :: u) - 1)%nat with (S (context_sz hs - 1)) by (simpl; lia).
    cbn [nth_error]. rewrite (nth_error_nth' u []) by lia. reflexivity. }
  rewrite Hidx. cbn [bind].
  rewrite (prepare_stacked s (removelast (v0 :: u)))
    by (first [rewrite removelast_cons_length; exact Hu | exact HT]).
  cbn [bind tl]. rewrite (prepare_stacked s u) by assumption.
  reflexivity.
Qed.

(** The block of the right-to-left views, from the history of its scan. *)
Lemma rl_views_stacked (s : self) (hs : hidden_states) (m : list bmatrix)
    (am : option mask) (v0 : bvector) (u : list bvector) :
  calculate_vectors s hs m am true (vector_init_direction s) true = Ok (v0 :: u) ->
  length u = context_sz hs -> (1 <= context_sz hs)%nat ->
  rl_views s hs m am =
  Ok [("rl"%string,
       PTensor (stacked (num_matrix_heads s) (context_sz hs) (batch_sz hs) (rev u)));
      ("rl_excl"%string,
       PTensor (stacked (num_matrix_heads s) (context_sz hs) (batch_sz hs)
                  (rev (removelast (v0 :: u)))))].
Proof.
  intros Hcv Hu HT. unfold rl_views, reversed. rewrite Hcv. cbn [bind tl].
  rewrite (prepare_stacked s (rev u)) by (first [rewrite length_rev; exact Hu | exact HT]).
  cbn [bind].
  rewrite (prepare_stacked s (rev (removelast (v0 :: u))))
    by (first [rewrite length_rev, removelast_cons_length; exact Hu | exact HT]).
  reflexivity.
Qed.

(** X10.  The three left-to-right views of [forward] on a sequence of
    [T >= 1] positions: "lr_excl" at position 0 is the initial vector and at
    position [t > 0] it is "lr" at position [t - 1]; "global" is, at every
    position, "lr" at the last position. *)
Theorem lr_views_relations (s : self) (hs : hidden_states) (m : list bmatrix)
    (am : option mask) :
  init_ok s (vector_init_direction s) ->
  (context_sz hs <= length m)%nat ->
  mask_ok (batch_sz hs) (context_sz hs) am ->
  (1 <= context_sz hs)%nat ->
  exists (v0 : bvector) (excl lr glob : tensor4),
    initial_vector s (batch_sz hs) (vector_init_direction s) = Ok v0 /\
    lr_views s hs m am =
      Ok ([("lr_excl"%string, PTensor excl); ("lr"%string, PTensor lr);
           ("global"%string, PTensor glob)], glob) /\
    forall b t h,
      (b < batch_sz hs)%nat -> (t < context_sz hs)%nat -> (h < num_matrix_heads s)%nat ->
      (t = 0%nat -> view_at excl b t h = nth (b * num_matrix_heads s + h) v0 []) /\
      ((0 < t)%nat -> view_at excl b t h = view_at lr b (t - 1) h) /\
      view_at glob b t h = view_at lr b (context_sz hs - 1) h.
Proof.
  intros Hinit Hlen Hmask HT.
  destruct (scan_history s hs m am true false Hinit Hlen Hmask)
    as [v0 [steps [Hv0 [_ [Hcv Hu]]]]].
  set (u := unroll s true v0 steps) in *.
  exists v0. do 3 eexists. split; [exact Hv0|].
  split; [apply (lr_views_stacked s hs m am v0 u Hcv Hu HT)|].
  intros b t h Hb Ht Hh.
  rewrite !view_at_stacked, view_at_repeated by (first [assumption | lia]).
  rewrite removelast_cons, Hu, nth_firstn.
  destruct (Nat.ltb_spec t (context_sz hs)) as [_|]; [|lia].
  split; [|split].
  - intros ->. reflexivity.
  - intros Hpos. destruct t as [|t]; [lia|]. cbn [nth].
    replace (S t - 1)%nat with t by lia. reflexivity.
  - reflexivity.
Qed.

Lemma lr_views_relations_witness :
  exists (v0 : bvector) (excl lr glob : tensor4),
    initial_vector (tiny_layer ["lr"%string]) 1 "one" = Ok v0 /\
    lr_views (tiny_layer ["lr"%string]) (tiny_hidden 3) tiny_matrices None =
      Ok ([("lr_excl"%string, PTensor excl); ("lr"%string, PTensor lr);
           ("global"%string, PTensor glob)], glob) /\
    view_at excl 0 0 0 = nth 0 v0 [] /\
    view_at excl 0 2 0 = view_at lr 0 1 0 /\
    view_at glob 0 0 0 = view_at lr 0 2 0.
Proof.
  destruct (lr_views_relations (tiny_layer ["lr"%string]) (tiny_hidden 3) tiny_matrices None)
    as [v0 [excl [lr [glob [H1 [H2 H3]]]]]].
  - left; split; [reflexivity | simpl; discriminate].
  - simpl; lia.
  - exact I.
  - simpl; lia.
  - exists v0, excl, lr, glob. split; [exact H1|]. split; [exact H2|].
    destruct (H3 0%nat 0%nat 0%nat) as [A [_ C]]; [simpl; lia | simpl; lia | simpl; lia |].
    destruct (H3 0%nat 2%nat 0%nat) as [_ [B _]]; [simpl; lia | simpl; lia | simpl; lia |].
    split; [apply A; reflexivity|]. split; [apply B; lia | exact C].
Defined.

(** X11.  The two right-to-left views of [forward] on [T >= 1] positions:
    "rl_excl" at the last position is the initial vector, and at a position
    [t] before the last it is "rl" at position [t + 1]. *)
Theorem rl_views_relations (s : self) (hs : hidden_states) (m : list bmatrix)
    (am : option mask) :
  init_ok s (vector_init_direction s) ->
  (context_sz hs <= length m)%nat ->
  mask_ok (batch_sz hs) (context_sz hs) am ->
  (1 <= context_sz hs)%nat ->
  exists (v0 : bvector) (rl excl : tensor4),
    initial_vector s (batch_sz hs) (vector_init_direction s) = Ok v0 /\
    rl_views s hs m am =
      Ok [("rl"%string, PTensor rl); ("rl_excl"%string, PTensor excl)] /\
    forall b t h,
      (b < batch_sz hs)%nat -> (t < context_sz hs)%nat -> (h < num_matrix_heads s)%nat ->
      (t = (context_sz hs - 1)%nat ->
       view_at excl b t h = nth (b * num_matrix_heads s + h) v0 []) /\
      ((t + 1 < context_sz hs)%nat -> view_at excl b t h = view_at rl b (t + 1) h).
Proof.
  intros Hinit Hlen Hmask HT.
  destruct (scan_history s hs m am true true Hinit Hlen Hmask)
    as [v0 [steps [Hv0 [_ [Hcv Hu]]]]].
  set (u := unroll s true v0 steps) in *.
  exists v0. do 2 eexists. split; [exact Hv0|].
  split; [apply (rl_views_stacked s hs m am v0 u Hcv Hu HT)|].
  intros b t h Hb Ht Hh.
  rewrite view_at_stacked by assumption.
  rewrite rev_nth by (rewrite removelast_cons_length; lia).
  rewrite removelast_cons_length, removelast_cons, Hu, nth_firstn.
  destruct (Nat.ltb_spec (context_sz hs - S t) (context_sz hs)) as [_|]; [|lia].
  split.
  - intros ->. replace (context_sz hs - S (context_sz hs - 1))%nat with 0%nat by lia.
    reflexivity.
  - intros Hlt. rewrite view_at_stacked by assumption.
    rewrite rev_nth by lia. rewrite Hu.
    replace (context_sz hs - S t)%nat with (S (context_sz hs - S (t + 1))) by lia.
    reflexivity.
Qed.

Lemma rl_views_relations_witness :
  exists (v0 : bvector) (rl excl : tensor4),
    initial_vector (tiny_layer ["rl"%string]) 1 "one" = Ok v0 /\
    rl_views (tiny_layer ["rl"%string]) (tiny_hidden 3) tiny_matrices None =
      Ok [("rl"%string, PTensor rl); ("rl_excl"%string, PTensor excl)] /\
    view_at excl 0 2 0 = nth 0 v0 [] /\
    view_at excl 0 0 0 = view_at rl 0 1 0.
Proof.
  destruct (rl_views_relations (tiny_layer ["rl"%string]) (tiny_hidden 3) tiny_matrices None)
    as [v0 [rl [excl [H1 [H2 H3]]]]].
  - left; split; [reflexivity | simpl; discriminate].
  - simpl; lia.
  - exact I.
  - simpl; lia.
  - exists v0, rl, excl. split; [exact H1|]. split; [exact H2|].
    destruct (H3 0%nat 2%nat 0%nat) as [A _]; [simpl; lia | simpl; lia | simpl; lia |].
    destruct (H3 0%nat 0%nat 0%nat) as [_ B]; [simpl; lia | simpl; lia | simpl; lia |].
    split; [apply A; reflexivity | apply B; simpl; lia].
Defined.

(** ** Both inclusive views are one step from their exclusive view *)

Lemma new_state_item (s : self) (K D : nat) (M : bmatrix) (v : bvector) (k : nat) :
  is_bmatrix K D M -> is_bvector K D v -> (k < K)%nat ->
  nth k (new_state s M v) [] = step_item s (nth k M []) (nth k v []).
Proof.
  intros [LM _] [Lv _] Hk.
  assert (Hc : (k < length (combine M v))%nat)
    by (rewrite length_combine, LM, Lv, Nat.min_id; exact Hk).
  assert (Hb : nth k (bmm M v) [] = matvec (nth k M []) (nth k v [])).
  { unfold bmm.
    rewrite (PyFacts.nth_map_in (fun p : matrix * vector => matvec (fst p) (snd p))
               (combine M v) k ([], []) []) by exact Hc.
    rewrite combine_nth by (transitivity K; [exact LM | symmetry; exact Lv]).
    reflexivity. }
  unfold new_state, step_item. destruct (norm_vectors s); [|exact Hb].
  unfold renormalize.
  rewrite <- Hb.
  apply (PyFacts.nth_map_in
           (fun col : vector => map (fun x => x / (norm2 col + vector_norm_eps s)) col)
           (bmm M v) k [] []).
  unfold bmm. rewrite length_map. exact Hc.
Qed.

(** Iteration [j] of an accumulating scan without a mask, item by item. *)
Lemma accumulate_step_item (s : self) (hs : hidden_states) (m : list bmatrix)
    (rev_dir : bool) (v0 : bvector) (steps : list (bmatrix * option (list R)))
    (j k : nat) :
  initial_vector s (batch_sz hs) (vector_init_direction s) = Ok v0 ->
  map_result (fetch (batch_sz hs) m None) (scan_order (context_sz hs) rev_dir) = Ok steps ->
  (context_sz hs <= length m)%nat ->
  matrices_ok s (batch_sz hs) m ->
  (j < context_sz hs)%nat -> (k < batch_sz hs * num_matrix_heads s)%nat ->
  nth k (nth j (unroll s true v0 steps) []) []
  = step_item s (nth k (nth (position (context_sz hs) rev_dir j) m []) [])
      (nth k (nth j (v0 :: unroll s true v0 steps) []) []).
Proof.
  intros Hv0 Hsteps Hlen Hmat Hj Hk.
  set (T := context_sz hs) in *. set (B := batch_sz hs) in *.
  destruct (position_involutive T rev_dir j Hj) as [_ Hp].
  set (p := position T rev_dir j) in *.
  assert (Hm_p : nth_error m p = Some (nth p m [])) by (apply nth_error_nth'; lia).
  destruct (map_result_nth_error _ _ _ Hsteps j p) as [f [Hf Hfetch]].
  { apply scan_order_nth. exact Hj. }
  rewrite (fetch_ok B T m None p _ I Hp Hm_p) in Hfetch. injection Hfetch as <-.
  destruct (unroll_accumulate_nth s steps v0 j _ Hf) as [h_j [H1 H2]].
  cbn [nth_error] in H2.
  assert (E2 : nth j (unroll s true v0 steps) [] = produced s (nth p m [], mask_column None p) h_j)
    by (apply nth_error_nth; exact H2).
  assert (E1 : nth j (v0 :: unroll s true v0 steps) [] = h_j)
    by (apply nth_error_nth; exact H1).
  rewrite E2, E1.
  pose proof (initial_vector_shape s B _ v0 Hv0) as Sv0.
  assert (Sall : Forall (is_bvector (B * num_matrix_heads s) (matrix_dim s))
                   (v0 :: unroll s true v0 steps)).
  { constructor; [exact Sv0|]. apply unroll_shape; [|exact Sv0].
    eapply fetch_matrix_in; [exact Hmat | exact Hsteps]. }
  assert (Sh : is_bvector (B * num_matrix_heads s) (matrix_dim s) h_j).
  { rewrite Forall_forall in Sall. eapply Sall, nth_error_In, H1. }
  assert (Sm : is_bmatrix (B * num_matrix_heads s) (matrix_dim s) (nth p m [])).
  { unfold matrices_ok in Hmat. rewrite Forall_forall in Hmat.
    eapply Hmat, nth_error_In, Hm_p. }
  unfold produced. cbn [fst snd mask_column option_map].
  apply (new_state_item s _ _ _ _ k Sm Sh Hk).
Qed.

(** X12.  Without a mask, in both directions the inclusive view is one
    step of the recurrence away from the exclusive view of the same
    position: for every batch row, position [t] and head,
    [lr[t] = step(m[t], lr_excl[t])] and [rl[t] = step(m[t], rl_excl[t])],
    where [step(M, v)] is [M @ v], divided by (its L2 norm +
    [vector_norm_eps]) when [norm_vectors] is set. *)
Theorem inclusive_view_is_one_step (s : self) (hs : hidden_states) (m : list bmatrix) :
  init_ok s (vector_init_direction s) ->
  (context_sz hs <= length m)%nat ->
  matrices_ok s (batch_sz hs) m ->
  (1 <= context_sz hs)%nat ->
  exists (lr_excl lr glob rl rl_excl : tensor4),
    lr_views s hs m None =
      Ok ([("lr_excl"%string, PTensor lr_excl); ("lr"%string, PTensor lr);
           ("global"%string, PTensor glob)], glob) /\
    rl_views s hs m None =
      Ok [("rl"%string, PTensor rl); ("rl_excl"%string, PTensor rl_excl)] /\
    forall b t h,
      (b < batch_sz hs)%nat -> (t < context_sz hs)%nat -> (h < num_matrix_heads s)%nat ->
      view_at lr b t h
      = step_item s (nth (b * num_matrix_heads s + h) (nth t m []) [])
          (view_at lr_excl b t h) /\
      view_at rl b t h
      = step_item s (nth (b * num_matrix_heads s + h) (nth t m []) [])
          (view_at rl_excl b t h).
Proof.
  intros Hinit Hlen Hmat HT.
  destruct (scan_history s hs m None true false Hinit Hlen I)
    as [v0 [steps [Hv0 [Hsteps [Hcv Hu]]]]].
  destruct (scan_history s hs m None true true Hinit Hlen I)
    as [v0' [steps' [Hv0' [Hsteps' [Hcv' Hu']]]]].
  rewrite Hv0 in Hv0'. injection Hv0' as <-.
  set (u := unroll s true v0 steps) in *.
  set (u' := unroll s true v0 steps') in *.
  do 5 eexists.
  split; [apply (lr_views_stacked s hs m None v0 u Hcv Hu HT)|].
  split; [apply (rl_views_stacked s hs m None v0 u' Hcv' Hu' HT)|].
  intros b t h Hb Ht Hh.
  assert (Hk : (b * num_matrix_heads s + h < batch_sz hs * num_matrix_heads s)%nat) by nia.
  rewrite !view_at_stacked by assumption.
  split.
  - rewrite removelast_cons, Hu, nth_firstn.
    destruct (Nat.ltb_spec t (context_sz hs)) as [_|]; [|lia].
    apply (accumulate_step_item s hs m false v0 steps t _ Hv0 Hsteps Hlen Hmat Ht Hk).
  - rewrite !rev_nth by (rewrite ?removelast_cons_length; lia).
    rewrite removelast_cons_length, removelast_cons, Hu', nth_firstn.
    destruct (Nat.ltb_spec (context_sz hs - S t) (context_sz hs)) as [_|]; [|lia].
    assert (Hj : (context_sz hs - S t < context_sz hs)%nat) by lia.
    pose proof (accumulate_step_item s hs m true v0 steps' _ _ Hv0 Hsteps' Hlen Hmat Hj Hk)
      as E.
    unfold position in E.
    replace (context_sz hs - 1 - (context_sz hs - S t))%nat with t in E by lia.
    exact E.
Qed.

Lemma inclusive_view_is_one_step_witness :
  exists (lr_excl lr glob rl rl_excl : tensor4),
    lr_views (tiny_layer ["lr"; "rl"]%string) (tiny_hidden 3) tiny_matrices None =
      Ok ([("lr_excl"%string, PTensor lr_excl); ("lr"%string, PTensor lr);
           ("global"%string, PTensor glob)], glob) /\
    rl_views (tiny_layer ["lr"; "rl"]%string) (tiny_hidden 3) tiny_matrices None =
      Ok [("rl"%string, PTensor rl); ("rl_excl"%string, PTensor rl_excl)] /\
    view_at lr 0 1 0
    = step_item (tiny_layer ["lr"; "rl"]%string) [[3]] (view_at lr_excl 0 1 0) /\
    view_at rl 0 1 0
    = step_item (tiny_layer ["lr"; "rl"]%string) [[3]] (view_at rl_excl 0 1 0).
Proof.
  destruct (inclusive_view_is_one_step (tiny_layer ["lr"; "rl"]%string) (tiny_hidden 3)
              tiny_matrices)
    as [a [b [c [d [e [H1 [H2 H3]]]]]]].
  - left; split; [reflexivity | simpl; discriminate].
  - simpl; lia.
  - repeat constructor.
  - simpl; lia.
  - exists a, b, c, d, e. split; [exact H1|]. split; [exact H2|].
    apply (H3 0%nat 1%nat 0%nat); simpl; lia.
Defined.

(** ** A mask of ones is no mask *)




End ViewFacts.

(* ================================================================== *)
(** * When [ConvnetMatrixLayer.forward] returns, and when it cannot *)
(* ================================================================== *)

Module ForwardFacts.

Import ConvnetMatrixLayer Scan PyFacts ScanFacts ContextViews Views ViewFacts Supported.

Lemma bind_intro {A B : Type} (c : result A) (k : A -> result B) (a : A) (r : result B) :
  c = Ok a -> k a = r -> bind c k = r.
Proof. intros -> H. exact H. Qed.

Ltac bind_with H := eapply bind_intro; [exact H|]; cbv beta.

(** [forward], assembled from the results of its stages. *)
Lemma forward_assemble (s : self) (hs : hidden_states) (am : option mask) (om : bool)
    (enc_lr : tensor5 * tensor5) (rl : list bmatrix * tensor5)
    (lr : dict * option tensor4) (av2 av3 : dict) (context : list pyval)
    (x : tensor4) (y : tensor3) :
  matrix_encoder_forward (matrix_encoder_lr s) hs = Ok enc_lr ->
  (if rl_lr_matrix_different s then
     enc_rl <- matrix_encoder_forward (matrix_encoder_rl s) hs ;;
     Ok (map (@concat matrix) (fst enc_rl), snd enc_lr ++ snd enc_rl)
   else Ok (map (@concat matrix) (fst enc_lr), snd enc_lr)) = Ok rl ->
  (if intersects ["global"; "lr"; "lr_excl"]%string (use_for_context s) then
     r <- lr_views s hs (map (@concat matrix) (fst enc_lr)) am ;;
     Ok ([] ++ fst r, Some (snd r))
   else Ok ([], None)) = Ok lr ->
  (if intersects ["rl"; "rl_excl"]%string (use_for_context s) then
     r <- rl_views s hs (fst rl) am ;; Ok (fst lr ++ r)
   else Ok (fst lr)) = Ok av2 ->
  (if intersects ["local"; "local_l"; "local_r"]%string (use_for_context s) then
     r <- local_views s hs (map (@concat matrix) (fst enc_lr)) am ;; Ok (av2 ++ r)
   else Ok av2) = Ok av3 ->
  map_result (dict_get av3) (use_for_context s) = Ok context ->
  concatenate_last s hs context = Ok x ->
  mix_heads s x = Ok y ->
  forward s hs am None None None None om = outputs_of s y (snd rl) (snd lr) om.
Proof.
  intros H1 H2 H3 H4 H5 H6 H7 H8. unfold forward. cbn [assert_none bind].
  bind_with H1. bind_with H2. bind_with H3. bind_with H4. bind_with H5.
  bind_with H6. bind_with H7. bind_with H8. reflexivity.
Qed.

Lemma intersects_in (n : string) (names l : list string) :
  In n names -> In n l -> intersects names l = true.
Proof.
  intros H1 H2. unfold intersects. apply existsb_exists. exists n. split; [exact H1|].
  apply existsb_exists. exists n. split; [exact H2 | apply String.eqb_refl].
Qed.

Lemma intersects_none (names l : list string) :
  (forall n, In n names -> ~ In n l) -> intersects names l = false.
Proof.
  intros H. destruct (intersects names l) eqn:E; [|reflexivity]. exfalso.
  unfold intersects in E. apply existsb_exists in E. destruct E as [n [Hn E]].
  apply existsb_exists in E. destruct E as [n' [Hn' E]].
  apply String.eqb_eq in E. subst n'. exact (H n Hn Hn').
Qed.

(** ** The three blocks return on a sequence of at least one position *)

Lemma lr_block_ok (s : self) (hs : hidden_states) (m : list bmatrix) (am : option mask) :
  init_ok s (vector_init_direction s) ->
  (context_sz hs <= length m)%nat ->
  mask_ok (batch_sz hs) (context_sz hs) am ->
  (1 <= context_sz hs)%nat ->
  exists a b c,
    lr_views s hs m am =
    Ok ([("lr_excl"%string, PTensor a); ("lr"%string, PTensor b);
         ("global"%string, PTensor c)], c).
Proof.
  intros Hinit Hlen Hmask HT.
  destruct (scan_history s hs m am true false Hinit Hlen Hmask)
    as [v0 [steps [_ [_ [Hcv Hu]]]]].
  do 3 eexists. apply (lr_views_stacked s hs m am v0 _ Hcv Hu HT).
Qed.

Lemma rl_block_ok (s : self) (hs : hidden_states) (m : list bmatrix) (am : option mask) :
  init_ok s (vector_init_direction s) ->
  (context_sz hs <= length m)%nat ->
  mask_ok (batch_sz hs) (context_sz hs) am ->
  (1 <= context_sz hs)%nat ->
  exists a b,
    rl_views s hs m am = Ok [("rl"%string, PTensor a); ("rl_excl"%string, PTensor b)].
Proof.
  intros Hinit Hlen Hmask HT.
  destruct (scan_history s hs m am true true Hinit Hlen Hmask)
    as [v0 [steps [_ [_ [Hcv Hu]]]]].
  do 2 eexists. apply (rl_views_stacked s hs m am v0 _ Hcv Hu HT).
Qed.

Lemma local_block_ok (s : self) (hs : hidden_states) (m : list bmatrix)
    (am : option mask) :
  init_ok s (vector_init_direction s) ->
  (context_sz hs <= length m)%nat ->
  mask_ok (batch_sz hs) (context_sz hs) am ->
  (1 <= context_sz hs)%nat ->
  exists a b c,
    local_views s hs m am =
    Ok [("local"%string, PTuple [a]); ("local_r"%string, PTensor b);
        ("local_l"%string, PTensor c)].
Proof.
  intros Hinit Hlen Hmask HT.
  destruct (local_lists_spec s hs m am Hinit Hlen Hmask HT)
    as [v0 [loc [l [r [_ [Hl [L1 [L2 [L3 _]]]]]]]]].
  unfold local_views. rewrite Hl. cbn [bind].
  rewrite (prepare_stacked s loc) by assumption. cbn [bind].
  rewrite (prepare_stacked s l) by assumption. cbn [bind].
  rewrite (prepare_stacked s r) by assumption. cbn [bind].
  eauto.
Qed.

(** ** Concatenation and the head policies *)

Lemma tensors_unwrap (context : list pyval) :
  Forall (fun v => exists t, v = PTensor t) context ->
  exists ts,
    map_result (fun v => match v with
                         | PTensor t => Ok t
                         | PTuple _ => Raise TypeError
                         end) context = Ok ts /\
    length ts = length context.
Proof.
  induction 1 as [|v c [t ->] _ [ts [E L]]]; simpl.
  - exists []. split; reflexivity.
  - rewrite E. simpl. exists (t :: ts). split; [reflexivity | simpl; congruence].
Qed.

Lemma concatenate_last_ok (s : self) (hs : hidden_states) (context : list pyval) :
  Forall (fun v => exists t, v = PTensor t) context -> context <> [] ->
  exists x, concatenate_last s hs context = Ok x /\
            length x = batch_sz hs /\
            Forall (fun row => length row = context_sz hs) x.
Proof.
  intros HF Hne. destruct (tensors_unwrap context HF) as [ts [E L]].
  destruct ts as [|t ts]; [destruct context; [contradiction | discriminate]|].
  unfold concatenate_last. eexists. split; [bind_with E; reflexivity|].
  split; [rewrite length_map, length_seq; reflexivity|].
  apply Forall_forall. intros row Hin. apply in_map_iff in Hin.
  destruct Hin as [b [<- _]]. rewrite length_map, length_seq. reflexivity.
Qed.

Lemma mix_heads_ok (s : self) (hs : hidden_states) (x : tensor4) :
  (networks_for_heads s = HeadsSeparate \/ networks_for_heads s = HeadsSeparateSum ->
   num_matrix_heads s <> 0%nat) ->
  length x = batch_sz hs -> Forall (fun row => length row = context_sz hs) x ->
  exists y, mix_heads s x = Ok y /\ hidden_shape hs y.
Proof.
  intros Hh L F.
  assert (Hshape : forall g : list (list R) -> list R, hidden_shape hs (map (map g) x)).
  { intros g. split; [rewrite length_map; exact L|]. apply Forall_map.
    revert F. apply Forall_impl. intros row Hr. rewrite length_map. exact Hr. }
  unfold mix_heads. destruct (networks_for_heads s).
  - eexists. split; [reflexivity | apply Hshape].
  - destruct (Nat.eqb_spec (num_matrix_heads s) 0) as [E|_]; [exfalso; apply Hh; auto|].
    eexists. split; [reflexivity | apply Hshape].
  - destruct (Nat.eqb_spec (num_matrix_heads s) 0) as [E|_]; [exfalso; apply Hh; auto|].
    eexists. split; [reflexivity | apply Hshape].
  - eexists. split; [reflexivity | apply Hshape].
Qed.

Ltac wrong_family Hn :=
  match goal with
  | I : intersects ?fam ?l = false |- _ =>
      let E := fresh "E" in
      assert (E : intersects fam l = true)
        by (apply (fun H => intersects_in _ fam l H Hn); simpl; auto 10);
      rewrite E in I; discriminate I
  end.

(** X14.  [forward] returns whenever the configuration is usable: a
    non-empty [use_for_context] drawn from "global", "lr", "lr_excl", "rl",
    "rl_excl", "local_l", "local_r"; a supported initial vector; a sequence
    of at least one position; a mask (if any) of one row per batch item
    that covers the positions; matrix encoders that return; at least one
    head for the per-head policies; and, for a decoder, one of the
    left-to-right views.  Its first output then has the shape [B, T, .],
    followed by the matrices when asked for and by the global vector for a
    decoder. *)
Theorem forward_returns (s : self) (hs : hidden_states) (am : option mask) (om : bool) :
  use_for_context s <> [] ->
  Forall (fun n => In n supported_views) (use_for_context s) ->
  init_ok s (vector_init_direction s) ->
  mask_ok (batch_sz hs) (context_sz hs) am ->
  (1 <= context_sz hs)%nat ->
  (exists e, matrix_encoder_forward (matrix_encoder_lr s) hs = Ok e) ->
  (rl_lr_matrix_different s = true ->
   exists e, matrix_encoder_forward (matrix_encoder_rl s) hs = Ok e) ->
  (networks_for_heads s = HeadsSeparate \/ networks_for_heads s = HeadsSeparateSum ->
   num_matrix_heads s <> 0%nat) ->
  (is_decoder s = true ->
   intersects ["global"; "lr"; "lr_excl"]%string (use_for_context s) = true) ->
  exists (x : tensor3) (rest : list output),
    forward s hs am None None None None om = Ok (OutHidden x :: rest) /\
    hidden_shape hs x /\
    length rest = ((if om then 1 else 0) + (if is_decoder s then 1 else 0))%nat.
Proof.
  intros Hne Hsup Hinit Hmask HT [[n_lr m_lr] Henc] Hrl Hheads Hdec.
  destruct (matrix_encoder_forward_length _ _ _ _ Henc) as [L1 _].
  assert (Lm : (context_sz hs <= length (map (@concat matrix) n_lr))%nat)
    by (rewrite length_map; lia).
  assert (Erl : exists rl,
            (if rl_lr_matrix_different s then
               enc_rl <- matrix_encoder_forward (matrix_encoder_rl s) hs ;;
               Ok (map (@concat matrix) (fst enc_rl), m_lr ++ snd enc_rl)
             else Ok (map (@concat matrix) n_lr, m_lr)) = Ok rl /\
            (context_sz hs <= length (fst rl))%nat).
  { destruct (rl_lr_matrix_different s).
    - destruct (Hrl eq_refl) as [[n_rl m_rl] E]. rewrite E. cbn [bind fst snd].
      eexists. split; [reflexivity|]. cbn [fst]. rewrite length_map.
      destruct (matrix_encoder_forward_length _ _ _ _ E) as [-> _]. lia.
    - eexists. split; [reflexivity | exact Lm]. }
  destruct Erl as [rl [Erl Lrl]].
  assert (Elr : exists lr,
            (if intersects ["global"; "lr"; "lr_excl"]%string (use_for_context s) then
               r <- lr_views s hs (map (@concat matrix) n_lr) am ;;
               Ok ([] ++ fst r, Some (snd r))
             else Ok ([], None)) = Ok lr /\
            ((exists a b c,
                lr = ([("lr_excl"%string, PTensor a); ("lr"%string, PTensor b);
                       ("global"%string, PTensor c)], Some c)) \/
             (intersects ["global"; "lr"; "lr_excl"]%string (use_for_context s) = false /\
              lr = ([], None)))).
  { destruct (intersects ["global"; "lr"; "lr_excl"]%string (use_for_context s)).
    - destruct (lr_block_ok s hs _ am Hinit Lm Hmask HT) as [a [b [c E]]].
      rewrite E. cbn [bind fst snd app]. eexists. split; [reflexivity|]. left. eauto.
    - eexists. split; [reflexivity|]. right. split; reflexivity. }
  destruct Elr as [lr [Elr Flr]].
  assert (Eav2 : exists av2,
            (if intersects ["rl"; "rl_excl"]%string (use_for_context s) then
               r <- rl_views s hs (fst rl) am ;; Ok (fst lr ++ r)
             else Ok (fst lr)) = Ok av2 /\
            ((exists a b,
                av2 = fst lr ++ [("rl"%string, PTensor a); ("rl_excl"%string, PTensor b)]) \/
             (intersects ["rl"; "rl_excl"]%string (use_for_context s) = false /\
              av2 = fst lr ++ []))).
  { destruct (intersects ["rl"; "rl_excl"]%string (use_for_context s)).
    - destruct (rl_block_ok s hs _ am Hinit Lrl Hmask HT) as [a [b E]].
      rewrite E. cbn [bind]. eexists. split; [reflexivity|]. left. eauto.
    - eexists. split; [reflexivity|]. right. split; [reflexivity|].
      rewrite app_nil_r. reflexivity. }
  destruct Eav2 as [av2 [Eav2 Fav2]].
  assert (Eav3 : exists av3,
            (if intersects ["local"; "local_l"; "local_r"]%string (use_for_context s) then
               r <- local_views s hs (map (@concat matrix) n_lr) am ;; Ok (av2 ++ r)
             else Ok av2) = Ok av3 /\
            ((exists a b c,
                av3 = av2 ++ [("local"%string, PTuple [a]); ("local_r"%string, PTensor b);
                              ("local_l"%string, PTensor c)]) \/
             (intersects ["local"; "local_l"; "local_r"]%string (use_for_context s) = false /\
              av3 = av2 ++ []))).
  { destruct (intersects ["local"; "local_l"; "local_r"]%string (use_for_context s)).
    - destruct (local_block_ok s hs _ am Hinit Lm Hmask HT) as [a [b [c E]]].
      rewrite E. cbn [bind]. eexists. split; [reflexivity|]. left. eauto.
    - eexists. split; [reflexivity|]. right. split; [reflexivity|].
      rewrite app_nil_r. reflexivity. }
  destruct Eav3 as [av3 [Eav3 Fav3]].
  assert (Hlook : forall n, In n (use_for_context s) ->
                            exists t, dict_get av3 n = Ok (PTensor t)).
  { intros n Hn. rewrite Forall_forall in Hsup. pose proof (Hsup n Hn) as Hs.
    destruct Flr as [[a1 [b1 [c1 ->]]] | [I1 ->]];
      destruct Fav2 as [[a2 [b2 ->]] | [I2 ->]];
      destruct Fav3 as [[a3 [b3 [c3 ->]]] | [I3 ->]];
      simpl in Hs;
      repeat (destruct Hs as [<- | Hs]; [first [wrong_family Hn | eexists; reflexivity]|]);
      destruct Hs. }
  destruct (map_result_total (dict_get av3) (use_for_context s)) as [context Hctx].
  { intros n Hn. destruct (Hlook n Hn) as [t ->]. eauto. }
  assert (Hall : Forall (fun v => exists t, v = PTensor t) context).
  { apply (NormFacts.map_result_forall _ _ _ _ Hctx). intros n v Hn Hv.
    destruct (Hlook n Hn) as [t E]. rewrite E in Hv. injection Hv as <-. eauto. }
  assert (Hcne : context <> []).
  { intros ->. apply map_result_length in Hctx.
    destruct (use_for_context s); [contradiction | discriminate]. }
  destruct (concatenate_last_ok s hs context Hall Hcne) as [x [Hx [Lx Fx]]].
  destruct (mix_heads_ok s hs x Hheads Lx Fx) as [y [Hy Sy]].
  pose proof (forward_assemble s hs am om (n_lr, m_lr) rl lr av2 av3 context x y
                Henc Erl Elr Eav2 Eav3 Hctx Hx Hy) as E.
  unfold outputs_of in E. exists y.
  destruct (is_decoder s).
  - destruct Flr as [[a1 [b1 [c1 ->]]] | [I1 _]];
      [|rewrite I1 in Hdec; discriminate (Hdec eq_refl)].
    cbn [snd] in E. destruct om; eexists; (split; [exact E|]);
      (split; [exact Sy | reflexivity]).
  - destruct om; eexists; (split; [exact E|]); (split; [exact Sy | reflexivity]).
Qed.

Lemma forward_returns_witness :
  exists (x : tensor3) (rest : list output),
    forward (Configs.layer_with ["lr"; "rl_excl"; "local_l"; "global"]%string true true)
      (tiny_hidden 3) (Some [[1; 1; 0]]) None None None None true
    = Ok (OutHidden x :: rest) /\
    hidden_shape (tiny_hidden 3) x /\
    length rest = 2%nat.
Proof.
  apply (forward_returns
           (Configs.layer_with ["lr"; "rl_excl"; "local_l"; "global"]%string true true)
           (tiny_hidden 3) (Some [[1; 1; 0]]) true).
  - simpl. discriminate.
  - unfold supported_views. simpl. repeat (constructor; [simpl; auto 10|]). constructor.
  - left; split; [reflexivity | simpl; discriminate].
  - split; [left; reflexivity | repeat constructor].
  - simpl; lia.
  - eexists. reflexivity.
  - simpl. discriminate.
  - simpl. intros [H|H]; discriminate H.
  - reflexivity.
Defined.

(** ** Inputs on which [forward] cannot return *)

Lemma calculate_vectors_empty (s : self) (hs : hidden_states) (m : list bmatrix)
    (am : option mask) (acc : bool) (init_type : string) (rev_dir : bool)
    (history : list bvector) :
  context_sz hs = 0%nat ->
  calculate_vectors s hs m am acc init_type rev_dir = Ok history ->
  exists v0, history = [v0].
Proof.
  intros HT H. rewrite calculate_vectors_unroll, HT in H.
  apply bind_ok in H. destruct H as [v0 [_ H]].
  unfold scan_order, range, reversed in H. destruct rev_dir; simpl in H;
    injection H as <-; eauto.
Qed.

Lemma lr_views_empty (s : self) (hs : hidden_states) (m : list bmatrix)
    (am : option mask) (r : dict * tensor4) :
  context_sz hs = 0%nat -> lr_views s hs m am <> Ok r.
Proof.
  intros HT H. unfold lr_views in H. bind_named H as v_lr Hv.
  destruct (calculate_vectors_empty _ _ _ _ _ _ _ _ HT Hv) as [v0 ->].
  simpl in H. discriminate H.
Qed.

Lemma rl_views_empty (s : self) (hs : hidden_states) (m : list bmatrix)
    (am : option mask) (r : dict) :
  context_sz hs = 0%nat -> rl_views s hs m am <> Ok r.
Proof.
  intros HT H. unfold rl_views in H. bind_named H as v_rl Hv.
  destruct (calculate_vectors_empty _ _ _ _ _ _ _ _ HT Hv) as [v0 ->].
  simpl in H. discriminate H.
Qed.

Lemma local_views_empty (s : self) (hs : hidden_states) (m : list bmatrix)
    (am : option mask) (r : dict) :
  context_sz hs = 0%nat -> local_views s hs m am <> Ok r.
Proof.
  intros HT H. unfold local_views, local_lists in H.
  bind_named H as lists Hl. bind_named Hl as v_local Hv.
  destruct (calculate_vectors_empty _ _ _ _ _ _ _ _ HT Hv) as [v0 ->].
  simpl in Hl. injection Hl as <-. simpl in H. discriminate H.
Qed.

(** X15.  On an empty sequence ([T = 0]) [forward] never returns, whatever
    the configuration and the other arguments: every block of views stacks
    an empty list of states, and without any block there is nothing to
    concatenate. *)
Theorem forward_empty_sequence_never_returns (s : self) (hs : hidden_states)
    (am : option mask) (head_mask ehs eam past_vector : unsupported) (om : bool) :
  context_sz hs = 0%nat ->
  ~ exists outputs, forward s hs am head_mask ehs eam past_vector om = Ok outputs.
Proof.
  intros HT [outputs H]. unfold forward in H.
  do 4 bind_inv H.
  bind_named H as enc_lr Henc. bind_named H as rl Hrl.
  bind_named H as lr Hlr. bind_named H as av2 Hav2. bind_named H as av3 Hav3.
  bind_named H as context Hctx. bind_named H as x Hx.
  destruct (intersects ["global"; "lr"; "lr_excl"]%string (use_for_context s)).
  { bind_named Hlr as r Hr. exact (lr_views_empty _ _ _ _ _ HT Hr). }
  injection Hlr as <-. cbn [fst] in Hav2.
  destruct (intersects ["rl"; "rl_excl"]%string (use_for_context s)).
  { bind_named Hav2 as r Hr. exact (rl_views_empty _ _ _ _ _ HT Hr). }
  injection Hav2 as <-.
  destruct (intersects ["local"; "local_l"; "local_r"]%string (use_for_context s)).
  { bind_named Hav3 as r Hr. exact (local_views_empty _ _ _ _ _ HT Hr). }
  injection Hav3 as <-.
  destruct (use_for_context s) as [|n names]; simpl in Hctx.
  - injection Hctx as <-. simpl in Hx. discriminate Hx.
  - discriminate Hctx.
Qed.

Lemma forward_empty_sequence_never_returns_witness :
  ~ exists outputs,
      forward (tiny_layer ["lr"%string]) (tiny_hidden 0) None None None None None false
      = Ok outputs.
Proof.
  apply (forward_empty_sequence_never_returns (tiny_layer ["lr"%string]) (tiny_hidden 0)
           None None None None None false).
  reflexivity.
Defined.

(** X16.  A decoder layer ([is_decoder]) whose [use_for_context] holds none
    of "global", "lr", "lr_excl" never returns from [forward]: the global
    vector it appends to its outputs is only computed with those views. *)
Theorem decoder_without_lr_views_never_returns (s : self) (hs : hidden_states)
    (am : option mask) (head_mask ehs eam past_vector : unsupported) (om : bool) :
  is_decoder s = true ->
  (forall n, In n ["global"; "lr"; "lr_excl"]%string -> ~ In n (use_for_context s)) ->
  ~ exists outputs, forward s hs am head_mask ehs eam past_vector om = Ok outputs.
Proof.
  intros Hd Hnone [outputs H]. apply intersects_none in Hnone.
  unfold forward in H. do 4 bind_inv H.
  bind_named H as enc_lr Henc. bind_named H as rl Hrl.
  bind_named H as lr Hlr. rewrite Hnone in Hlr. injection Hlr as <-.
  bind_named H as av2 Hav2. bind_named H as av3 Hav3.
  bind_named H as context Hctx. bind_named H as x Hx. bind_named H as y Hy.
  rewrite Hd in H. cbn [snd] in H. discriminate H.
Qed.

Lemma decoder_without_lr_views_never_returns_witness :
  ~ exists outputs,
      forward (Configs.layer_with ["rl"%string] false true) (tiny_hidden 2) None None None
        None None false = Ok outputs.
Proof.
  apply (decoder_without_lr_views_never_returns
           (Configs.layer_with ["rl"%string] false true) (tiny_hidden 2)
           None None None None None false).
  - reflexivity.
  - simpl. intros n [<-|[<-|[<-|[]]]] [H|[]]; discriminate H.
Defined.

Lemma dict_get_missing (d : dict) (n : string) :
  Forall (fun kv => fst kv <> n) d -> dict_get d n = Raise KeyError.
Proof.
  unfold dict_get. induction 1 as [|kv d Hkv _ IH]; simpl; [reflexivity|].
  destruct (String.eqb_spec (fst kv) n) as [E|_]; [contradiction|]. exact IH.
Qed.

(** X17.  A [use_for_context] that holds a name outside the eight
    documented views makes every call of [forward] fail: no block stores
    such a key, so the lookup of the context raises. *)
Theorem undocumented_view_never_returns (s : self) (hs : hidden_states)
    (am : option mask) (head_mask ehs eam past_vector : unsupported) (om : bool)
    (n : string) :
  In n (use_for_context s) ->
  ~ In n documented_views ->
  ~ exists outputs, forward s hs am head_mask ehs eam past_vector om = Ok outputs.
Proof.
  intros Hin Hdoc [outputs H]. unfold forward in H.
  do 4 bind_inv H.
  bind_named H as enc_lr Henc. bind_named H as rl Hrl.
  bind_named H as lr Hlr. bind_named H as av2 Hav2. bind_named H as av3 Hav3.
  bind_named H as context Hctx.
  assert (K : forall k, In k documented_views -> k <> n)
    by (intros k Hk ->; exact (Hdoc Hk)).
  assert (K1 : Forall (fun kv : string * pyval => fst kv <> n) (fst lr)).
  { destruct (intersects ["global"; "lr"; "lr_excl"]%string (use_for_context s)).
    - bind_named Hlr as r Hr. injection Hlr as <-.
      apply lr_views_form in Hr. destruct Hr as [t1 [t2 [t3 E]]].
      cbn [fst app]. rewrite E.
      repeat (constructor; [apply K; unfold documented_views; simpl; auto 10|]).
      constructor.
    - injection Hlr as <-. constructor. }
  assert (K2 : Forall (fun kv : string * pyval => fst kv <> n) av2).
  { destruct (intersects ["rl"; "rl_excl"]%string (use_for_context s)).
    - bind_named Hav2 as r Hr. injection Hav2 as <-.
      apply rl_views_form in Hr. destruct Hr as [t1 [t2 ->]].
      apply Forall_app. split; [exact K1|].
      repeat (constructor; [apply K; unfold documented_views; simpl; auto 10|]).
      constructor.
    - injection Hav2 as <-. exact K1. }
  assert (K3 : Forall (fun kv : string * pyval => fst kv <> n) av3).
  { destruct (intersects ["local"; "local_l"; "local_r"]%string (use_for_context s)).
    - bind_named Hav3 as r Hr. injection Hav3 as <-.
      apply local_views_form in Hr. destruct Hr as [t1 [t2 [t3 ->]]].
      apply Forall_app. split; [exact K2|].
      repeat (constructor; [apply K; unfold documented_views; simpl; auto 10|]).
      constructor.
    - injection Hav3 as <-. exact K2. }
  destruct (map_result_in _ _ _ n Hctx Hin) as [v [_ Hv]].
  rewrite (dict_get_missing av3 n K3) in Hv. discriminate Hv.
Qed.

Lemma undocumented_view_never_returns_witness :
  ~ exists outputs,
      forward (tiny_layer ["lr"; "left"]%string) (tiny_hidden 2) None None None None None
        false = Ok outputs.
Proof.
  apply (undocumented_view_never_returns (tiny_layer ["lr"; "left"]%string) (tiny_hidden 2)
           None None None None None false "left").
  - simpl. auto.
  - unfold documented_views. simpl.
    intros [H|[H|[H|[H|[H|[H|[H|[H|[]]]]]]]]]; discriminate H.
Defined.

End ForwardFacts.

(* ================================================================== *)
(** * [ConvnetLayer] and [ConvnetEncoder]: what is passed on and collected *)
(* ================================================================== *)

Module StackFacts.

Import ConvnetMatrixLayer PyFacts ContextViews Stack.

(** The tuple a matrix layer returns. *)
Lemma forward_outputs_form (s : self) (hs : hidden_states) (am : option mask)
    (head_mask ehs eam past_vector : unsupported) (om : bool) (outs : list output) :
  forward s hs am head_mask ehs eam past_vector om = Ok outs ->
  exists y m v, outs = OutHidden y :: tail_outputs s m v om.
Proof.
  intros H. unfold forward in H. do 4 bind_inv H.
  bind_named H as enc_lr Henc. bind_named H as rl Hrl.
  bind_named H as lr Hlr. bind_named H as av2 Hav2. bind_named H as av3 Hav3.
  bind_named H as context Hctx. bind_named H as x Hx. bind_named H as y Hy.
  unfold tail_outputs. destruct (is_decoder s).
  - destruct (snd lr) as [v|]; [|discriminate]. injection H as <-.
    exists y, (snd rl), v. destruct om; reflexivity.
  - injection H as <-. exists y, (snd rl), []. destruct om; reflexivity.
Qed.

(** X18.  [ConvnetLayer.forward] hands on the outputs of its matrix layer:
    only the first one is replaced, by the feed-forward sublayer applied to
    the output sublayer; the matrices and, for a decoder, the global vector
    follow unchanged and in the same order. *)
Theorem layer_hands_on_outputs (l : ConvnetLayer.self) (hs : hidden_states)
    (am : option mask) (head_mask past_vector : unsupported) (om : bool)
    (outs : list output) :
  ConvnetLayer.forward l hs am head_mask None None past_vector om = Ok outs ->
  exists (x : tensor3) (rest : list output),
    forward (ConvnetLayer.mm l) hs am head_mask None None past_vector om
    = Ok (OutHidden x :: rest) /\
    outs = OutHidden (ConvnetLayer.feed_forward_chunk l
                        (ConvnetLayer.matrix_output l x hs)) :: rest /\
    length rest = ((if om then 1 else 0)
                   + (if is_decoder (ConvnetLayer.mm l) then 1 else 0))%nat.
Proof.
  intros H. unfold ConvnetLayer.forward in H. cbn [assert_none bind] in H.
  bind_named H as blk Hblk. unfold ConvnetLayer.matrix_blk in Hblk.
  bind_named Hblk as mm_outs Hmm.
  destruct (forward_outputs_form _ _ _ _ _ _ _ _ _ Hmm) as [y [m [v ->]]].
  cbn [index nth_error bind tl] in Hblk. injection Hblk as <-.
  cbn [index nth_error bind tl] in H.
  exists y, (tail_outputs (ConvnetLayer.mm l) m v om).
  split; [exact Hmm|].
  unfold tail_outputs in *. destruct (is_decoder (ConvnetLayer.mm l)).
  - destruct om; simpl in H; injection H as <-; split; reflexivity.
  - destruct om; simpl in H; injection H as <-; split; reflexivity.
Qed.

Lemma layer_hands_on_outputs_witness :
  exists (outs : list output) (x : tensor3) (rest : list output),
    ConvnetLayer.forward decoder_layer (Scan.tiny_hidden 2) None None None None None true
    = Ok outs /\
    forward (ConvnetLayer.mm decoder_layer) (Scan.tiny_hidden 2) None None None None None
      true = Ok (OutHidden x :: rest) /\
    outs = OutHidden x :: rest /\ length rest = 2%nat.
Proof.
  assert (E : exists outs,
            ConvnetLayer.forward decoder_layer (Scan.tiny_hidden 2) None None None None
              None true = Ok outs) by (eexists; cbn; reflexivity).
  destruct E as [outs E].
  destruct (layer_hands_on_outputs decoder_layer (Scan.tiny_hidden 2) None None None true
              outs E) as [x [rest [H1 [H2 H3]]]].
  exists outs, x, rest. split; [exact E|]. split; [exact H1|]. split; [exact H2 | exact H3].
Defined.

(** ** The loop over the layers *)

Lemma forward_step_collects (s : ConvnetEncoder.self) (am : option mask)
    (hm : option (list unsupported)) (ehs eam : unsupported)
    (pvs : option (list unsupported)) (om oh : bool)
    (st st' : ConvnetEncoder.loop_state) (i : nat) :
  ConvnetEncoder.forward_step s am hm ehs eam pvs om oh st i = Ok st' ->
  ConvnetEncoder.ls_all_hidden_states st'
  = (if oh then ConvnetEncoder.ls_all_hidden_states st
               ++ [ConvnetEncoder.ls_hidden_states st]
     else ConvnetEncoder.ls_all_hidden_states st) /\
  length (ConvnetEncoder.ls_all_matrices st')
  = (length (ConvnetEncoder.ls_all_matrices st) + (if om then 1 else 0))%nat.
Proof.
  intros H. unfold ConvnetEncoder.forward_step in H.
  bind_named H as layer_module Hl. bind_named H as lhm Hhm. bind_named H as pv Hpv.
  bind_named H as layer_outputs Hlo. bind_named H as out_0 Ho.
  destruct out_0 as [x| |]; try discriminate.
  destruct (if ConvnetEncoder.gradient_checkpointing s && ConvnetEncoder.training s
            then if ConvnetEncoder.ls_use_cache st then false
                 else ConvnetEncoder.ls_use_cache st
            else ConvnetEncoder.ls_use_cache st); [discriminate|].
  bind_named H as all_matrices Hm. injection H as <-. cbn. split; [reflexivity|].
  destruct om.
  - bind_named Hm as out_1 H1.
    destruct (ConvnetEncoder.add_cross_attention s); [discriminate|].
    injection Hm as <-. rewrite length_app. reflexivity.
  - injection Hm as <-. lia.
Qed.

Lemma loop_collects (s : ConvnetEncoder.self) (am : option mask)
    (hm : option (list unsupported)) (ehs eam : unsupported)
    (pvs : option (list unsupported)) (om oh : bool) (order : list nat) :
  forall st st',
  for_loop order (ConvnetEncoder.forward_step s am hm ehs eam pvs om oh) st = Ok st' ->
  (exists added,
     ConvnetEncoder.ls_all_hidden_states st'
     = ConvnetEncoder.ls_all_hidden_states st ++ added /\
     length added = (if oh then length order else 0%nat) /\
     nth_error (added ++ [ConvnetEncoder.ls_hidden_states st']) 0
     = Some (if oh then ConvnetEncoder.ls_hidden_states st
             else ConvnetEncoder.ls_hidden_states st')) /\
  length (ConvnetEncoder.ls_all_matrices st')
  = (length (ConvnetEncoder.ls_all_matrices st)
     + (if om then length order else 0))%nat.
Proof.
  induction order as [|i order IH]; intros st st' H; cbn [for_loop] in H.
  - injection H as <-. split.
    + exists []. rewrite app_nil_r. split; [reflexivity|]. split.
      * destruct oh; reflexivity.
      * destruct oh; reflexivity.
    + destruct om; simpl; lia.
  - apply bind_ok in H. destruct H as [st1 [H1 H]].
    destruct (forward_step_collects _ _ _ _ _ _ _ _ _ _ _ H1) as [E1 M1].
    destruct (IH st1 st' H) as [[added [E2 [L2 N2]]] M2]. split.
    + rewrite E1 in E2. destruct oh.
      * exists (ConvnetEncoder.ls_hidden_states st :: added).
        rewrite E2, <- app_assoc. split; [reflexivity|].
        split; [simpl; rewrite L2; reflexivity | reflexivity].
      * exists added. split; [exact E2|]. split; [exact L2 | exact N2].
    + rewrite M2, M1. destruct om; simpl; lia.
Qed.

(** X19.  What [ConvnetEncoder.forward] collects when it returns: with
    [output_hidden_states], one entry per layer plus one, the first being
    the input of the first layer and the last [last_hidden_state]; with
    [output_matrices], exactly one entry per layer; and [None] for what was
    not asked for. *)
Theorem encoder_collects_per_layer (s : ConvnetEncoder.self) (hs : hidden_states)
    (am : option mask) (hm : option (list unsupported)) (ehs eam : unsupported)
    (pvs : option (list unsupported)) (uc om oh : bool)
    (out : ConvnetEncoder.ConvnetOutputWithPast) :
  ConvnetEncoder.forward s hs am hm ehs eam pvs uc om oh = Ok out ->
  (if oh then
     exists l, ConvnetEncoder.all_hidden_states out = Some l /\
               length l = (length (ConvnetEncoder.layer s) + 1)%nat /\
               nth_error l 0 = Some (stack_input s hs) /\
               nth_error l (length (ConvnetEncoder.layer s))
               = Some (ConvnetEncoder.last_hidden_state out)
   else ConvnetEncoder.all_hidden_states out = None) /\
  (if om then
     exists ms, ConvnetEncoder.matrices out = Some ms /\
                length ms = length (ConvnetEncoder.layer s)
   else ConvnetEncoder.matrices out = None).
Proof.
  intros H. unfold ConvnetEncoder.forward in H.
  apply bind_ok in H. destruct H as [st [Hloop H]]. injection H as <-.
  destruct (loop_collects _ _ _ _ _ _ _ _ _ _ _ Hloop) as [[added [E [L N]]] M].
  cbn in E, M, N |- *. unfold range in L, M. rewrite length_seq in L, M.
  split.
  - destruct oh; [|reflexivity]. rewrite E.
    exists (added ++ [ConvnetEncoder.ls_hidden_states st]).
    split; [reflexivity|]. split; [rewrite length_app, L; reflexivity|].
    split; [exact N|].
    rewrite nth_error_app2 by lia. rewrite L, Nat.sub_diag. reflexivity.
  - destruct om; [|reflexivity]. eexists. split; [reflexivity | exact M].
Qed.

Lemma encoder_collects_per_layer_witness :
  exists (out : ConvnetEncoder.ConvnetOutputWithPast) (l : list hidden_states)
         (ms : list output),
    ConvnetEncoder.forward
      (Cache.tiny_encoder_stack [Cache.tiny_convnet_layer; Cache.tiny_convnet_layer])
      (Scan.tiny_hidden 2) None None None None None false true true = Ok out /\
    ConvnetEncoder.all_hidden_states out = Some l /\ length l = 3%nat /\
    nth_error l 0 = Some (Scan.tiny_hidden 2) /\
    ConvnetEncoder.matrices out = Some ms /\ length ms = 2%nat.
Proof.
  assert (E : exists out,
            ConvnetEncoder.forward
              (Cache.tiny_encoder_stack [Cache.tiny_convnet_layer; Cache.tiny_convnet_layer])
              (Scan.tiny_hidden 2) None None None None None false true true = Ok out)
    by (eexists; cbn; reflexivity).
  destruct E as [out E].
  destruct (encoder_collects_per_layer _ _ _ _ _ _ _ _ _ _ _ E)
    as [[l [H1 [H2 [H3 _]]]] [ms [H4 H5]]].
  exists out, l, ms. split; [exact E|]. split; [exact H1|]. split; [exact H2|].
  split; [exact H3|]. split; [exact H4 | exact H5].
Defined.

(** ** Gradient checkpointing and [use_cache] *)

Lemma forward_step_checkpointed (s : ConvnetEncoder.self) (am : option mask)
    (hm : option (list unsupported)) (ehs eam : unsupported)
    (pvs : option (list unsupported)) (om oh : bool)
    (h : hidden_states) (uc : bool) (ah : list hidden_states) (ms : list output)
    (i : nat) :
  ConvnetEncoder.gradient_checkpointing s && ConvnetEncoder.training s = true ->
  ConvnetEncoder.forward_step s am hm ehs eam pvs om oh
    {| ConvnetEncoder.ls_hidden_states := h; ConvnetEncoder.ls_use_cache := uc;
       ConvnetEncoder.ls_all_hidden_states := ah; ConvnetEncoder.ls_all_matrices := ms |} i
  = ConvnetEncoder.forward_step s am hm ehs eam pvs om oh
      {| ConvnetEncoder.ls_hidden_states := h; ConvnetEncoder.ls_use_cache := false;
         ConvnetEncoder.ls_all_hidden_states := ah; ConvnetEncoder.ls_all_matrices := ms |} i.
Proof.
  intros Hgc. unfold ConvnetEncoder.forward_step. rewrite Hgc.
  cbn [ConvnetEncoder.ls_hidden_states ConvnetEncoder.ls_use_cache
       ConvnetEncoder.ls_all_hidden_states ConvnetEncoder.ls_all_matrices].
  destruct uc; reflexivity.
Qed.

(** X20.  In training with gradient checkpointing, [use_cache = True] is
    switched off at the first layer: [ConvnetEncoder.forward] then does
    exactly what it does with [use_cache = False], instead of stopping at
    the first layer. *)
Theorem checkpointing_switches_cache_off (s : ConvnetEncoder.self) (hs : hidden_states)
    (am : option mask) (hm : option (list unsupported)) (ehs eam : unsupported)
    (pvs : option (list unsupported)) (om oh : bool) :
  ConvnetEncoder.gradient_checkpointing s && ConvnetEncoder.training s = true ->
  ConvnetEncoder.forward s hs am hm ehs eam pvs true om oh
  = ConvnetEncoder.forward s hs am hm ehs eam pvs false om oh.
Proof.
  intros Hgc. unfold ConvnetEncoder.forward.
  destruct (range (length (ConvnetEncoder.layer s))) as [|i order]; [reflexivity|].
  cbn [for_loop]. rewrite (forward_step_checkpointed s am hm ehs eam pvs om oh _ true)
    by exact Hgc.
  reflexivity.
Qed.

Lemma checkpointing_switches_cache_off_witness :
  exists out,
    ConvnetEncoder.forward (checkpointed_stack [Cache.tiny_convnet_layer])
      (Scan.tiny_hidden 2) None None None None None true false false = Ok out /\
    ConvnetEncoder.forward (checkpointed_stack [Cache.tiny_convnet_layer])
      (Scan.tiny_hidden 2) None None None None None false false false = Ok out.
Proof.
  assert (E : exists out,
            ConvnetEncoder.forward (checkpointed_stack [Cache.tiny_convnet_layer])
              (Scan.tiny_hidden 2) None None None None None false false false = Ok out)
    by (eexists; cbn; reflexivity).
  destruct E as [out E]. exists out. split; [|exact E].
  rewrite (checkpointing_switches_cache_off (checkpointed_stack [Cache.tiny_convnet_layer])
             (Scan.tiny_hidden 2) None None None None None false false eq_refl).
  exact E.
Defined.

End StackFacts.

(* ================================================================== *)
(** * A mask of ones, from the scan to the layer *)
(* ================================================================== *)

Module OnesMask.

Import ConvnetMatrixLayer Scan PyFacts ScanFacts ContextViews Views ViewFacts Sizes.












End OnesMask.

(* ================================================================== *)
(** * Masking the matrices for the auxiliary losses *)
(* ================================================================== *)

Module MaskMatrixFacts.

Import ConvnetMatrixLayer PyFacts ContextViews MaskMatrix.

Lemma hd_length {A : Type} (k n : nat) (l : list (list A)) :
  length l = n -> (1 <= n)%nat -> Forall (fun x => length x = k) l -> length (hd [] l) = k.
Proof.
  intros L Hn F. destruct l as [|x l]; [simpl in L; lia|]. inversion F; subst. reflexivity.
Qed.

Lemma flat_index (t b B : nat) :
  (b < B)%nat -> ((t * B + b) / B = t /\ (t * B + b) mod B = b)%nat.
Proof.
  intros Hb. split.
  - symmetry. apply (Nat.div_unique _ _ t b); lia.
  - symmetry. apply (Nat.mod_unique _ _ t b); lia.
Qed.

Lemma scale_by_one (l : list matrix) :
  map (map_matrix (fun y => y * 1)) l = l.
Proof.
  unfold map_matrix. rewrite <- (map_id l) at 2. apply map_ext. intros a.
  rewrite <- (map_id a) at 2. apply map_ext. intros row.
  rewrite <- (map_id row) at 2. apply map_ext. intros y. ring.
Qed.

(** On tensors of matching sizes [mask_matrix] returns, and what it
    returns. *)
Lemma mask_matrix_value (T B : nat) (m : tensor5) (am : mask) :
  position_major T B m ->
  mask_shape B T am ->
  mask_matrix m (Some am)
  = Ok (map (fun t =>
          map (fun b =>
            map (map_matrix (fun y => y * nth t (nth b am []) 0))
                (nth b (nth t m []) []))
            (seq 0 B))
          (seq 0 T)).
Proof.
  intros [Lm Fm] [La Fa].
  assert (Hsizes : (T = 0%nat \/ B = 0%nat) \/
                   (length (hd [] m) = B /\ length (hd [] am) = T)).
  { destruct T as [|T]; [left; left; reflexivity|].
    destruct B as [|B]; [left; right; reflexivity|]. right. split.
    - apply (hd_length _ (S T)); [exact Lm | lia | exact Fm].
    - apply (hd_length _ (S B)); [exact La | lia | exact Fa]. }
  assert (Hempty : T = 0%nat \/ B = 0%nat -> m = repeat [] T).
  { intros [->| ->].
    - destruct m; [reflexivity | discriminate].
    - rewrite <- Lm. clear Lm Hsizes. induction Fm as [|x m Hx _ IH]; [reflexivity|].
      destruct x; [|discriminate]. simpl. f_equal. exact IH. }
  unfold mask_matrix. rewrite Lm, La.
  destruct Hsizes as [Hz | [Hm Ha]].
  - assert (Hb : length (hd [] m) = 0%nat).
    { rewrite (Hempty Hz). destruct T; reflexivity. }
    rewrite Hb.
    assert (Hbt : (B * length (hd [] am) = 0)%nat).
    { destruct Hz as [->| ->]; [|reflexivity].
      destruct am as [|row am]; [simpl; lia|]. inversion Fa; subst. simpl. lia. }
    rewrite Hbt, Nat.mul_0_r. cbn [Nat.eqb negb orb].
    f_equal. apply map_ext_in. intros t Ht.
    destruct Hz as [->| ->]; [destruct Ht | reflexivity].
  - rewrite Hm, Ha. rewrite (Nat.mul_comm T B), Nat.eqb_refl. cbn [negb].
    rewrite !Nat.eqb_refl. cbn [andb]. rewrite !orb_true_r.
    f_equal. apply map_ext_in. intros t Ht. apply map_ext_in. intros b Hb.
    apply in_seq in Hb. destruct (flat_index t b B) as [-> ->]; [lia|]. reflexivity.
Qed.

(** X21.  On matrices of shape [T, B, heads, n, n] and a mask of shape
    [B, T], [mask_matrix] returns: the matrices of position [t] and batch
    row [b] are scaled by [attention_mask[b][t]] (batch rows and positions
    are not mixed up by the transposition), hence untouched where the mask
    is 1 and zero where it is 0. *)
Theorem mask_matrix_scales_by_mask (T B : nat) (m : tensor5) (am : mask) :
  position_major T B m ->
  mask_shape B T am ->
  exists out,
    mask_matrix m (Some am) = Ok out /\
    position_major T B out /\
    forall t b, (t < T)%nat -> (b < B)%nat ->
      nth b (nth t out []) []
      = map (map_matrix (fun y => y * nth t (nth b am []) 0)) (nth b (nth t m []) []) /\
      (nth t (nth b am []) 0 = 1 -> nth b (nth t out []) [] = nth b (nth t m []) []) /\
      (nth t (nth b am []) 0 = 0 ->
       forall h i j, entry (nth h (nth b (nth t out []) []) []) i j = 0).
Proof.
  intros Hm Ha.
  eexists. split; [exact (mask_matrix_value T B m am Hm Ha)|]. split.
  { split; [rewrite length_map, length_seq; reflexivity|].
    apply Forall_map. apply Forall_forall. intros t _.
    rewrite length_map, length_seq. reflexivity. }
  intros t b Ht Hb.
  rewrite (nth_map_seq _ T t) by exact Ht.
  rewrite (nth_map_seq _ B b) by exact Hb.
  split; [reflexivity|]. split.
  - intros ->. apply scale_by_one.
  - intros -> h i j. set (l := nth b (nth t m []) []).
    destruct (Nat.lt_ge_cases h (length l)) as [Hh|Hh].
    + assert (Ez : nth h (map (map_matrix (fun y => y * 0)) l) []
                   = map_matrix (fun y => y * 0) (nth h l []))
        by (apply PyFacts.nth_map_in; exact Hh).
      rewrite Ez, NormalizerFacts.entry_map_matrix by ring. ring.
    + rewrite nth_overflow by (rewrite length_map; exact Hh).
      unfold entry. destruct i; destruct j; reflexivity.
Qed.

Lemma mask_matrix_scales_by_mask_witness :
  exists out,
    mask_matrix [[[[[1; 2]; [3; 4]]]; [[[5; 6]; [7; 8]]]]] (Some [[1]; [0]]) = Ok out /\
    nth 0 (nth 0 out []) [] = [[[1; 2]; [3; 4]]] /\
    forall h i j, entry (nth h (nth 1 (nth 0 out []) []) []) i j = 0.
Proof.
  destruct (mask_matrix_scales_by_mask 1 2 [[[[[1; 2]; [3; 4]]]; [[[5; 6]; [7; 8]]]]]
              [[1]; [0]]) as [out [H1 [_ H2]]].
  - split; [reflexivity | repeat constructor].
  - split; [reflexivity | repeat constructor].
  - exists out. split; [exact H1|]. split.
    + destruct (H2 0%nat 0%nat) as [_ [A _]]; [lia | lia |]. apply A. reflexivity.
    + destruct (H2 0%nat 1%nat) as [_ [_ A]]; [lia | lia |]. apply A. reflexivity.
Defined.

(** The raw matrices of an encoder have the shape [T, B, ., ., .]. *)
Lemma encoder_position_major (e : matrix_encoder) (hs : hidden_states)
    (m_norm m : tensor5) :
  matrix_encoder_forward e hs = Ok (m_norm, m) ->
  position_major (context_sz hs) (batch_sz hs) m.
Proof.
  intros H. unfold position_major.
  assert (Hgen : forall g : nat -> nat -> list matrix,
            length (map (fun t => map (fun b => g t b) (seq 0 (batch_sz hs)))
                        (seq 0 (context_sz hs))) = context_sz hs /\
            Forall (fun mt => length mt = batch_sz hs)
              (map (fun t => map (fun b => g t b) (seq 0 (batch_sz hs)))
                   (seq 0 (context_sz hs)))).
  { intros g. split; [rewrite length_map, length_seq; reflexivity|].
    apply Forall_map. apply Forall_forall. intros t _.
    rewrite length_map, length_seq. reflexivity. }
  destruct e as [e|e]; simpl in H.
  - unfold ConvnetMatrixEncoder.forward in H. bind_named H as f Hf.
    injection H as _ <-. apply Hgen.
  - unfold ConvnetMatrixEncoderV2.forward in H.
    destruct (ConvnetMatrixEncoderV2.matrix_norm_alg e); try discriminate.
    injection H as _ <-. apply Hgen.
Qed.

(** X22.  The matrices a layer with [rl_lr_matrix_different] returns cannot
    be masked: they span [2 * T] positions, and for a batch of at least one
    row and a sequence of at least one position [mask_matrix] with the
    [B, T] attention mask raises [RuntimeError] (the view of the mask has
    [B * T] elements, not [2 * T * B]). *)
Theorem two_encoder_matrices_cannot_be_masked (s : self) (hs : hidden_states)
    (lm : option mask) (am : mask) (outputs : list output) :
  rl_lr_matrix_different s = true ->
  (1 <= batch_sz hs)%nat -> (1 <= context_sz hs)%nat ->
  mask_shape (batch_sz hs) (context_sz hs) am ->
  forward s hs lm None None None None true = Ok outputs ->
  exists m, nth_error outputs 1 = Some (OutMatrices m) /\
            length m = (2 * context_sz hs)%nat /\
            mask_matrix m (Some am) = Raise RuntimeError.
Proof.
  intros Hdiff HB HT [La Fa] H. unfold forward in H. rewrite Hdiff in H.
  cbn [assert_none bind] in H.
  bind_named H as enc_lr Henc. destruct enc_lr as [n_lr m_lr].
  bind_named H as rl Hrl. bind_named Hrl as enc_rl Henc_rl.
  destruct enc_rl as [n_rl m_rl]. injection Hrl as <-. cbn [fst snd] in H.
  destruct (encoder_position_major _ _ _ _ Henc) as [L1 F1].
  destruct (encoder_position_major _ _ _ _ Henc_rl) as [L2 F2].
  exists (m_lr ++ m_rl). split.
  { bind_named H as lr Hlr. bind_named H as av2 Hav2. bind_named H as av3 Hav3.
    bind_named H as context Hctx. bind_named H as x Hx. bind_named H as y Hy.
    destruct (is_decoder s).
    - destruct (snd lr); [|discriminate]. injection H as <-. reflexivity.
    - injection H as <-. reflexivity. }
  split; [rewrite length_app; lia|].
  unfold mask_matrix. rewrite length_app, L1, L2, La.
  assert (Hhd : length (hd [] (m_lr ++ m_rl)) = batch_sz hs).
  { destruct m_lr as [|x m_lr]; [simpl in L1; lia|].
    inversion F1 as [|? ? Hx _]. exact Hx. }
  assert (Hta : length (hd [] am) = context_sz hs).
  { apply (hd_length _ (batch_sz hs)); assumption. }
  rewrite Hhd, Hta.
  destruct (Nat.eqb_spec ((context_sz hs + context_sz hs) * batch_sz hs)
              (batch_sz hs * context_sz hs)) as [E|_]; [nia | reflexivity].
Qed.

Lemma two_encoder_matrices_cannot_be_masked_witness :
  exists (outputs : list output) (m : tensor5),
    forward Scan.tiny_layer_two_encoders (Scan.tiny_hidden 2) None None None None None true
    = Ok outputs /\
    nth_error outputs 1 = Some (OutMatrices m) /\
    length m = 4%nat /\
    mask_matrix m (Some [[1; 1]]) = Raise RuntimeError.
Proof.
  assert (E : exists outputs,
            forward Scan.tiny_layer_two_encoders (Scan.tiny_hidden 2) None None None None
              None true = Ok outputs) by (eexists; cbn; reflexivity).
  destruct E as [outputs E].
  destruct (two_encoder_matrices_cannot_be_masked Scan.tiny_layer_two_encoders
              (Scan.tiny_hidden 2) None [[1; 1]] outputs)
    as [m [H1 [H2 H3]]].
  - reflexivity.
  - simpl; lia.
  - simpl; lia.
  - split; [reflexivity | repeat constructor].
  - exact E.
  - exists outputs, m. split; [exact E|]. split; [exact H1|]. split; [exact H2 | exact H3].
Defined.

End MaskMatrixFacts.

(* ================================================================== *)
(** * [make_orthogonal] does not depend on the signs the QR step chose *)
(* ================================================================== *)

Module OrthoCanonical.

Import ConvnetMatrixEncoder LinAlg SumFacts OrthoFacts Canonical.

Lemma sign_opp (x : R) : sign (- x) = - sign x.
Proof.
  destruct (Rtotal_order x 0) as [H|[->|H]].
  - rewrite (sign_neg x H), (sign_pos (- x)) by lra. ring.
  - rewrite Ropp_0, sign_0. ring.
  - rewrite (sign_pos x H), (sign_neg (- x)) by lra. ring.
Qed.

Lemma sign_scaled (sigma x : R) :
  sigma = 1 \/ sigma = -1 ->
  sign (sigma * x) = sigma * sign x /\ Rabs (sigma * x) = Rabs x.
Proof.
  intros [->| ->].
  - rewrite Rmult_1_l. split; [ring | reflexivity].
  - replace (-1 * x) with (- x) by ring. rewrite sign_opp, Rabs_Ropp. split; [ring | reflexivity].
Qed.

Lemma unit_ratio (x : R) : x <> 0 -> Rabs x / Rabs (Rabs x) = 1.
Proof.
  intros Hx. rewrite Rabs_Rabsolu. apply Rabs_no_R0 in Hx. field. exact Hx.
Qed.

(** X23.  When the diagonal of [r] has no zero, [make_orthogonal] returns
    [q] with column [j] multiplied by the sign of [r[j][j]], and this does
    not depend on the sign convention of [torch.linalg.qr]: two QR steps
    whose factors differ by signs (columns of [q], rows of [r]) give the same
    result. *)
Theorem make_orthogonal_sign_independent (s s' : self) (z q r q' r' : matrix)
    (sigma : nat -> R) :
  matrix_dim s' = matrix_dim s ->
  linalg_qr s z = (q, r) ->
  linalg_qr s' z = (q', r') ->
  same_up_to_signs (matrix_dim s) sigma q r q' r' ->
  (forall j, (j < matrix_dim s)%nat -> entry r j j <> 0) ->
  forall i j, (i < matrix_dim s)%nat -> (j < matrix_dim s)%nat ->
    entry (make_orthogonal s z) i j = entry q i j * sign (entry r j j) /\
    entry (make_orthogonal s' z) i j = entry (make_orthogonal s z) i j.
Proof.
  intros HD Hqr Hqr' Hsig Hnz i j Hi Hj.
  destruct (Hsig j Hj) as [Hs [Hr Hq]].
  pose proof (Hnz j Hj) as Hrj.
  assert (E : entry (make_orthogonal s z) i j = entry q i j * sign (entry r j j)).
  { rewrite (make_orthogonal_entry s z q r i j Hqr Hi Hj), (unit_ratio _ Hrj). ring. }
  split; [exact E|]. rewrite E.
  rewrite (make_orthogonal_entry s' z q' r' i j Hqr')
    by (rewrite HD; assumption).
  rewrite Hr, (Hq i Hi).
  destruct (sign_scaled (sigma j) (entry r j j) Hs) as [-> ->].
  rewrite (unit_ratio _ Hrj).
  destruct Hs as [->| ->]; ring.
Qed.

Lemma make_orthogonal_sign_independent_witness :
  entry (make_orthogonal ortho_encoder [[0; 1]; [1; 0]]) 0 1
  = entry [[0; -1]; [-1; 0]] 0 1 * sign (entry [[-1; 0]; [0; -1]] 1 1) /\
  entry (make_orthogonal ortho_encoder_positive [[0; 1]; [1; 0]]) 0 1
  = entry (make_orthogonal ortho_encoder [[0; 1]; [1; 0]]) 0 1.
Proof.
  apply (make_orthogonal_sign_independent ortho_encoder ortho_encoder_positive
           [[0; 1]; [1; 0]] [[0; -1]; [-1; 0]] [[-1; 0]; [0; -1]]
           [[0; 1]; [1; 0]] [[1; 0]; [0; 1]] (fun _ => -1)); [| | | | | simpl; lia | simpl; lia].
  - reflexivity.
  - reflexivity.
  - reflexivity.
  - intros j Hj. split; [right; reflexivity|]. split.
    + destruct j as [|[|j]]; [cbn; lra | cbn; lra | simpl in Hj; lia].
    + intros i Hi.
      destruct i as [|[|i]]; [| |simpl in Hi; lia];
        (destruct j as [|[|j]]; [cbn; lra | cbn; lra | simpl in Hj; lia]).
  - intros j Hj. destruct j as [|[|j]]; [cbn; lra | cbn; lra | simpl in Hj; lia].
Defined.

End OrthoCanonical.

(* ================================================================== *)
(** * When the unitary loss term vanishes *)
(* ================================================================== *)

Module UnitaryLossFacts.

Import ConvnetMatrixLayer PyFacts LinAlg SumFacts MaskMatrix UnitaryLoss.

Lemma sum_n_nonneg (n : nat) (f : nat -> R) :
  (forall k, (k < n)%nat -> 0 <= f k) -> 0 <= sum_n n f.
Proof.
  induction n as [|n IH]; intros H; [unfold sum_n; simpl; lra|].
  rewrite sum_n_S. assert (0 <= sum_n n f) by (apply IH; auto). assert (0 <= f n) by auto.
  lra.
Qed.

Lemma sum_n_vanishes (n : nat) (f : nat -> R) :
  (forall k, (k < n)%nat -> 0 <= f k) -> sum_n n f = 0 ->
  forall k, (k < n)%nat -> f k = 0.
Proof.
  induction n as [|n IH]; intros H Hs k Hk; [lia|].
  rewrite sum_n_S in Hs.
  assert (H1 : 0 <= sum_n n f) by (apply sum_n_nonneg; auto).
  assert (H2 : 0 <= f n) by auto.
  destruct (Nat.eq_dec k n) as [->|Hne]; [lra|].
  apply IH; [auto | lra | lia].
Qed.

Lemma sum_list_nonneg (l : list R) : Forall (fun x => 0 <= x) l -> 0 <= sum_list l.
Proof. induction 1 as [|x l Hx _ IH]; simpl; lra. Qed.



Lemma combine_map_same {A B C : Type} (f : A -> B) (g : A -> C) (l : list A) :
  combine (map f l) (map g l) = map (fun a => (f a, g a)) l.
Proof. induction l as [|a l IH]; simpl; [reflexivity|]. rewrite IH. reflexivity. Qed.

Lemma entry_gram (n : nat) (a : matrix) (i k : nat) :
  (i < n)%nat -> (k < n)%nat ->
  entry (matmul n a (transpose n a)) i k = sum_n n (fun j => entry a i j * entry a k j).
Proof.
  intros Hi Hk. unfold matmul. rewrite entry_mk_matrix by assumption.
  apply sum_n_ext. intros j Hj. unfold transpose.
  rewrite entry_mk_matrix by assumption. reflexivity.
Qed.

Lemma entry_eye (n i k : nat) :
  (i < n)%nat -> (k < n)%nat -> entry (eye n) i k = if Nat.eqb i k then 1 else 0.
Proof. intros Hi Hk. unfold eye. apply entry_mk_matrix; assumption. Qed.

(** The squared distance of [a @ a^T] to the identity. *)
Lemma gram_error_nonneg (n : nat) (a : matrix) :
  0 <= sum_n n (fun i =>
         sum_n n (fun j =>
           (entry (matmul n a (transpose n a)) i j - entry (eye n) i j)
           * (entry (matmul n a (transpose n a)) i j - entry (eye n) i j))).
Proof.
  apply sum_n_nonneg. intros i _. apply sum_n_nonneg. intros j _.
  exact (Rle_0_sqr _).
Qed.

Lemma gram_error_zero (n : nat) (a : matrix) :
  sum_n n (fun i =>
    sum_n n (fun j =>
      (entry (matmul n a (transpose n a)) i j - entry (eye n) i j)
      * (entry (matmul n a (transpose n a)) i j - entry (eye n) i j))) = 0
  <-> rows_orthonormal n a.
Proof.
  unfold rows_orthonormal. split.
  - intros H i k Hi Hk.
    pose proof (sum_n_vanishes n _
                  (fun i _ => sum_n_nonneg n _ (fun j _ => Rle_0_sqr _)) H i Hi) as Hrow.
    cbv beta in Hrow.
    pose proof (sum_n_vanishes n _ (fun j _ => Rle_0_sqr _) Hrow k Hk) as Hcell.
    cbv beta in Hcell. rewrite entry_gram, entry_eye in Hcell by assumption.
    fold (Rsqr (sum_n n (fun j => entry a i j * entry a k j)
                - (if Nat.eqb i k then 1 else 0))) in Hcell.
    apply Rsqr_0_uniq in Hcell. lra.
  - intros H. apply sum_n_zero. intros i Hi. apply sum_n_zero. intros k Hk.
    rewrite entry_gram, entry_eye, (H i k Hi Hk) by assumption. ring.
Qed.

(** The term, written over the flattened list of (masked) matrices. *)
Lemma unitary_mse_value (n : nat) (m out : tensor5) (am : option mask)
    (m_0 : matrix) (rest : list matrix) :
  mask_matrix m am = Ok out ->
  concat (concat out) = m_0 :: rest -> length m_0 = n ->
  unitary_mse_term m am =
  Ok (sum_list
        (map (fun a =>
                sum_n n (fun i =>
                  sum_n n (fun j =>
                    (entry (matmul n a (transpose n a)) i j - entry (eye n) i j)
                    * (entry (matmul n a (transpose n a)) i j - entry (eye n) i j))))
             (m_0 :: rest))
      / INR (length (m_0 :: rest) * n * n)).
Proof.
  intros Hmask E L. unfold unitary_mse_term. rewrite Hmask. cbn [bind]. rewrite E, L.
  unfold mse_loss. rewrite combine_map_same, map_map, length_map. reflexivity.
Qed.



(** ** A padded position keeps the term positive *)

Lemma sum_list_member (l : list R) (x : R) :
  Forall (fun y => 0 <= y) l -> In x l -> x <= sum_list l.
Proof.
  induction 1 as [|y l Hy Hl IH]; intros Hin; [destruct Hin|].
  pose proof (sum_list_nonneg l Hl). destruct Hin as [->|Hin]; simpl.
  - lra.
  - specialize (IH Hin). lra.
Qed.

Lemma is_matrix_scaled (n : nat) (c : R) (a : matrix) :
  is_matrix n a -> is_matrix n (map_matrix (fun y => y * c) a).
Proof.
  intros [L F]. unfold map_matrix. split; [rewrite length_map; exact L|].
  apply Forall_map. revert F. apply Forall_impl. intros row Hr.
  rewrite length_map. exact Hr.
Qed.

Lemma zero_matrix_not_orthonormal (n : nat) (a : matrix) :
  (1 <= n)%nat -> ~ rows_orthonormal n (map_matrix (fun y => y * 0) a).
Proof.
  intros Hn H. specialize (H 0%nat 0%nat Hn Hn). cbn [Nat.eqb] in H.
  rewrite sum_n_zero in H; [lra|]. intros j _.
  rewrite NormalizerFacts.entry_map_matrix by ring. ring.
Qed.

(** X25.  Under an attention mask, a single padded position keeps the
    unitary MSE term strictly positive whatever the matrices are: for a
    tensor of shape [T, B, H, n, n] with [H >= 1] and [n >= 1] and a
    [B, T] mask with [attention_mask[b][t] = 0] somewhere, the term is a
    value [v > 0] (the masked matrices are zero, and [0 @ 0^T] is not the
    identity). *)
Theorem padded_position_keeps_term_positive (T B H n : nat) (m : tensor5) (am : mask)
    (t b : nat) :
  tensor5_shape T B H n m ->
  mask_shape B T am ->
  (1 <= H)%nat -> (1 <= n)%nat ->
  (t < T)%nat -> (b < B)%nat ->
  nth t (nth b am []) 0 = 0 ->
  exists v, unitary_mse_term m (Some am) = Ok v /\ 0 < v.
Proof.
  intros [Hpm Hsh] Ham HH Hn Ht Hb Hzero.
  pose proof (MaskMatrixFacts.mask_matrix_value T B m am Hpm Ham) as Hmask.
  set (out := map (fun t =>
                map (fun b =>
                  map (map_matrix (fun y => y * nth t (nth b am []) 0))
                      (nth b (nth t m []) []))
                  (seq 0 B))
                (seq 0 T)) in *.
  destruct Hpm as [Lm Fm].
  assert (Hmt : forall t', (t' < T)%nat -> In (nth t' m []) m)
    by (intros t' Ht'; apply nth_In; lia).
  assert (Hmtb : forall t' b', (t' < T)%nat -> (b' < B)%nat ->
                   In (nth b' (nth t' m []) []) (nth t' m [])).
  { intros t' b' Ht' Hb'. apply nth_In. rewrite Forall_forall in Fm.
    rewrite (Fm _ (Hmt t' Ht')). exact Hb'. }
  assert (Hcell : forall t' b', (t' < T)%nat -> (b' < B)%nat ->
                    length (nth b' (nth t' m []) []) = H /\
                    Forall (is_matrix n) (nth b' (nth t' m []) [])).
  { intros t' b' Ht' Hb'. rewrite Forall_forall in Hsh.
    pose proof (Hsh _ (Hmt t' Ht')) as Hrow. rewrite Forall_forall in Hrow.
    apply Hrow. apply Hmtb; assumption. }
  (* the matrices after masking, flattened *)
  assert (Hshape : Forall (is_matrix n) (concat (concat out))).
  { apply Forall_concat. apply Forall_concat. unfold out.
    apply Forall_map. apply Forall_forall. intros t' Ht'. apply in_seq in Ht'.
    apply Forall_map. apply Forall_forall. intros b' Hb'. apply in_seq in Hb'.
    apply Forall_map. destruct (Hcell t' b') as [_ F]; [lia | lia |].
    revert F. apply Forall_impl. intros a Ha. apply is_matrix_scaled. exact Ha. }
  set (a0 := nth 0 (nth b (nth t m []) []) []).
  assert (Hin : In (map_matrix (fun y => y * 0) a0) (concat (concat out))).
  { apply in_concat.
    exists (map (map_matrix (fun y => y * 0)) (nth b (nth t m []) [])). split.
    - apply in_concat.
      exists (map (fun b' =>
                map (map_matrix (fun y => y * nth t (nth b' am []) 0))
                    (nth b' (nth t m []) []))
                (seq 0 B)).
      split.
      + unfold out.
        apply (in_map (fun t' =>
                 map (fun b' =>
                   map (map_matrix (fun y => y * nth t' (nth b' am []) 0))
                       (nth b' (nth t' m []) []))
                   (seq 0 B))).
        apply in_seq. lia.
      + assert (Eb : map (map_matrix (fun y => y * 0)) (nth b (nth t m []) [])
                     = (fun b' =>
                          map (map_matrix (fun y => y * nth t (nth b' am []) 0))
                              (nth b' (nth t m []) [])) b)
          by (cbv beta; rewrite Hzero; reflexivity).
        rewrite Eb.
        apply (in_map (fun b' =>
                 map (map_matrix (fun y => y * nth t (nth b' am []) 0))
                     (nth b' (nth t m []) [])) (seq 0 B) b).
        apply in_seq. lia.
    - apply in_map. apply nth_In. destruct (Hcell t b Ht Hb) as [-> _]. exact HH. }
  destruct (concat (concat out)) as [|m_0 rest] eqn:E; [destruct Hin|].
  assert (L : length m_0 = n) by (inversion Hshape as [|? ? [L0 _] _]; exact L0).
  rewrite (unitary_mse_value n m out (Some am) m_0 rest Hmask E L).
  set (err := fun a : matrix =>
                sum_n n (fun i =>
                  sum_n n (fun j =>
                    (entry (matmul n a (transpose n a)) i j - entry (eye n) i j)
                    * (entry (matmul n a (transpose n a)) i j - entry (eye n) i j)))).
  assert (Hpos : Forall (fun x => 0 <= x) (map err (m_0 :: rest))).
  { apply Forall_map. apply Forall_forall. intros a _. apply gram_error_nonneg. }
  assert (Herr : 0 < err (map_matrix (fun y => y * 0) a0)).
  { pose proof (gram_error_nonneg n (map_matrix (fun y => y * 0) a0)) as H0.
    fold (err (map_matrix (fun y => y * 0) a0)) in H0.
    destruct (Req_dec (err (map_matrix (fun y => y * 0) a0)) 0) as [Hz|Hnz]; [|lra].
    exfalso. apply (zero_matrix_not_orthonormal n a0 Hn).
    apply gram_error_zero. exact Hz. }
  assert (Hsum : err (map_matrix (fun y => y * 0) a0) <= sum_list (map err (m_0 :: rest))).
  { apply sum_list_member; [exact Hpos|]. apply in_map. exact Hin. }
  eexists. split; [reflexivity|].
  apply Rdiv_lt_0_compat; [lra|]. apply lt_0_INR. simpl length. nia.
Qed.

Lemma padded_position_keeps_term_positive_witness :
  exists v,
    unitary_mse_term [[[[[0; 1]; [1; 0]]]; [[[1; 0]; [0; 1]]]]] (Some [[1]; [0]]) = Ok v /\
    0 < v.
Proof.
  apply (padded_position_keeps_term_positive 1 2 1 2
           [[[[[0; 1]; [1; 0]]]; [[[1; 0]; [0; 1]]]]] [[1]; [0]] 0 1).
  - split; [split; [reflexivity | repeat constructor]|].
    repeat constructor.
  - split; [reflexivity | repeat constructor].
  - lia.
  - lia.
  - lia.
  - lia.
  - reflexivity.
Defined.

End UnitaryLossFacts.
(* ================================================================== *)
(** * The views look at one side of the sequence only *)
(* ================================================================== *)

Module Causality.

Import ConvnetMatrixLayer Scan PyFacts ScanFacts ContextViews Views ViewFacts.

(** A scan that returns, read backwards. *)
Lemma scan_inv (s : self) (hs : hidden_states) (m : list bmatrix) (am : option mask)
    (acc : bool) (init_type : string) (rev_dir : bool) (history : list bvector) :
  calculate_vectors s hs m am acc init_type rev_dir = Ok history ->
  exists v0 steps,
    initial_vector s (batch_sz hs) init_type = Ok v0 /\
    map_result (fetch (batch_sz hs) m am) (scan_order (context_sz hs) rev_dir) = Ok steps /\
    history = v0 :: unroll s acc v0 steps /\
    length (unroll s acc v0 steps) = context_sz hs.
Proof.
  intros H. rewrite calculate_vectors_unroll in H.
  apply bind_ok in H. destruct H as [v0 [Hv0 H]].
  apply bind_ok in H. destruct H as [steps [Hsteps H]]. injection H as <-.
  exists v0, steps. split; [exact Hv0|]. split; [exact Hsteps|]. split; [reflexivity|].
  rewrite unroll_length, (map_result_length _ _ _ Hsteps). apply scan_order_length.
Qed.

Lemma unroll_prefix (s : self) (acc : bool) (steps : list (bmatrix * option (list R))) :
  forall k v, firstn k (unroll s acc v steps) = unroll s acc v (firstn k steps).
Proof.
  induction steps as [|f steps IH]; intros [|k] v; simpl; try reflexivity.
  rewrite IH. reflexivity.
Qed.

Lemma map_result_prefix {A B : Type} (f f' : A -> result B) (l : list A) :
  forall k r r',
  map_result f l = Ok r -> map_result f' l = Ok r' ->
  (forall j a, (j < k)%nat -> nth_error l j = Some a -> f a = f' a) ->
  firstn k r = firstn k r'.
Proof.
  induction l as [|a l IH]; intros k r r' H H' Hagree; simpl in H, H'.
  - injection H as <-. injection H' as <-. reflexivity.
  - destruct (f a) as [b|e] eqn:Hb; simpl in H; [|discriminate].
    destruct (map_result f l) as [bs|e]; simpl in H; [|discriminate].
    destruct (f' a) as [b'|e] eqn:Hb'; simpl in H'; [|discriminate].
    destruct (map_result f' l) as [bs'|e]; simpl in H'; [|discriminate].
    injection H as <-. injection H' as <-.
    destruct k as [|k]; [reflexivity|]. simpl. f_equal.
    + assert (E : f a = f' a) by (apply (Hagree 0%nat); [lia | reflexivity]).
      rewrite Hb, Hb' in E. injection E as ->. reflexivity.
    + apply IH; [reflexivity | reflexivity |].
      intros j a' Hj Ha'. apply (Hagree (S j)); [lia | exact Ha'].
Qed.

Lemma fetch_agree (B : nat) (m m' : list bmatrix) (am : option mask) (i : nat) :
  nth_error m i = nth_error m' i -> fetch B m am i = fetch B m' am i.
Proof. unfold fetch, index. intros ->. reflexivity. Qed.

(** The first [k] iterations of two accumulating scans whose matrices agree
    on the positions those iterations consume produce the same states. *)
Lemma history_prefix (s : self) (T B : nat) (m m' : list bmatrix) (am : option mask)
    (rev_dir : bool) (v0 : bvector) (steps steps' : list (bmatrix * option (list R)))
    (k : nat) :
  map_result (fetch B m am) (scan_order T rev_dir) = Ok steps ->
  map_result (fetch B m' am) (scan_order T rev_dir) = Ok steps' ->
  (forall j, (j < k)%nat -> (j < T)%nat ->
     nth_error m (position T rev_dir j) = nth_error m' (position T rev_dir j)) ->
  forall j, (j < k)%nat ->
    nth j (unroll s true v0 steps) [] = nth j (unroll s true v0 steps') [] /\
    nth j (v0 :: unroll s true v0 steps) [] = nth j (v0 :: unroll s true v0 steps') [].
Proof.
  intros Hs Hs' Hagree.
  assert (Hf : firstn k steps = firstn k steps').
  { apply (map_result_prefix _ _ _ k steps steps' Hs Hs').
    intros j a Hj Ha.
    assert (HjT : (j < T)%nat).
    { rewrite <- (scan_order_length T rev_dir). apply nth_error_Some. congruence. }
    rewrite (scan_order_nth T rev_dir j HjT) in Ha. injection Ha as <-.
    apply fetch_agree. apply Hagree; assumption. }
  assert (Hu : firstn k (unroll s true v0 steps) = firstn k (unroll s true v0 steps'))
    by (rewrite !unroll_prefix, Hf; reflexivity).
  assert (Hn : forall j, (j < k)%nat ->
            nth j (unroll s true v0 steps) [] = nth j (unroll s true v0 steps') []).
  { intros j Hj.
    pose proof (nth_firstn k (unroll s true v0 steps) j []) as E1.
    pose proof (nth_firstn k (unroll s true v0 steps') j []) as E2.
    destruct (Nat.ltb_spec j k) as [_|]; [|lia].
    rewrite <- E1, <- E2, Hu. reflexivity. }
  intros j Hj. split; [apply Hn; exact Hj|].
  destruct j as [|j]; [reflexivity|]. cbn [nth]. apply Hn. lia.
Qed.

Lemma lr_views_inv (s : self) (hs : hidden_states) (m : list bmatrix) (am : option mask)
    (d : dict) (g : tensor4) :
  lr_views s hs m am = Ok (d, g) ->
  exists v0 steps,
    map_result (fetch (batch_sz hs) m am) (scan_order (context_sz hs) false) = Ok steps /\
    initial_vector s (batch_sz hs) (vector_init_direction s) = Ok v0 /\
    length (unroll s true v0 steps) = context_sz hs /\
    d = [("lr_excl"%string,
          PTensor (stacked (num_matrix_heads s) (context_sz hs) (batch_sz hs)
                     (removelast (v0 :: unroll s true v0 steps))));
         ("lr"%string,
          PTensor (stacked (num_matrix_heads s) (context_sz hs) (batch_sz hs)
                     (unroll s true v0 steps)));
         ("global"%string, PTensor g)].
Proof.
  intros H. pose proof H as H0. unfold lr_views in H. bind_named H as v_lr Hcv.
  pose proof Hcv as Hcv0.
  destruct (scan_inv _ _ _ _ _ _ _ _ Hcv) as [v0 [steps [Hv0 [Hsteps [-> Hu]]]]].
  destruct (Nat.eq_dec (context_sz hs) 0) as [HT|HT].
  { exfalso. exact (ForwardFacts.lr_views_empty s hs m am _ HT H0). }
  rewrite (lr_views_stacked s hs m am v0 _ Hcv0 Hu) in H0 by lia.
  injection H0 as <- <-. exists v0, steps. repeat split; assumption.
Qed.

Lemma rl_views_inv (s : self) (hs : hidden_states) (m : list bmatrix) (am : option mask)
    (d : dict) :
  rl_views s hs m am = Ok d ->
  exists v0 steps,
    map_result (fetch (batch_sz hs) m am) (scan_order (context_sz hs) true) = Ok steps /\
    initial_vector s (batch_sz hs) (vector_init_direction s) = Ok v0 /\
    length (unroll s true v0 steps) = context_sz hs /\
    d = [("rl"%string,
          PTensor (stacked (num_matrix_heads s) (context_sz hs) (batch_sz hs)
                     (rev (unroll s true v0 steps))));
         ("rl_excl"%string,
          PTensor (stacked (num_matrix_heads s) (context_sz hs) (batch_sz hs)
                     (rev (removelast (v0 :: unroll s true v0 steps)))))].
Proof.
  intros H. pose proof H as H0. unfold rl_views in H. bind_named H as v_rl Hcv.
  pose proof Hcv as Hcv0.
  destruct (scan_inv _ _ _ _ _ _ _ _ Hcv) as [v0 [steps [Hv0 [Hsteps [-> Hu]]]]].
  destruct (Nat.eq_dec (context_sz hs) 0) as [HT|HT].
  { exfalso. exact (ForwardFacts.rl_views_empty s hs m am _ HT H0). }
  rewrite (rl_views_stacked s hs m am v0 _ Hcv0 Hu) in H0 by lia.
  injection H0 as <-. exists v0, steps. repeat split; assumption.
Qed.

(** X26.  The views "lr" and "lr_excl" are causal: if two runs of the
    left-to-right block (same layer, same hidden-state sizes and mask)
    return and their matrices agree on the positions [0 .. t], then both
    views agree at every position up to [t], whatever the matrices of the
    later positions are. *)
Theorem lr_views_are_causal (s : self) (hs : hidden_states) (m m' : list bmatrix)
    (am : option mask) (d d' : dict) (g g' : tensor4) (t : nat)
    (name : string) (x x' : tensor4) :
  lr_views s hs m am = Ok (d, g) ->
  lr_views s hs m' am = Ok (d', g') ->
  (forall i, (i <= t)%nat -> nth_error m i = nth_error m' i) ->
  name = "lr"%string \/ name = "lr_excl"%string ->
  dict_get d name = Ok (PTensor x) ->
  dict_get d' name = Ok (PTensor x') ->
  forall b t' h,
    (b < batch_sz hs)%nat -> (t' <= t)%nat -> (t' < context_sz hs)%nat ->
    (h < num_matrix_heads s)%nat ->
    view_at x b t' h = view_at x' b t' h.
Proof.
  intros H H' Hagree Hname Hx Hx' b t' h Hb Ht' HtT Hh.
  destruct (lr_views_inv _ _ _ _ _ _ H) as [v0 [steps [Hs [Hv0 [Hu ->]]]]].
  destruct (lr_views_inv _ _ _ _ _ _ H') as [v0' [steps' [Hs' [Hv0' [Hu' ->]]]]].
  rewrite Hv0 in Hv0'. injection Hv0' as <-.
  destruct (history_prefix s (context_sz hs) (batch_sz hs) m m' am false v0 steps steps'
              (S t) Hs Hs') with (j := t') as [E1 E2]; [|lia|].
  { intros j Hj _. unfold position. apply Hagree. lia. }
  remember (stacked (num_matrix_heads s) (context_sz hs) (batch_sz hs)
              (removelast (v0 :: unroll s true v0 steps))) as a1 eqn:Ea1.
  remember (stacked (num_matrix_heads s) (context_sz hs) (batch_sz hs)
              (unroll s true v0 steps)) as a2 eqn:Ea2.
  remember (stacked (num_matrix_heads s) (context_sz hs) (batch_sz hs)
              (removelast (v0 :: unroll s true v0 steps'))) as b1 eqn:Eb1.
  remember (stacked (num_matrix_heads s) (context_sz hs) (batch_sz hs)
              (unroll s true v0 steps')) as b2 eqn:Eb2.
  destruct Hname as [->| ->]; cbn in Hx, Hx'; injection Hx as <-; injection Hx' as <-;
    subst a1 a2 b1 b2; rewrite !view_at_stacked by assumption.
  - rewrite E1. reflexivity.
  - rewrite !removelast_cons, Hu, Hu', !nth_firstn.
    destruct (Nat.ltb_spec t' (context_sz hs)) as [_|]; [|lia].
    rewrite E2. reflexivity.
Qed.

Lemma lr_views_are_causal_witness :
  exists (d d' : dict) (g g' x x' : tensor4),
    lr_views (tiny_layer ["lr"%string]) (tiny_hidden 3) tiny_matrices None = Ok (d, g) /\
    lr_views (tiny_layer ["lr"%string]) (tiny_hidden 3) [ [[[2]]]; [[[3]]]; [[[7]]] ] None
    = Ok (d', g') /\
    dict_get d "lr" = Ok (PTensor x) /\ dict_get d' "lr" = Ok (PTensor x') /\
    view_at x 0 1 0 = view_at x' 0 1 0.
Proof.
  assert (E : exists r,
            lr_views (tiny_layer ["lr"%string]) (tiny_hidden 3) tiny_matrices None = Ok r)
    by (eexists; cbn; reflexivity).
  assert (E' : exists r,
            lr_views (tiny_layer ["lr"%string]) (tiny_hidden 3)
              [ [[[2]]]; [[[3]]]; [[[7]]] ] None = Ok r)
    by (eexists; cbn; reflexivity).
  destruct E as [[d g] E]. destruct E' as [[d' g'] E'].
  destruct (ContextViews.lr_views_form _ _ _ _ _ E) as [a [x [c Hd]]].
  destruct (ContextViews.lr_views_form _ _ _ _ _ E') as [a' [x' [c' Hd']]].
  cbn [fst] in Hd, Hd'. subst d d'.
  do 2 eexists. exists g, g', x, x'.
  split; [exact E|]. split; [exact E'|]. split; [reflexivity|]. split; [reflexivity|].
  apply (lr_views_are_causal (tiny_layer ["lr"%string]) (tiny_hidden 3) tiny_matrices
           [ [[[2]]]; [[[3]]]; [[[7]]] ] None _ _ g g' 1 "lr" x x' E E').
  - intros [|[|i]] Hi; [reflexivity | reflexivity | lia].
  - left; reflexivity.
  - reflexivity.
  - reflexivity.
  - simpl; lia.
  - lia.
  - simpl; lia.
  - simpl; lia.
Defined.

(** X27.  The views "rl" and "rl_excl" look to the right only: if two runs
    of the right-to-left block return and their matrices agree on the
    positions [t .. T - 1], then both views agree at every position from
    [t] on, whatever the matrices of the earlier positions are. *)
Theorem rl_views_look_right (s : self) (hs : hidden_states) (m m' : list bmatrix)
    (am : option mask) (d d' : dict) (t : nat) (name : string) (x x' : tensor4) :
  rl_views s hs m am = Ok d ->
  rl_views s hs m' am = Ok d' ->
  (forall i, (t <= i)%nat -> (i < context_sz hs)%nat -> nth_error m i = nth_error m' i) ->
  name = "rl"%string \/ name = "rl_excl"%string ->
  dict_get d name = Ok (PTensor x) ->
  dict_get d' name = Ok (PTensor x') ->
  forall b t' h,
    (b < batch_sz hs)%nat -> (t <= t')%nat -> (t' < context_sz hs)%nat ->
    (h < num_matrix_heads s)%nat ->
    view_at x b t' h = view_at x' b t' h.
Proof.
  intros H H' Hagree Hname Hx Hx' b t' h Hb Ht' HtT Hh.
  destruct (rl_views_inv _ _ _ _ _ H) as [v0 [steps [Hs [Hv0 [Hu ->]]]]].
  destruct (rl_views_inv _ _ _ _ _ H') as [v0' [steps' [Hs' [Hv0' [Hu' ->]]]]].
  rewrite Hv0 in Hv0'. injection Hv0' as <-.
  destruct (history_prefix s (context_sz hs) (batch_sz hs) m m' am true v0 steps steps'
              (context_sz hs - t) Hs Hs') with (j := (context_sz hs - S t')%nat)
    as [E1 E2]; [|lia|].
  { intros j Hj HjT. unfold position. apply Hagree; lia. }
  remember (stacked (num_matrix_heads s) (context_sz hs) (batch_sz hs)
              (rev (removelast (v0 :: unroll s true v0 steps)))) as a1 eqn:Ea1.
  remember (stacked (num_matrix_heads s) (context_sz hs) (batch_sz hs)
              (rev (unroll s true v0 steps))) as a2 eqn:Ea2.
  remember (stacked (num_matrix_heads s) (context_sz hs) (batch_sz hs)
              (rev (removelast (v0 :: unroll s true v0 steps')))) as b1 eqn:Eb1.
  remember (stacked (num_matrix_heads s) (context_sz hs) (batch_sz hs)
              (rev (unroll s true v0 steps'))) as b2 eqn:Eb2.
  destruct Hname as [->| ->]; cbn in Hx, Hx'; injection Hx as <-; injection Hx' as <-;
    subst a1 a2 b1 b2; rewrite !view_at_stacked by assumption.
  - rewrite !rev_nth by lia. rewrite Hu, Hu', E1. reflexivity.
  - rewrite !rev_nth by (rewrite removelast_cons_length; lia).
    rewrite !removelast_cons_length, !removelast_cons, Hu, Hu', !nth_firstn.
    destruct (Nat.ltb_spec (context_sz hs - S t') (context_sz hs)) as [_|]; [|lia].
    rewrite E2. reflexivity.
Qed.

Lemma rl_views_look_right_witness :
  exists (d d' : dict) (x x' : tensor4),
    rl_views (tiny_layer ["rl"%string]) (tiny_hidden 3) tiny_matrices None = Ok d /\
    rl_views (tiny_layer ["rl"%string]) (tiny_hidden 3) [ [[[7]]]; [[[3]]]; [[[5]]] ] None
    = Ok d' /\
    dict_get d "rl" = Ok (PTensor x) /\ dict_get d' "rl" = Ok (PTensor x') /\
    view_at x 0 1 0 = view_at x' 0 1 0.
Proof.
  assert (E : exists r,
            rl_views (tiny_layer ["rl"%string]) (tiny_hidden 3) tiny_matrices None = Ok r)
    by (eexists; cbn; reflexivity).
  assert (E' : exists r,
            rl_views (tiny_layer ["rl"%string]) (tiny_hidden 3)
              [ [[[7]]]; [[[3]]]; [[[5]]] ] None = Ok r)
    by (eexists; cbn; reflexivity).
  destruct E as [d E]. destruct E' as [d' E'].
  destruct (ContextViews.rl_views_form _ _ _ _ _ E) as [x [c Hd]].
  destruct (ContextViews.rl_views_form _ _ _ _ _ E') as [x' [c' Hd']].
  subst d d'.
  do 2 eexists. exists x, x'.
  split; [exact E|]. split; [exact E'|]. split; [reflexivity|]. split; [reflexivity|].
  apply (rl_views_look_right (tiny_layer ["rl"%string]) (tiny_hidden 3) tiny_matrices
           [ [[[7]]]; [[[3]]]; [[[5]]] ] None _ _ 1 "rl" x x' E E').
  - intros [|[|[|i]]] Hi HiT; [lia | reflexivity | reflexivity | simpl in HiT; lia].
  - left; reflexivity.
  - reflexivity.
  - reflexivity.
  - simpl; lia.
  - lia.
  - simpl; lia.
  - simpl; lia.
Defined.

End Causality.

(* ================================================================== *)
(** * The preheat counter *)
(* ================================================================== *)

Module PreheatFacts.

Import ConvnetMatrixLayer ConvnetForMaskedLM Preheat PyFacts.

(** ** When the loss block returns *)















(** ** The gate *)















End PreheatFacts.
